(** * Stanza watchdog: the folder-watch handler of [Stanza-WatchDog-v2.py]

    A shallow embedding of [RobustFolderWatchHandler] (the same class is
    repeated verbatim in [Stanza-WatchDog-Service.py]) and of
    [start_folder_watch].

    - The stability detector [wait_for_stable_file] reads the clock and the
      file size; it is embedded as a function of the sequence of
      observations the operating system hands back, one record per loop
      iteration, and returns what it did (size reads, sleeps, log lines)
      along with its verdict.  Clock readings and intervals are rationals,
      file sizes natural numbers.  The loop only ever computes seven
      intervals ([running_interval]), all of them dyadic with small
      numerators, so the floating point product [wait_interval * 1.5] is
      exact on them.
    - Python exceptions are values of [PyExc]; [try]/[except]/[finally] are
      written out with the class hierarchy that decides which clause fires.
    - The threads of one handler are embedded as an interleaving step
      function on a handler state; every block run under [self.lock] is one
      atomic step, the [Semaphore] is its counter.
    - The script that the handler dispatches, [stanza-automation.py], is
      embedded as a state and exception monad over the replies that the
      server gives, one per request; what it does (prints, requests,
      sleeps) is recorded in order.  The Python objects that
      [response.json()] returns are a type class; the values built from
      JSON are an instance. *)

From Stdlib Require Import QArith Qminmax Ascii.
From stdpp Require Import gmap strings list pretty.

Local Open Scope Z_scope.

(** ** Configuration (lines 10-14) *)

Definition STABILITY_THRESHOLD : nat := 10.
Definition MAX_WAIT_TIME : Q := 600.
Definition INITIAL_CHECK_INTERVAL : Q := 1.
Definition MAX_CONCURRENT_PROCESSES : nat := 5.
Definition MIN_FILE_AGE : Q := 5.

(** [x < y] on rationals as a boolean, for the two clock tests. *)
Definition Qltb (x y : Q) : bool := negb (Qle_bool y x).

(** ** Python exceptions *)

(** The classes a worker thread can see raised: [Exception] and the classes
    below it that [os.path], [subprocess.run] and the interpreter raise.
    [KeyboardInterrupt] is delivered to the main thread only and nothing in
    the handler calls [sys.exit], so the two classes that sit beside
    [Exception] under [BaseException] never reach a worker. *)
Inductive exn_class :=
| Exception_
| OSError_ | FileNotFoundError_ | PermissionError_
| SubprocessError_ | CalledProcessError_ | TimeoutExpired_
| ValueError_ | TypeError_ | MemoryError_.

(** The direct base class, [None] at the root of the part modelled. *)
Definition base_class (c : exn_class) : option exn_class :=
  match c with
  | Exception_ => None
  | OSError_ | SubprocessError_ | ValueError_ | TypeError_ | MemoryError_ =>
      Some Exception_
  | FileNotFoundError_ | PermissionError_ => Some OSError_
  | CalledProcessError_ | TimeoutExpired_ => Some SubprocessError_
  end.

Definition exn_class_eqb (c d : exn_class) : bool :=
  match c, d with
  | Exception_, Exception_
  | OSError_, OSError_ | FileNotFoundError_, FileNotFoundError_
  | PermissionError_, PermissionError_ | SubprocessError_, SubprocessError_
  | CalledProcessError_, CalledProcessError_
  | TimeoutExpired_, TimeoutExpired_ | ValueError_, ValueError_
  | TypeError_, TypeError_ | MemoryError_, MemoryError_ => true
  | _, _ => false
  end.

(** [issubclass c d]: walk up from [c]; three steps reach the root. *)
Fixpoint issubclass_fuel (n : nat) (c d : exn_class) : bool :=
  exn_class_eqb c d ||
  match n with
  | O => false
  | S n' => match base_class c with
            | Some b => issubclass_fuel n' b d
            | None => false
            end
  end.

Definition issubclass (c d : exn_class) : bool := issubclass_fuel 3 c d.

(** A raised exception: its class, [str(e)] and, for [CalledProcessError],
    the captured [e.stderr]. *)
Record PyExc := {
  exc_class : exn_class;
  exc_str : string;
  exc_stderr : string
}.

Definition isinstance (e : PyExc) (d : exn_class) : bool :=
  issubclass (exc_class e) d.

(** The result of a call that may raise. *)
Inductive io (A : Type) :=
| Ok (a : A)
| Err (e : PyExc).
Arguments Ok {A} a.
Arguments Err {A} e.

(** ** Logging *)

Inductive level := DEBUG | INFO | WARNING | ERROR.

Inductive log_msg :=
| FileTooNew (file_path : string)
| ErrorAccessing (file_path : string) (e : PyExc)
| TimeoutWaiting (file_path : string)
| StartingProcessing (file_path : string)
| CompletedProcessing (file_path : string)
| ScriptOutput (stdout : string)
| ScriptFailed (file_path : string) (stderr : string)
| ScriptTimeout (file_path : string)
| UnexpectedError (file_path : string) (str_e : string)
| DetectedNewFile (file_path : string)
| AlreadyProcessing (file_path : string)
| FailedToStabilize (file_path : string)
| ScriptNotFound (script_path : string)
| WatchingFolder (folder : string).

Definition severity (m : log_msg) : level :=
  match m with
  | FileTooNew _ | ScriptOutput _ => DEBUG
  | StartingProcessing _ | CompletedProcessing _ | DetectedNewFile _
  | AlreadyProcessing _ | WatchingFolder _ => INFO
  | ErrorAccessing _ _ | FailedToStabilize _ => WARNING
  | TimeoutWaiting _ | ScriptFailed _ _ | ScriptTimeout _
  | UnexpectedError _ _ | ScriptNotFound _ => ERROR
  end.

(** The text of each message, as the f-strings build it. *)
Definition render (m : log_msg) : string :=
  match m with
  | FileTooNew p => "File too new, waiting: " +:+ p
  | ErrorAccessing p e => "Error accessing " +:+ p +:+ ": " +:+ exc_str e
  | TimeoutWaiting p => "Timeout waiting for " +:+ p +:+ " to stabilize"
  | StartingProcessing p => "Starting processing: " +:+ p
  | CompletedProcessing p => "Completed processing: " +:+ p
  | ScriptOutput out => "Script output: " +:+ out
  | ScriptFailed p err => "Script failed for " +:+ p +:+ ". Error: " +:+ err
  | ScriptTimeout p => "Script timeout for " +:+ p
  | UnexpectedError p s => "Unexpected error processing " +:+ p +:+ ": " +:+ s
  | DetectedNewFile p => "Detected new file: " +:+ p
  | AlreadyProcessing p => "Already processing " +:+ p +:+ ", skipping"
  | FailedToStabilize p => "Failed to stabilize: " +:+ p
  | ScriptNotFound s => "Script not found: " +:+ s
  | WatchingFolder f => "Watching folder: " +:+ f +:+ " (recursive)"
  end.

(** ** The stability detector: [wait_for_stable_file] (lines 34-69) *)

Module Detector.

(** What one trip through the loop observes.  [t_gate] is the clock read at
    the age test (line 45).  [getsize] is the result of [os.path.getsize]
    (line 51) and [t_check] the clock read at the timeout test (line 63);
    these two are consulted only when the age test lets the iteration
    through. *)
Record Poll := {
  t_gate : Q;
  getsize : io N;
  t_check : Q
}.

(** The loop variables (lines 36-38). *)
Record StabilityState := {
  last_size : Z;
  unchanged_count : nat;
  wait_interval : Q
}.

Definition initial_state : StabilityState :=
  {| last_size := -1; unchanged_count := 0;
     wait_interval := INITIAL_CHECK_INTERVAL |}.

(** What the detector does to the outside world, in order. *)
Inductive effect :=
| GetSize (result : io N)
| Sleep (seconds : Q)
| Log (m : log_msg).

(** How a call ends. *)
Inductive verdict :=
| Return (stable : bool)
| Raise (e : PyExc).

(** How one iteration ends. *)
Inductive flow :=
| Continue (st : StabilityState)
| Stop (v : verdict).

Section Run.

Variable file_path : string.
(** [file_creation_time] (line 40) and [start_time] (line 39). *)
Variable file_creation_time : Q.
Variable start_time : Q.

(** Line 45. *)
Definition too_new (p : Poll) : bool :=
  Qltb (t_gate p - file_creation_time) MIN_FILE_AGE.

(** Line 63. *)
Definition timed_out (p : Poll) : bool :=
  Qltb MAX_WAIT_TIME (t_check p - start_time).

(** Lines 52-58: a size was read. *)
Definition observe_size (st : StabilityState) (current_size : N)
  : StabilityState :=
  if Z.eqb (Z.of_N current_size) (last_size st) then
    {| last_size := Z.of_N current_size;
       unchanged_count := S (unchanged_count st);
       wait_interval :=
         Qmin (wait_interval st * (3 # 2))
              (inject_Z (Z.of_nat STABILITY_THRESHOLD)) |}
  else
    {| last_size := Z.of_N current_size;
       unchanged_count := 0;
       wait_interval := INITIAL_CHECK_INTERVAL |}.

(** Lines 47 and 61: [unchanged_count = 0], nothing else touched. *)
Definition reset_count (st : StabilityState) : StabilityState :=
  {| last_size := last_size st;
     unchanged_count := 0;
     wait_interval := wait_interval st |}.

(** Lines 63-67, reached when the [try] block neither continued nor let an
    exception out. *)
Definition check_and_sleep (st : StabilityState) (p : Poll)
  : flow * list effect :=
  if timed_out p then
    (Stop (Return false), [Log (TimeoutWaiting file_path)])
  else
    (Continue st, [Sleep (wait_interval st)]).

(** One trip through the loop body (lines 43-67). *)
Definition iteration (st : StabilityState) (p : Poll) : flow * list effect :=
  if too_new p then
    (Continue (reset_count st),
     [Log (FileTooNew file_path); Sleep (wait_interval st)])
  else
    match getsize p with
    | Ok current_size =>
        let '(f, effs) := check_and_sleep (observe_size st current_size) p in
        (f, GetSize (getsize p) :: effs)
    | Err e =>
        if isinstance e OSError_ then
          let '(f, effs) := check_and_sleep (reset_count st) p in
          (f, GetSize (getsize p) :: Log (ErrorAccessing file_path e) :: effs)
        else
          (Stop (Raise e), [GetSize (getsize p)])
    end.

(** The [while] loop (lines 42-69) on the observations of its iterations.
    [None]: the observations ran out before the loop came to an end. *)
Fixpoint wait_loop (st : StabilityState) (polls : list Poll)
  : option (verdict * list effect) :=
  if (STABILITY_THRESHOLD <=? unchanged_count st)%nat then
    Some (Return true, [])
  else
    match polls with
    | [] => None
    | p :: rest =>
        match iteration st p with
        | (Stop v, effs) => Some (v, effs)
        | (Continue st', effs) =>
            match wait_loop st' rest with
            | Some (v, tr) => Some (v, effs ++ tr)
            | None => None
            end
        end
    end.

(** The loop variables once a run of observations has been consumed with
    the loop still going; [None] when the loop came to an end on the way. *)
Fixpoint running (st : StabilityState) (polls : list Poll)
  : option StabilityState :=
  match polls with
  | [] => Some st
  | p :: rest =>
      if (STABILITY_THRESHOLD <=? unchanged_count st)%nat then None
      else match iteration st p with
           | (Continue st', _) => running st' rest
           | (Stop _, _) => None
           end
  end.

End Run.

(** [wait_for_stable_file]: [getctime] is the result of
    [os.path.getctime(file_path)] on line 40, which is outside the [try]. *)
Definition wait_for_stable_file (file_path : string) (start_time : Q)
    (getctime : io Q) (polls : list Poll) : option (verdict * list effect) :=
  match getctime with
  | Err e => Some (Raise e, [])
  | Ok file_creation_time =>
      wait_loop file_path file_creation_time start_time initial_state polls
  end.

(** The intervals the loop can compute: 1, 1.5, 2.25, 3.375, 5.0625,
    7.59375 and the cap. *)
Definition interval_values : list Q :=
  [1; 3 # 2; 9 # 4; 27 # 8; 81 # 16; 243 # 32; 10]%Q.

(** The three messages the detector logs. *)
Definition detector_msg (m : log_msg) : bool :=
  match m with
  | FileTooNew _ | ErrorAccessing _ _ | TimeoutWaiting _ => true
  | _ => false
  end.

(** The size reads of a run that came back with a size. *)
Fixpoint successful_reads (tr : list effect) : nat :=
  match tr with
  | [] => 0
  | GetSize (Ok _) :: rest => S (successful_reads rest)
  | _ :: rest => successful_reads rest
  end.

(** The sleeps of a run, in order. *)
Fixpoint sleeps (tr : list effect) : list Q :=
  match tr with
  | [] => []
  | Sleep seconds :: rest => seconds :: sleeps rest
  | _ :: rest => sleeps rest
  end.

End Detector.

(** ** The handler: [RobustFolderWatchHandler] (lines 26-124) *)

Module Handler.

(** What the child process of a dispatch does. *)
Inductive proc_outcome :=
| Exited (returncode : Z) (stdout stderr : string)
| Hung
| SpawnFailed (e : PyExc).

(** [subprocess.run(cmd, check=True, timeout=3600, ...)] (lines 80-87):
    the captured standard output when the exit code is 0, an exception
    otherwise. *)
Definition subprocess_run (o : proc_outcome) : io string :=
  match o with
  | Exited returncode stdout stderr =>
      if returncode =? 0 then Ok stdout
      else Err {| exc_class := CalledProcessError_;
                  exc_str := "Command returned non-zero exit status";
                  exc_stderr := stderr |}
  | Hung => Err {| exc_class := TimeoutExpired_;
                   exc_str := "Command timed out after 3600 seconds";
                   exc_stderr := "" |}
  | SpawnFailed e => Err e
  end.

(** Where the thread started by [on_created] stands. *)
Inductive phase :=
| Stabilizing
| AwaitingSlot
| Dispatching
| Unwinding (pending : option PyExc)
| Finished
| Crashed (e : PyExc).

Record worker := {
  w_path : string;
  w_phase : phase
}.

(** The attributes set by [__init__] (lines 27-32), the threads started so
    far and the log written so far (latest entry last).  [self.lock] has no
    field: a block run under it is one step. *)
Record Handler := {
  script_path : string;
  is_python : bool;
  processing_files : gset string;
  semaphore : nat;
  workers : list worker;
  log : list log_msg
}.

Definition init (script_path : string) (is_python : bool) : Handler :=
  {| script_path := script_path; is_python := is_python;
     processing_files := ∅; semaphore := MAX_CONCURRENT_PROCESSES;
     workers := []; log := [] |}.

Definition with_registry (h : Handler) (s : gset string) : Handler :=
  {| script_path := script_path h; is_python := is_python h;
     processing_files := s; semaphore := semaphore h;
     workers := workers h; log := log h |}.

Definition with_semaphore (h : Handler) (n : nat) : Handler :=
  {| script_path := script_path h; is_python := is_python h;
     processing_files := processing_files h; semaphore := n;
     workers := workers h; log := log h |}.

Definition with_workers (h : Handler) (ws : list worker) : Handler :=
  {| script_path := script_path h; is_python := is_python h;
     processing_files := processing_files h; semaphore := semaphore h;
     workers := ws; log := log h |}.

Definition logging (h : Handler) (ms : list log_msg) : Handler :=
  {| script_path := script_path h; is_python := is_python h;
     processing_files := processing_files h; semaphore := semaphore h;
     workers := workers h; log := log h ++ ms |}.

Definition set_phase (h : Handler) (i : nat) (w : worker) (ph : phase)
  : Handler :=
  with_workers h (<[i := {| w_path := w_path w; w_phase := ph |}]> (workers h)).

(** [self.processing_files.discard(file_path)] under the lock. *)
Definition discard (h : Handler) (file_path : string) : Handler :=
  with_registry h (processing_files h ∖ {[file_path]}).

(** Lines 77-78: the command whose outcome [ProcessEnds] carries. *)
Definition cmd (h : Handler) (file_path : string) : list string :=
  if is_python h then ["python"; script_path h; file_path]
  else ["powershell"; "-File"; script_path h; file_path].

(** [on_created] (lines 103-124). *)
Definition on_created (h : Handler) (src_path : string) (is_directory : bool)
  : Handler :=
  if is_directory then h
  else
    let h := logging h [DetectedNewFile src_path] in
    if decide (src_path ∈ processing_files h) then
      logging h [AlreadyProcessing src_path]
    else
      with_workers
        (with_registry h (processing_files h ∪ {[src_path]}))
        (workers h ++ [{| w_path := src_path; w_phase := Stabilizing |}]).

Definition logged (effs : list Detector.effect) : list log_msg :=
  omap (fun e => match e with Detector.Log m => Some m | _ => None end) effs.

(** The body of [process] up to the point where it blocks on the semaphore
    or ends (lines 116-122 and 34-69). *)
Definition stability_checked (h : Handler) (i : nat) (w : worker)
    (v : Detector.verdict) (effs : list Detector.effect) : Handler :=
  let h := logging h (logged effs) in
  match v with
  | Detector.Return true => set_phase h i w AwaitingSlot
  | Detector.Return false =>
      discard
        (set_phase (logging h [FailedToStabilize (w_path w)]) i w Finished)
        (w_path w)
  | Detector.Raise e => set_phase h i w (Crashed e)
  end.

(** Leaving the [with self.semaphore] block (lines 80-91): the slot goes
    back, on the normal way out after the two log calls. *)
Definition leave_with (h : Handler) (i : nat) (w : worker) (o : proc_outcome)
  : Handler :=
  match subprocess_run o with
  | Ok stdout =>
      let h := logging h (CompletedProcessing (w_path w) ::
                          if String.eqb stdout "" then []
                          else [ScriptOutput stdout]) in
      set_phase (with_semaphore h (S (semaphore h))) i w (Unwinding None)
  | Err e =>
      set_phase (with_semaphore h (S (semaphore h))) i w (Unwinding (Some e))
  end.

(** The [except] clauses of [run_script] (lines 93-98): what is logged and
    what, if anything, is still being raised afterwards. *)
Definition except_clauses (file_path : string) (e : PyExc)
  : list log_msg * option PyExc :=
  if isinstance e CalledProcessError_ then
    ([ScriptFailed file_path (exc_stderr e)], None)
  else if isinstance e TimeoutExpired_ then
    ([ScriptTimeout file_path], None)
  else if isinstance e Exception_ then
    ([UnexpectedError file_path (exc_str e)], None)
  else ([], Some e).

(** The [except] clauses and the [finally] block (lines 93-101). *)
Definition unwind (h : Handler) (i : nat) (w : worker)
    (pending : option PyExc) : Handler :=
  let '(ms, propagated) :=
    match pending with
    | None => ([], None)
    | Some e => except_clauses (w_path w) e
    end in
  let h := discard (logging h ms) (w_path w) in
  set_phase h i w (match propagated with
                   | None => Finished
                   | Some e => Crashed e
                   end).

(** What can happen next to a handler: the observer calls [on_created], or
    thread [i] takes its next step.  A call of [wait_for_stable_file]
    touches nothing the threads share, so it is one step,
    [StabilityChecked], which carries what the call observed.  [Acquire] is
    entering [with self.semaphore], [ProcessEnds] leaving it with what the
    child process did, [Cleanup] the [except] and [finally] clauses. *)
Inductive event :=
| OnCreated (src_path : string) (is_directory : bool)
| StabilityChecked (i : nat) (start_time : Q) (getctime : io Q)
                   (polls : list Detector.Poll)
| Acquire (i : nat)
| ProcessEnds (i : nat) (o : proc_outcome)
| Cleanup (i : nat).

(** One step; [None] when the event cannot happen in this state (no such
    thread, the thread is elsewhere, the observations do not cover a whole
    run of the detector, or no slot is free). *)
Definition step (h : Handler) (ev : event) : option Handler :=
  match ev with
  | OnCreated src_path is_directory => Some (on_created h src_path is_directory)
  | StabilityChecked i start_time getctime polls =>
      match workers h !! i with
      | Some w =>
          match w_phase w,
                Detector.wait_for_stable_file
                  (w_path w) start_time getctime polls
          with
          | Stabilizing, Some (v, effs) => Some (stability_checked h i w v effs)
          | _, _ => None
          end
      | None => None
      end
  | Acquire i =>
      match workers h !! i with
      | Some w =>
          match w_phase w, semaphore h with
          | AwaitingSlot, S n =>
              Some (logging (set_phase (with_semaphore h n) i w Dispatching)
                            [StartingProcessing (w_path w)])
          | _, _ => None
          end
      | None => None
      end
  | ProcessEnds i o =>
      match workers h !! i with
      | Some w =>
          match w_phase w with
          | Dispatching => Some (leave_with h i w o)
          | _ => None
          end
      | None => None
      end
  | Cleanup i =>
      match workers h !! i with
      | Some w =>
          match w_phase w with
          | Unwinding pending => Some (unwind h i w pending)
          | _ => None
          end
      | None => None
      end
  end.

Fixpoint run (h : Handler) (evs : list event) : option Handler :=
  match evs with
  | [] => Some h
  | ev :: rest =>
      match step h ev with
      | Some h' => run h' rest
      | None => None
      end
  end.

(** The states a handler can be in. *)
Definition reachable (h : Handler) : Prop :=
  ∃ script_path is_python evs, run (init script_path is_python) evs = Some h.

(** A thread that has not yet reached the end of [process]. *)
Definition in_flight (ph : phase) : bool :=
  match ph with
  | Stabilizing | AwaitingSlot | Dispatching | Unwinding _ => true
  | Finished | Crashed _ => false
  end.

Definition is_dispatching (ph : phase) : bool :=
  match ph with
  | Dispatching => true
  | _ => false
  end.

Fixpoint count_if {A : Type} (f : A → bool) (l : list A) : nat :=
  match l with
  | [] => 0
  | x :: rest => (if f x then 1 else 0) + count_if f rest
  end.

(** The threads inside [subprocess.run]. *)
Definition dispatching (h : Handler) : nat :=
  count_if (λ w, is_dispatching (w_phase w)) (workers h).

Definition on_path (file_path : string) (w : worker) : bool :=
  bool_decide (w_path w = file_path).

(** The threads started for [file_path]. *)
Definition workers_on (file_path : string) (h : Handler) : nat :=
  count_if (on_path file_path) (workers h).

(** The threads of [file_path] between acceptance and the end of [process]. *)
Definition in_flight_on (file_path : string) (h : Handler) : nat :=
  count_if (λ w, on_path file_path w && in_flight (w_phase w)) (workers h).

(** The threads of [file_path] that have not yet got a slot. *)
Definition pending_on (file_path : string) (h : Handler) : nat :=
  count_if (λ w, on_path file_path w &&
                 match w_phase w with
                 | Stabilizing | AwaitingSlot => true
                 | _ => false
                 end) (workers h).

(** Log lines about [file_path]: creation events seen, creation events
    skipped, dispatches started. *)
Definition detected (file_path : string) (h : Handler) : nat :=
  count_if (λ m, match m with
                 | DetectedNewFile p => bool_decide (p = file_path)
                 | _ => false
                 end) (log h).

Definition skipped (file_path : string) (h : Handler) : nat :=
  count_if (λ m, match m with
                 | AlreadyProcessing p => bool_decide (p = file_path)
                 | _ => false
                 end) (log h).

Definition dispatch_starts (file_path : string) (h : Handler) : nat :=
  count_if (λ m, match m with
                 | StartingProcessing p => bool_decide (p = file_path)
                 | _ => false
                 end) (log h).


(** The dispatches started for [file_path] among some log lines. *)
Definition starts_in (file_path : string) (ms : list log_msg) : nat :=
  count_if (λ m, match m with
                 | StartingProcessing p => bool_decide (p = file_path)
                 | _ => false
                 end) ms.

(** The four log lines that report how a dispatch ended. *)
Definition is_outcome_report (m : log_msg) : bool :=
  match m with
  | CompletedProcessing _ | ScriptFailed _ _ | ScriptTimeout _
  | UnexpectedError _ _ => true
  | _ => false
  end.

(** What holds of a handler at all times: the slots handed out and the
    slots left add up to the capacity; a path has at most one thread in
    flight, and only while it is in the registry; every creation event that
    was not skipped started one thread; and a thread starts at most one
    dispatch. *)
Record invariant (h : Handler) : Prop := {
  inv_slots :
    (semaphore h + dispatching h = MAX_CONCURRENT_PROCESSES)%nat;
  inv_dedup : ∀ p,
    (in_flight_on p h ≤ if decide (p ∈ processing_files h) then 1 else 0)%nat;
  inv_spawn : ∀ p, (workers_on p h + skipped p h = detected p h)%nat;
  inv_starts : ∀ p,
    (dispatch_starts p h + pending_on p h ≤ workers_on p h)%nat
}.


End Handler.

(** ** The observer: [start_folder_watch] (lines 126-134) *)

Module Watcher.

(** One [observer.schedule(handler, folder, recursive=True)]. *)
Record watch := {
  folder : string;
  handler : Handler.Handler
}.

(** The loop over [folder_mapping.items()]: a handler of its own for every
    folder whose script exists.  [path_exists] is [os.path.exists]. *)
Fixpoint schedule_all (path_exists : string -> bool)
    (folder_mapping : list (string * (string * bool)))
  : list watch * list log_msg :=
  match folder_mapping with
  | [] => ([], [])
  | (folder, (script_path, is_python)) :: rest =>
      let '(ws, ms) := schedule_all path_exists rest in
      if path_exists script_path then
        ({| folder := folder;
            handler := Handler.init script_path is_python |} :: ws,
         WatchingFolder folder :: ms)
      else (ws, ScriptNotFound script_path :: ms)
  end.

Definition start_folder_watch (path_exists : string -> bool)
    (folder_mapping : list (string * (string * bool))) : list watch :=
  fst (schedule_all path_exists folder_mapping).

(** The next thing that happens in the process: something happens to the
    handler of watch [k]. *)
Definition step (ws : list watch) (k : nat) (ev : Handler.event)
  : option (list watch) :=
  match ws !! k with
  | Some w =>
      match Handler.step (handler w) ev with
      | Some h' => Some (<[k := {| folder := folder w; handler := h' |}]> ws)
      | None => None
      end
  | None => None
  end.

Fixpoint run (ws : list watch) (evs : list (nat * Handler.event))
  : option (list watch) :=
  match evs with
  | [] => Some ws
  | (k, ev) :: rest =>
      match step ws k ev with
      | Some ws' => run ws' rest
      | None => None
      end
  end.

(** The dispatches in progress in the whole process. *)
Fixpoint dispatching (ws : list watch) : nat :=
  match ws with
  | [] => 0
  | w :: rest => Handler.dispatching (handler w) + dispatching rest
  end.

End Watcher.

(** ** Runs used as examples *)

Module Scenario.

Import Detector.

(** A poll at the whole second [t] that reads [s] bytes. *)
Definition poll_at (t : Z) (s : N) : Poll :=
  {| t_gate := inject_Z t; getsize := Ok s; t_check := inject_Z t |}.

(** A file of 100 bytes, created at second 0, polled once a second. *)
Definition every_second (k : nat) : Poll := poll_at (Z.of_nat k) 100.

(** The first five polls of a file created at second 0. *)
Definition too_new_polls : list Poll := map every_second (seq 0 5).

(** Ten reads of 100 bytes in a row, each later than the one before by at
    least the interval slept. *)
Definition ten_reads_of_100 : list Poll :=
  map (λ t, poll_at t 100) [5; 6; 8; 11; 15; 21; 29; 39; 49; 59].

(** The writer resumes: a larger size every second, seconds 69 to 601. *)
Definition growing : list Poll :=
  map (λ k, poll_at (69 + Z.of_nat k) (200 + N.of_nat k)) (seq 0 533).

(** Polls once a second, seconds 0 to 700. *)
Definition polls_to_700 : list Poll := map every_second (seq 0 701).

(** The read at second 5 and ten more reads of the same size. *)
Definition first_read : list Poll := [poll_at 5 100].

Definition ten_more_reads : list Poll :=
  map (λ t, poll_at t 100) [6; 8; 11; 15; 21; 29; 39; 49; 59; 69].

(** The loop variables in the middle of a streak. *)
Definition mid_streak : StabilityState :=
  {| last_size := 100; unchanged_count := 3; wait_interval := 27 # 8 |}.

Definition file_not_found : PyExc :=
  {| exc_class := FileNotFoundError_;
     exc_str := "[Errno 2] No such file or directory";
     exc_stderr := "" |}.

(** A poll at second 50 that finds the file gone. *)
Definition unreadable_poll : Poll :=
  {| t_gate := 50; getsize := Err file_not_found; t_check := 50 |}.

(** Eleven reads of 100 bytes: enough for the stable verdict. *)
Definition stable_polls : list Poll := first_read ++ ten_more_reads.

(** The [folder_mapping] of the script (lines 149-154), and one with two
    folders. *)
Definition one_folder : list (string * (string * bool)) :=
  [("D:\STANZA_SHARE\STANZA_TRANSIT\AUTOMATION\SOURCE",
    ("D:\STANZA_SHARE\POSTMAMS\scripts\STANZA-AUTOMATION\stanza-automation.py",
     true))].

Definition two_folders : list (string * (string * bool)) :=
  [("D:\SOURCE_A", ("caption.py", true));
   ("D:\SOURCE_B", ("archive.ps1", false))].

(** A file arrives under watch [k], is found stable by thread [i] and, if
    a slot is free, gets it. *)
Definition arrive (k i : nat) (file_path : string)
  : list (nat * Handler.event) :=
  [(k, Handler.OnCreated file_path false);
   (k, Handler.StabilityChecked i 0 (Ok 0%Q) stable_polls);
   (k, Handler.Acquire i)].

(** Three files in each of two folders. *)
Definition burst : list (nat * Handler.event) :=
  arrive 0 0 "D:\SOURCE_A\a1.mxf" ++ arrive 0 1 "D:\SOURCE_A\a2.mxf"
  ++ arrive 0 2 "D:\SOURCE_A\a3.mxf" ++ arrive 1 0 "D:\SOURCE_B\b1.mxf"
  ++ arrive 1 1 "D:\SOURCE_B\b2.mxf" ++ arrive 1 2 "D:\SOURCE_B\b3.mxf".

(** Six files in one folder; the sixth finds no slot free and waits. *)
Definition burst_of_six : list (nat * Handler.event) :=
  arrive 0 0 "f1.mxf" ++ arrive 0 1 "f2.mxf" ++ arrive 0 2 "f3.mxf"
  ++ arrive 0 3 "f4.mxf" ++ arrive 0 4 "f5.mxf"
  ++ [(0%nat, Handler.OnCreated "f6.mxf" false);
      (0%nat, Handler.StabilityChecked 5 0 (Ok 0%Q) stable_polls)].

(** A file created at second 0 that grows by 1000 bytes a second for three
    seconds and then stays at 3000 bytes. *)
Definition grows_then_stops : list Poll :=
  map (λ k, poll_at (Z.of_nat k) (N.of_nat (Nat.min k 3) * 1000)) (seq 0 5)
  ++ map (λ t, poll_at t 3000) [5; 6; 8; 11; 15; 21; 29; 39; 49; 59; 69].

(** Eight files are found stable in one folder; the threads of the first
    five ask for a slot. *)
Definition found_stable (i : nat) (file_path : string)
  : list Handler.event :=
  [Handler.OnCreated file_path false;
   Handler.StabilityChecked i 0 (Ok 0%Q) stable_polls].

Definition eight_files : list Handler.event :=
  found_stable 0 "f1.mxf" ++ found_stable 1 "f2.mxf"
  ++ found_stable 2 "f3.mxf" ++ found_stable 3 "f4.mxf"
  ++ found_stable 4 "f5.mxf" ++ found_stable 5 "f6.mxf"
  ++ found_stable 6 "f7.mxf" ++ found_stable 7 "f8.mxf"
  ++ [Handler.Acquire 0; Handler.Acquire 1; Handler.Acquire 2;
      Handler.Acquire 3; Handler.Acquire 4].

(** Creation events for a file keep arriving while its thread is in
    flight. *)
Definition repeated_events : list Handler.event :=
  [Handler.OnCreated "clip.mxf" false;
   Handler.StabilityChecked 0 0 (Ok 0%Q) stable_polls;
   Handler.OnCreated "clip.mxf" false;
   Handler.Acquire 0;
   Handler.OnCreated "clip.mxf" false].

End Scenario.

(** ** What the verdicts of the detector rest on *)

Module Evidence.

(** A poll of a file created at [birth], in a call started at
    [start_time], that passes the age gate, reads [s] bytes and is within
    the time limit. *)
Definition settled (birth start_time : Q) (s : N) (q : Detector.Poll)
  : Prop :=
  (MIN_FILE_AGE <= Detector.t_gate q - birth)%Q
  ∧ Detector.getsize q = Ok s
  ∧ (Detector.t_check q - start_time <= MAX_WAIT_TIME)%Q.

End Evidence.

(** ** The life of a thread *)

Module Threads.

Import Detector Handler.

(** How far a thread has come. *)
Definition phase_rank (ph : phase) : nat :=
  match ph with
  | Stabilizing => 0
  | AwaitingSlot => 1
  | Dispatching => 2
  | Unwinding _ => 3
  | Finished | Crashed _ => 4
  end.

(** A thread that has returned from [process]. *)
Definition returned (ph : phase) : bool :=
  match ph with
  | Finished => true
  | _ => false
  end.

(** The threads of [file_path] that have not returned from [process]. *)
Definition unreturned (file_path : string) (h : Handler) : nat :=
  count_if (λ w, on_path file_path w && negb (returned (w_phase w)))
           (workers h).

(** The outcome reports about [file_path] among some log lines. *)
Definition reports_in (file_path : string) (ms : list log_msg) : nat :=
  count_if (λ m, match m with
                 | CompletedProcessing p | ScriptFailed p _
                 | ScriptTimeout p | UnexpectedError p _ =>
                     bool_decide (p = file_path)
                 | _ => false
                 end) ms.

Definition reports (file_path : string) (h : Handler) : nat :=
  reports_in file_path (log h).

(** A thread whose dispatch has started and has not been reported yet. *)
Definition report_due (ph : phase) : bool :=
  match ph with
  | Dispatching | Unwinding (Some _) => true
  | _ => false
  end.

Definition unreported (file_path : string) (h : Handler) : nat :=
  count_if (λ w, on_path file_path w && report_due (w_phase w)) (workers h).

(** The path an event is about. *)
Definition subject (h : Handler) (ev : event) : option string :=
  match ev with
  | OnCreated src_path _ => Some src_path
  | StabilityChecked i _ _ _ | Acquire i | ProcessEnds i _ | Cleanup i =>
      w_path <$> workers h !! i
  end.

(** The thread an event is a step of. *)
Definition thread_of (ev : event) : option nat :=
  match ev with
  | OnCreated _ _ => None
  | StabilityChecked i _ _ _ | Acquire i | ProcessEnds i _ | Cleanup i =>
      Some i
  end.

(** The moves a thread can make.  The event and the phase the thread is in
    fix the move: the phase the thread goes to, the lines it logs, whether
    it takes its path out of the registry, and the slots it gives back.
    The first three are the three ways out of [wait_for_stable_file] on
    what the event observed (lines 116-122); then the entry into and the
    two ways out of [with self.semaphore] (lines 79-91); then the way out
    of [process] for each of the clauses of lines 93-101. *)
Inductive thread_move (file_path : string)
  : event → phase → phase → list log_msg → bool → Z → Prop :=
| move_stable i start_time getctime polls effs :
    wait_for_stable_file file_path start_time getctime polls
    = Some (Return true, effs) →
    thread_move file_path (StabilityChecked i start_time getctime polls)
      Stabilizing AwaitingSlot (logged effs) false 0
| move_gave_up i start_time getctime polls effs :
    wait_for_stable_file file_path start_time getctime polls
    = Some (Return false, effs) →
    thread_move file_path (StabilityChecked i start_time getctime polls)
      Stabilizing Finished
      (logged effs ++ [FailedToStabilize file_path]) true 0
| move_died i start_time getctime polls effs e :
    wait_for_stable_file file_path start_time getctime polls
    = Some (Raise e, effs) →
    thread_move file_path (StabilityChecked i start_time getctime polls)
      Stabilizing (Crashed e) (logged effs) false 0
| move_got_slot i :
    thread_move file_path (Acquire i) AwaitingSlot Dispatching
      [StartingProcessing file_path] false (-1)
| move_completed i o stdout :
    subprocess_run o = Ok stdout →
    thread_move file_path (ProcessEnds i o) Dispatching (Unwinding None)
      (CompletedProcessing file_path ::
       if String.eqb stdout "" then [] else [ScriptOutput stdout]) false 1
| move_raised i o e :
    subprocess_run o = Err e →
    thread_move file_path (ProcessEnds i o) Dispatching (Unwinding (Some e))
      [] false 1
| move_returned i :
    thread_move file_path (Cleanup i) (Unwinding None) Finished [] true 0
| move_script_failed i e :
    isinstance e CalledProcessError_ = true →
    thread_move file_path (Cleanup i) (Unwinding (Some e)) Finished
      [ScriptFailed file_path (exc_stderr e)] true 0
| move_script_timeout i e :
    isinstance e CalledProcessError_ = false →
    isinstance e TimeoutExpired_ = true →
    thread_move file_path (Cleanup i) (Unwinding (Some e)) Finished
      [ScriptTimeout file_path] true 0
| move_unexpected i e :
    isinstance e CalledProcessError_ = false →
    isinstance e TimeoutExpired_ = false →
    thread_move file_path (Cleanup i) (Unwinding (Some e)) Finished
      [UnexpectedError file_path (exc_str e)] true 0.

End Threads.

(** ** Watches that overlap *)

Module Overlap.

Import Handler Watcher.








End Overlap.

(** ** The dispatched script: [stanza-automation.py] *)

Module Automation.

(** Lines 7-27. *)
Definition USERNAME : string := "postmams".
Definition PASSWORD : string := "gma7mams".
Definition MODE : string := "CEA_608".
Definition BASE_URL : string := "http://localhost:7000/api".
Definition LANGUAGE : string := "tl".
Definition MODEL : string := "LargeV2".
Definition EXPORT_FORMAT : string := "scc".
Definition FRAMERATE : string := "29.97".
Definition DROP_FRAME : string := "true".

(** Lines 40-49, in the order of the dict. *)
Definition LOCATION_ALIAS_MAPPING : list (string * (string * string)) :=
  [("pmc_stanza_tst",
    ("PMC_STANZA_TST", "4718bd34-110a-4997-a107-35a42efc5dc3"));
   ("stanza_transit",
    ("STANZA_TRANSIT", "adec4715-c87c-4d4c-9e32-da86b4d4d7a9"))].

(** [str.lower] for text in ASCII: the letters A to Z change. *)
Definition lower_ascii (c : ascii) : ascii :=
  let n := nat_of_ascii c in
  if (65 <=? n)%nat && (n <=? 90)%nat then ascii_of_nat (n + 32) else c.

Fixpoint lower (s : string) : string :=
  match s with
  | EmptyString => EmptyString
  | String c rest => String (lower_ascii c) (lower rest)
  end.

(** [key in text] for strings. *)
Fixpoint contains (key text : string) : bool :=
  String.prefix key text ||
  match text with
  | EmptyString => false
  | String _ rest => contains key rest
  end.

(** The loop of lines 213-217: the first key of the mapping found in the
    lowered path. *)
Fixpoint first_key (mapping : list (string * (string * string)))
    (lowered : string) : option (string * (string * string)) :=
  match mapping with
  | [] => None
  | (key, v) :: rest =>
      if contains key lowered then Some (key, v) else first_key rest lowered
  end.

Definition location_of (file : string) : option (string * (string * string)) :=
  first_key LOCATION_ALIAS_MAPPING (lower file).

(** What an operation on a Python object comes to: a value, or an
    exception. *)
Inductive attempt (exc A : Type) :=
| Got (a : A)
| Threw (e : exc).
Arguments Got {exc A} a.
Arguments Threw {exc A} e.

(** What the script needs of the Python objects that [response.json()]
    hands it, and of the exceptions that the operations on them raise. *)
Class Python (obj exc : Type) := {
  py_none : obj;
  py_str : string → obj;
  py_int : Z → obj;
  (** [bool(x)], as [if not x] takes it *)
  truthy : obj → bool;
  (** [x == y] *)
  py_eq : obj → obj → bool;
  (** [x[k]] *)
  getitem : obj → obj → attempt exc obj;
  (** [x.get(k, d)] *)
  get_or : obj → string → obj → attempt exc obj;
  (** the items that [for item in x] goes through *)
  iterate : obj → attempt exc (list obj);
  (** [str(x)], as f-strings and [str.format] take it *)
  format : obj → string;
  (** [str(e)] *)
  exc_text : exc → string;
  (** [not None] is [True] *)
  truthy_none : truthy py_none = false
}.

(** What [response.json()] does with the body. *)
Inductive body (obj exc : Type) :=
| Json (j : obj)
| NotJson (request_exception : bool) (e : exc).
Arguments Json {obj exc} j.
Arguments NotJson {obj exc} request_exception e.

(** What comes back from [requests.post] or [requests.get] followed by
    [raise_for_status]: a response whose status [raise_for_status] lets
    through (below 400), an exception below
    [requests.exceptions.RequestException] with its text (a status from
    400 on is one), or another exception. *)
Inductive reply (obj exc : Type) :=
| Response (b : body obj exc)
| RequestException (str_e : string)
| OtherException (e : exc).
Arguments Response {obj exc} b.
Arguments RequestException {obj exc} str_e.
Arguments OtherException {obj exc} e.

(** The URLs of lines 30-37, filled in. *)
Inductive endpoint :=
| JwtLogin
| AddProject
| SetStatus (project_id : string)
| SetAssignee (project_id : string)
| Operations
| SpeechToText (project_id program_id : string)
| ExportCaption (project_id program_id exportLocation_id : string).

Definition url (to : endpoint) : string :=
  match to with
  | JwtLogin => BASE_URL +:+ "/users/jwt-login"
  | AddProject => BASE_URL +:+ "/projects/add-project"
  | SetStatus p => BASE_URL +:+ "/projects/" +:+ p +:+ "/set-status"
  | SetAssignee p => BASE_URL +:+ "/projects/" +:+ p +:+ "/set-assignee"
  | Operations => BASE_URL +:+ "/operations"
  | SpeechToText p g =>
      BASE_URL +:+ "/projects/" +:+ p +:+ "/" +:+ g
      +:+ "/local-speech-to-text?language=" +:+ LANGUAGE
      +:+ "&model=" +:+ MODEL
  | ExportCaption p g l =>
      BASE_URL +:+ "/projects/" +:+ p
      +:+ "/export-caption-file?programIds=" +:+ g
      +:+ "&format=" +:+ EXPORT_FORMAT +:+ "&framerate=" +:+ FRAMERATE
      +:+ "&dropFrame=" +:+ DROP_FRAME +:+ "&exportLocationId=" +:+ l
  end.

(** The lines the script prints, apart from the cURL commands. *)
Inductive message :=
| ErrorJwt (str_e : string)
| ErrorCreateProject (file str_e : string)
| AssigneeSet (project_id : string)
| ErrorAssignee (project_id str_e : string)
| ErrorStatus (project_id str_e : string)
| ErrorStartSpeechToText (project_id str_e : string)
| ErrorCheckSpeechToText (project_id str_e : string)
| ErrorExport (project_id str_e : string)
| ErrorLocation
| LocationAliasSet (alias : string)
| ExportLocationSet (exportLocation_id : string)
| FailedToAuthenticate
| ProcessedSuccessfully (file : string)
| Usage.

Definition text (m : message) : string :=
  match m with
  | ErrorJwt e => "Error: Failed to get JWT token. " +:+ e
  | ErrorCreateProject f e =>
      "Error: Failed to create project for " +:+ f +:+ ". " +:+ e
  | AssigneeSet p => "Assignee set successfully for project " +:+ p +:+ "."
  | ErrorAssignee p e =>
      "Error: Failed to set assignee for project " +:+ p +:+ ". " +:+ e
  | ErrorStatus p e =>
      "Error: Failed to set status for project " +:+ p +:+ ". " +:+ e
  | ErrorStartSpeechToText p e =>
      "Error: Failed to start speech-to-text for project " +:+ p
      +:+ ". " +:+ e
  | ErrorCheckSpeechToText p e =>
      "Error: Failed to check speech-to-text status for project " +:+ p
      +:+ ". " +:+ e
  | ErrorExport p e =>
      "Error: Failed to export caption for project " +:+ p +:+ ". " +:+ e
  | ErrorLocation =>
      "Error: File path must contain either 'pmc_stanza_tst' or 'stanza_transit'."
  | LocationAliasSet a => "LOCATION_ALIAS set to " +:+ a
  | ExportLocationSet l => "exportLocation_id set to " +:+ l
  | FailedToAuthenticate => "Failed to authenticate."
  | ProcessedSuccessfully f => "File " +:+ f +:+ " processed successfully."
  | Usage => "Usage: stanza-automation.py <filepath>"
  end.

Section Script.

Context {obj exc : Type} `{Python obj exc}.

(** [PROCESS_DATE] (line 10) and the two functions of [os.path] that
    [create_project] calls. *)
Variable PROCESS_DATE : string.
Variable basename : string → string.
Variable splitext_root : string → string.

(** A value in a JSON payload: a string, a number or an object received
    earlier, or a dict of such. *)
Inductive scalar :=
| FStr (s : string)
| FInt (n : Z)
| FObj (x : obj).

Inductive field :=
| Plain (v : scalar)
| Dict (d : list (string * scalar)).

(** What the script does to the outside world, in order; a request is
    recorded with what came back. *)
Inductive action :=
| PrintCurl (method : string) (to : endpoint)
            (headers : list (string * string))
            (data : option (list (string * field)))
| PrintLine (m : message)
| Send (method : string) (to : endpoint) (headers : list (string * string))
       (json : option (list (string * field))) (answer : reply obj exc)
| Sleep (seconds : Z).

(** The two globals (lines 52-53), the replies still to come and what has
    been done so far. *)
Record state := {
  jwt_token : obj;
  LOCATION_ALIAS : option string;
  replies : list (reply obj exc);
  done : list action
}.

Definition start (replies : list (reply obj exc)) : state :=
  {| jwt_token := py_none; LOCATION_ALIAS := None;
     replies := replies; done := [] |}.

(** How a piece of the script ends: it returns, it raises, or it is left
    waiting for a reply that is not among the ones given. *)
Inductive result (A : Type) :=
| Returns (a : A) (s : state)
| Raises (e : exc) (s : state)
| Waits (s : state).
Arguments Returns {A} a s.
Arguments Raises {A} e s.
Arguments Waits {A} s.

Definition script (A : Type) : Type := state → result A.

#[local] Instance script_ret : MRet script := λ A a s, Returns a s.

#[local] Instance script_bind : MBind script := λ A B f c s,
  match c s with
  | Returns a s' => f a s'
  | Raises e s' => Raises e s'
  | Waits s' => Waits s'
  end.

Definition raise {A} (e : exc) : script A := λ s, Raises e s.

Definition lift {A} (r : attempt exc A) : script A :=
  match r with
  | Got a => mret a
  | Threw e => raise e
  end.

Definition act (a : action) : script unit := λ s,
  Returns tt {| jwt_token := jwt_token s; LOCATION_ALIAS := LOCATION_ALIAS s;
                replies := replies s; done := done s ++ [a] |}.

Definition set_jwt_token (t : obj) : script unit := λ s,
  Returns tt {| jwt_token := t; LOCATION_ALIAS := LOCATION_ALIAS s;
                replies := replies s; done := done s |}.

Definition set_LOCATION_ALIAS (a : string) : script unit := λ s,
  Returns tt {| jwt_token := jwt_token s; LOCATION_ALIAS := Some a;
                replies := replies s; done := done s |}.

Definition get_state : script state := λ s, Returns s s.

(** [requests.post] or [requests.get] with [raise_for_status]. *)
Definition send (method : string) (to : endpoint)
    (headers : list (string * string))
    (json : option (list (string * field))) : script (reply obj exc) := λ s,
  match replies s with
  | [] => Waits s
  | r :: rest =>
      Returns r {| jwt_token := jwt_token s;
                   LOCATION_ALIAS := LOCATION_ALIAS s;
                   replies := rest;
                   done := done s ++ [Send method to headers json r] |}
  end.

(** [print_curl_command] (lines 56-63); [if data] is false for [None] and
    for an empty dict. *)
Definition print_curl_command (method : string) (to : endpoint)
    (headers : list (string * string))
    (data : option (list (string * field))) : script unit :=
  act (PrintCurl method to headers
         match data with
         | Some ((_ :: _) as d) => Some d
         | _ => None
         end).

Definition bearer (s : state) : string := "Bearer " +:+ format (jwt_token s).

(** [get_jwt_token] (lines 66-80). *)
Definition get_jwt_token : script unit :=
  let payload := [("userName", Plain (FStr USERNAME));
     ("password", Plain (FStr PASSWORD))] in
  let headers := [("Accept", "text/plain");
                  ("Content-Type", "application/json-patch+json")] in
  print_curl_command "POST" JwtLogin headers (Some payload);;
  r ← send "POST" JwtLogin headers (Some payload);
  match r with
  | Response (Json j) =>
      token ← lift (getitem j (py_str "token"));
      set_jwt_token token
  | Response (NotJson true e) =>
      act (PrintLine (ErrorJwt (exc_text e)));; set_jwt_token py_none
  | RequestException str_e =>
      act (PrintLine (ErrorJwt str_e));; set_jwt_token py_none
  | Response (NotJson false e) | OtherException e => raise e
  end.

(** The payload of [create_project] (lines 87-101), with the value that
    the global [LOCATION_ALIAS] has. *)
Definition project_data (alias : option string) (file : string)
  : list (string * field) :=
  [("projectName",
    Plain (FStr ("AI-" +:+ splitext_root (basename file) +:+ "-"
                 +:+ PROCESS_DATE)));
   ("videoFile",
    Plain (FStr ("::" +:+ match alias with
                          | Some a => a
                          | None => "None"
                          end
                 +:+ "\AUTOMATION\SOURCE\" +:+ basename file)));
   ("subtitleFile", Plain (FStr ""));
   ("dueDateTime", Plain (FStr ""));
   ("configuration",
    Dict [("mode", FStr MODE); ("maxLineCount", FInt 2);
          ("maxLineLength", FInt 28); ("minDuration", FInt 0);
          ("maxDuration", FInt 0); ("maxCPS", FInt 0)]);
   ("language", Plain (FStr "fil-PH"))].

(** [create_project] (lines 83-113). *)
Definition create_project (file : string) : script (obj * obj) :=
  s ← get_state;
  let project_data := project_data (LOCATION_ALIAS s) file in
  let headers := [("Authorization", bearer s); ("Accept", "text/plain")] in
  print_curl_command "POST" AddProject headers (Some project_data);;
  r ← send "POST" AddProject headers (Some project_data);
  match r with
  | Response (Json project_info) =>
      id ← lift (getitem project_info (py_str "id"));
      programs ← lift (getitem project_info (py_str "programs"));
      program ← lift (getitem programs (py_int 0));
      program_id ← lift (getitem program (py_str "id"));
      mret (id, program_id)
  | Response (NotJson true e) =>
      act (PrintLine (ErrorCreateProject file (exc_text e)));;
      mret (py_none, py_none)
  | RequestException str_e =>
      act (PrintLine (ErrorCreateProject file str_e));; mret (py_none, py_none)
  | Response (NotJson false e) | OtherException e => raise e
  end.

(** [set_project_assignee] (lines 116-133). *)
Definition set_project_assignee (project_id : obj) : script bool :=
  s ← get_state;
  let assignee_data :=
    [("projectId", Plain (FObj project_id));
     ("newAssigneeId", Plain (FStr "edce626a-e85d-4faa-b96c-c55198e70c7e"))] in
  let headers := [("Authorization", bearer s);
                  ("Content-Type", "application/json")] in
  let to := SetAssignee (format project_id) in
  print_curl_command "POST" to headers (Some assignee_data);;
  r ← send "POST" to headers (Some assignee_data);
  match r with
  | Response _ => act (PrintLine (AssigneeSet (format project_id)));; mret true
  | RequestException str_e =>
      act (PrintLine (ErrorAssignee (format project_id) str_e));; mret false
  | OtherException e => raise e
  end.

(** [set_project_status] (lines 136-152). *)
Definition set_project_status (project_id : obj) : script bool :=
  s ← get_state;
  let status_data :=
    [("projectId", Plain (FObj project_id));
     ("newStatusId", Plain (FStr "804d5879-e2c2-45be-95da-6e0f89c4bb38"))] in
  let headers := [("Authorization", bearer s);
                  ("Accept", "application/json")] in
  let to := SetStatus (format project_id) in
  print_curl_command "POST" to headers (Some status_data);;
  r ← send "POST" to headers (Some status_data);
  match r with
  | Response _ => mret true
  | RequestException str_e =>
      act (PrintLine (ErrorStatus (format project_id) str_e));; mret false
  | OtherException e => raise e
  end.

(** [process_speech_to_text] (lines 155-168). *)
Definition process_speech_to_text (project_id program_id : obj)
  : script bool :=
  s ← get_state;
  let headers := [("Authorization", bearer s); ("Accept", "text/plain")] in
  let to := SpeechToText (format project_id) (format program_id) in
  act (Sleep 10);;
  print_curl_command "POST" to headers None;;
  r ← send "POST" to headers None;
  match r with
  | Response _ => mret true
  | RequestException str_e =>
      act (PrintLine (ErrorStartSpeechToText (format project_id) str_e));;
      mret false
  | OtherException e => raise e
  end.

(** The [for] loop of lines 181-187 on the operations still to look at:
    [true] when it returned [True], [false] when it came to its end. *)
Fixpoint look_for_completion (project_id : obj) (operations : list obj)
  : script bool :=
  match operations with
  | [] => mret false
  | operation :: rest =>
      id ← lift (getitem operation (py_str "projectId"));
      if py_eq id project_id then
        type ← lift (getitem operation (py_str "operationType"));
        if py_eq type (py_str "LocalSpeechToText") then
          progress ← lift (get_or operation "progress" (py_int 0));
          if py_eq progress (py_int 100) then mret true
          else act (Sleep 10);; look_for_completion project_id rest
        else look_for_completion project_id rest
      else look_for_completion project_id rest
  end.

(** The [while True] loop of lines 175-190.  Every trip takes one reply, so
    as many trips as there are replies, and one more, see the loop either
    end or wait. *)
Fixpoint poll_operations (trips : nat) (project_id : obj)
    (headers : list (string * string)) : script bool :=
  match trips with
  | O => λ s, Waits s
  | S trips =>
      r ← send "GET" Operations headers None;
      match r with
      | Response (Json j) =>
          operations ← lift (iterate j);
          completed ← look_for_completion project_id operations;
          if (completed : bool) then mret true
          else poll_operations trips project_id headers
      | Response (NotJson true e) =>
          act (PrintLine (ErrorCheckSpeechToText (format project_id) (exc_text e)));;
          mret false
      | RequestException str_e =>
          act (PrintLine (ErrorCheckSpeechToText (format project_id) str_e));;
          mret false
      | Response (NotJson false e) | OtherException e => raise e
      end
  end.

(** [check_speech_to_text_status] (lines 171-190). *)
Definition check_speech_to_text_status (project_id : obj) : script bool :=
  s ← get_state;
  let headers := [("Authorization", bearer s);
                  ("Accept", "application/json")] in
  poll_operations (S (length (replies s))) project_id headers.

(** [export_caption] (lines 193-205). *)
Definition export_caption (project_id program_id : obj)
    (exportLocation_id : string) : script bool :=
  s ← get_state;
  let headers := [("Authorization", bearer s); ("Accept", "text/plain")] in
  let to := ExportCaption (format project_id) (format program_id)
                          exportLocation_id in
  print_curl_command "POST" to headers None;;
  r ← send "POST" to headers None;
  match r with
  | Response _ => mret true
  | RequestException str_e =>
      act (PrintLine (ErrorExport (format project_id) str_e));; mret false
  | OtherException e => raise e
  end.

(** [main] (lines 208-254). *)
Definition main (file : string) : script unit :=
  match location_of file with
  | None => act (PrintLine ErrorLocation)
  | Some (_, (alias, exportLocation_id)) =>
      set_LOCATION_ALIAS alias;;
      act (PrintLine (LocationAliasSet alias));;
      act (PrintLine (ExportLocationSet exportLocation_id));;
      get_jwt_token;;
      s ← get_state;
      if negb (truthy (jwt_token s)) then act (PrintLine FailedToAuthenticate)
      else
        ids ← create_project file;
        let '(project_id, program_id) := ids in
        if negb (truthy project_id) || negb (truthy program_id) then mret tt
        else
          ok ← set_project_status project_id;
          if negb ok then mret tt else
          ok ← set_project_assignee project_id;
          if negb ok then mret tt else
          ok ← process_speech_to_text project_id program_id;
          if negb ok then mret tt else
          ok ← check_speech_to_text_status project_id;
          if negb ok then mret tt else
          ok ← export_caption project_id program_id exportLocation_id;
          if negb ok then mret tt else
          act (PrintLine (ProcessedSuccessfully file))
  end.

(** Lines 257-263: the script run with [sys.argv] set to [argv]. *)
Definition run_as_script (argv : list string) : script unit :=
  match argv with
  | _ :: file :: _ => main file
  | _ => act (PrintLine Usage)
  end.

(** The state in which a piece of the script is left. *)
Definition final {A} (r : result A) : state :=
  match r with
  | Returns _ s | Raises _ s | Waits s => s
  end.

(** The requests among some actions, each with what came back. *)
Definition exchanges (acts : list action) : list (endpoint * reply obj exc) :=
  omap (λ a, match a with
             | Send _ to _ _ answer => Some (to, answer)
             | _ => None
             end) acts.

Definition sleeps (acts : list action) : list Z :=
  omap (λ a, match a with
             | Sleep seconds => Some seconds
             | _ => None
             end) acts.

Definition is_response (r : reply obj exc) : bool :=
  match r with
  | Response _ => true
  | _ => false
  end.

(** The requests of a whole run, for a project and its first program. *)
Definition pipeline (project_id program_id exportLocation_id : string)
    (polls : nat) : list endpoint :=
  [JwtLogin; AddProject; SetStatus project_id; SetAssignee project_id;
   SpeechToText project_id program_id]
  ++ replicate polls Operations
  ++ [ExportCaption project_id program_id exportLocation_id].

(** An action that is not the announcement of success, and, when it is a
    request other than the login, carries [token] as its bearer token. *)
Definition unremarkable (token : obj) (a : action) : Prop :=
  match a with
  | PrintLine (ProcessedSuccessfully _) => False
  | Send _ to headers _ _ =>
      to = JwtLogin ∨ ("Authorization", "Bearer " +:+ format token) ∈ headers
  | _ => True
  end.

(** The process that [subprocess.run] waits for: the interpreter exits
    with code 0 when the script comes to its end and with code 1 when an
    exception is left uncaught. *)
Definition exit_code {A} (r : result A) : option Z :=
  match r with
  | Returns _ _ => Some 0
  | Raises _ _ => Some 1
  | Waits _ => None
  end.

(** What one call of a function that sends one request to [to] does;
    [good] tells when the caller goes on. *)
Definition one_request {A} (to : endpoint) (good : A → state → bool)
    (token : obj) (s : state) (r : result A) : Prop :=
  ∃ acts,
    done (final r) = done s ++ acts
    ∧ LOCATION_ALIAS (final r) = LOCATION_ALIAS s
    ∧ Forall (unremarkable token) acts
    ∧ match replies s with
      | [] => exchanges acts = [] ∧ replies (final r) = [] ∧ exit_code r = None
      | rep :: rest =>
          exchanges acts = [(to, rep)] ∧ replies (final r) = rest
          ∧ is_Some (exit_code r)
          ∧ (∀ a s', r = Returns a s' → good a s' = true → is_response rep = true)
          ∧ (∀ str_e, rep = RequestException str_e → exit_code r = Some 0)
      end.

(** An operation in a reply of [OPERATIONS_URL] that tells
    [check_speech_to_text_status] that the work on [project_id] is done. *)
Definition completes (project_id operation : obj) : Prop :=
  ∃ id type progress,
    getitem operation (py_str "projectId") = Got id
    ∧ py_eq id project_id = true
    ∧ getitem operation (py_str "operationType") = Got type
    ∧ py_eq type (py_str "LocalSpeechToText") = true
    ∧ get_or operation "progress" (py_int 0) = Got progress
    ∧ py_eq progress (py_int 100) = true.

(** What the [except] clause of a function that reads the body catches of
    a reply, as [str(e)]. *)
Definition caught (r : reply obj exc) : option string :=
  match r with
  | RequestException str_e => Some str_e
  | Response (NotJson true e) => Some (exc_text e)
  | _ => None
  end.

(** What one call of [check_speech_to_text_status] does. *)
Definition polling (project_id : obj) (s : state) (r : result bool) : Prop :=
  ∃ acts,
    done (final r) = done s ++ acts
    ∧ LOCATION_ALIAS (final r) = LOCATION_ALIAS s
    ∧ jwt_token (final r) = jwt_token s
    ∧ Forall (unremarkable (jwt_token s)) acts
    ∧ Forall (λ x, x.1 = Operations) (exchanges acts)
    ∧ map snd (exchanges acts) ++ replies (final r) = replies s
    ∧ (exit_code r = None → replies (final r) = [])
    ∧ (∀ s', r = Returns true s' →
         Forall (λ x, is_response x.2 = true) (exchanges acts)
         ∧ ∃ j operations,
             last (exchanges acts) = Some (Operations, Response (Json j))
             ∧ iterate j = Got operations
             ∧ Exists (completes project_id) operations)
    ∧ (∀ s', r = Returns false s' →
         ∃ rep str_e,
           last (exchanges acts) = Some (Operations, rep)
           ∧ caught rep = Some str_e
           ∧ last acts
             = Some (PrintLine (ErrorCheckSpeechToText (format project_id)
                                                   str_e)))
    ∧ (∀ to str_e,
         last (exchanges acts) = Some (to, RequestException str_e) →
         exit_code r = Some 0).

(** A request other than the login carries [token] as its bearer token. *)
Definition authorized (token : obj) (a : action) : Prop :=
  match a with
  | Send _ to headers _ _ =>
      to = JwtLogin ∨ ("Authorization", "Bearer " +:+ format token) ∈ headers
  | _ => True
  end.

(** A request to add a project carries the payload made for [alias] and
    [file]. *)
Definition names_project (alias : option string) (file : string)
    (a : action) : Prop :=
  match a with
  | Send _ AddProject _ json _ => json = Some (project_data alias file)
  | _ => True
  end.

(** What [main] has done by the time it sends the login request. *)
Definition opening (alias exportLocation_id : string) : list action :=
  [PrintLine (LocationAliasSet alias); PrintLine (ExportLocationSet exportLocation_id);
   PrintCurl "POST" JwtLogin
     [("Accept", "text/plain"); ("Content-Type", "application/json-patch+json")]
     (Some [("userName", Plain (FStr USERNAME));
            ("password", Plain (FStr PASSWORD))])].

(** [token] is the token of the first of the replies [rs]. *)
Definition login_token (rs : list (reply obj exc)) (token : obj) : Prop :=
  ∃ j, head rs = Some (Response (Json j))
       ∧ getitem j (py_str "token") = Got token.

(** Where a run stands: the requests sent so far went to [tos], in this
    order, they used up the replies [rs] from the front, and each was
    accepted; what was done began with [pre], and all of it is [ok]. *)
Definition sofar (rs : list (reply obj exc)) (tos : list endpoint)
    (token : obj) (pre : list action) (ok : action → Prop) (s : state)
  : Prop :=
  map fst (exchanges (done s)) = tos
  ∧ map snd (exchanges (done s)) ++ replies s = rs
  ∧ Forall (unremarkable token) (done s)
  ∧ Forall (λ x, is_response x.2 = true) (exchanges (done s))
  ∧ pre `prefix_of` done s
  ∧ Forall ok (done s).

(** A run that ended before the announcement of success. *)
Definition halted (rs : list (reply obj exc)) (tos : list endpoint)
    (token : obj) (pre : list action) (ok : action → Prop) (s : state)
  : Prop :=
  map fst (exchanges (done s)) `prefix_of` tos
  ∧ map snd (exchanges (done s)) ++ replies s = rs
  ∧ Forall (unremarkable token) (done s)
  ∧ pre `prefix_of` done s
  ∧ Forall ok (done s).

(** What a run of [main] on [file] with the replies [rs] comes to. *)
Definition outcome (file : string) (rs : list (reply obj exc))
    (r : result unit) : Prop :=
  ∃ project_id program_id exportLocation_id polls,
    map fst (exchanges (done (final r)))
      `prefix_of` pipeline project_id program_id exportLocation_id polls
    ∧ map snd (exchanges (done (final r))) ++ replies (final r) = rs
    ∧ Forall (authorized (jwt_token (final r))) (done (final r))
    ∧ (Forall (λ x, x.1 = JwtLogin) (exchanges (done (final r)))
       ∨ login_token rs (jwt_token (final r)))
    ∧ (exit_code r = None → replies (final r) = [])
    ∧ (∀ to str_e,
         last (exchanges (done (final r))) = Some (to, RequestException str_e) →
         exit_code r = Some 0)
    ∧ match location_of file with
      | Some (_, (alias, exportLocation_id)) =>
          opening alias exportLocation_id `prefix_of` done (final r)
          ∧ Forall (names_project (Some alias) file) (done (final r))
      | None => done (final r) = [PrintLine ErrorLocation]
      end
    ∧ (PrintLine (ProcessedSuccessfully file) ∈ done (final r) →
       map fst (exchanges (done (final r)))
       = pipeline project_id program_id exportLocation_id polls
       ∧ (0 < polls)%nat
       ∧ Forall (λ x, is_response x.2 = true) (exchanges (done (final r)))
       ∧ exit_code r = Some 0
       ∧ ∃ key alias,
           location_of file = Some (key, (alias, exportLocation_id))).

(** An operation of another project. *)
Definition of_another_project (project_id operation : obj) : Prop :=
  ∃ id, getitem operation (py_str "projectId") = Got id
        ∧ py_eq id project_id = false.

(** A reply of [OPERATIONS_URL] that lists operations of other projects
    only, or none. *)
Definition no_news (project_id : obj) (r : reply obj exc) : Prop :=
  ∃ j operations,
    r = Response (Json j) ∧ iterate j = Got operations
    ∧ Forall (of_another_project project_id) operations.

End Script.

Arguments scalar obj : clear implicits.
Arguments field obj : clear implicits.
Arguments action obj exc : clear implicits.
Arguments state obj exc : clear implicits.
Arguments result obj exc A : clear implicits.
Arguments script obj exc A : clear implicits.
Arguments Returns {obj exc A} a s.
Arguments Raises {obj exc A} e s.
Arguments Waits {obj exc A} s.

End Automation.

(** ** Python values made from JSON *)

Module Json.

Import Automation.

(** The values that [response.json()] builds from JSON in ASCII without
    fractions and booleans; the keys of a dict are distinct. *)
#[local] Unset Elimination Schemes.
Inductive json :=
| JNone
| JStr (s : string)
| JInt (n : Z)
| JList (items : list json)
| JDict (items : list (string * json)).
#[local] Set Elimination Schemes.

(** The exceptions of the operations below, with the text of CPython
    3.12. *)
Inductive json_error :=
| KeyError (key : json)
| IndexError (msg : string)
| TypeError (msg : string)
| AttributeError (msg : string).

Fixpoint lookup_key (key : string) (d : list (string * json)) : option json :=
  match d with
  | [] => None
  | (k, v) :: rest => if String.eqb k key then Some v else lookup_key key rest
  end.

(** [x == y]. *)
Fixpoint json_eq (x y : json) : bool :=
  match x, y with
  | JNone, JNone => true
  | JStr a, JStr b => String.eqb a b
  | JInt a, JInt b => a =? b
  | JList l, JList k =>
      (fix go (l k : list json) : bool :=
         match l, k with
         | [], [] => true
         | a :: l, b :: k => json_eq a b && go l k
         | _, _ => false
         end) l k
  | JDict d, JDict e =>
      (length d =? length e)%nat
      && (fix all (d : list (string * json)) : bool :=
            match d with
            | [] => true
            | (k, v) :: d =>
                match lookup_key k e with
                | Some v' => json_eq v v'
                | None => false
                end && all d
            end) d
  | _, _ => false
  end.

(** [bool(x)]. *)
Definition json_truthy (x : json) : bool :=
  match x with
  | JNone => false
  | JStr s => negb (String.eqb s "")
  | JInt n => negb (n =? 0)
  | JList l => negb (bool_decide (l = []))
  | JDict d => negb (bool_decide (d = []))
  end.

(** [repr(x)], for strings without quotes, backslashes and control
    characters. *)
Fixpoint repr (x : json) : string :=
  match x with
  | JNone => "None"
  | JStr s => "'" +:+ s +:+ "'"
  | JInt n => pretty n
  | JList l =>
      "[" +:+ (fix join (l : list json) : string :=
                 match l with
                 | [] => ""
                 | a :: rest =>
                     match rest with
                     | [] => repr a
                     | _ => repr a +:+ ", " +:+ join rest
                     end
                 end) l +:+ "]"
  | JDict d =>
      "{" +:+ (fix join (d : list (string * json)) : string :=
                 match d with
                 | [] => ""
                 | (k, v) :: rest =>
                     match rest with
                     | [] => "'" +:+ k +:+ "': " +:+ repr v
                     | _ => "'" +:+ k +:+ "': " +:+ repr v +:+ ", "
                            +:+ join rest
                     end
                 end) d +:+ "}"
  end.

(** [str(x)]. *)
Definition str (x : json) : string :=
  match x with
  | JStr s => s
  | _ => repr x
  end.

Definition type_name (x : json) : string :=
  match x with
  | JNone => "NoneType"
  | JStr _ => "str"
  | JInt _ => "int"
  | JList _ => "list"
  | JDict _ => "dict"
  end.

(** The item at index [i] of a sequence of length [Z.of_nat (length l)],
    counted from the end when [i] is negative. *)
Definition at_index {A} (l : list A) (i : Z) : option A :=
  let n := Z.of_nat (length l) in
  if (0 <=? i) && (i <? n) then l !! Z.to_nat i
  else if (i <? 0) && (- n <=? i) then l !! Z.to_nat (n + i)
  else None.

Fixpoint characters (s : string) : list json :=
  match s with
  | EmptyString => []
  | String c rest => JStr (String c EmptyString) :: characters rest
  end.

(** [x[k]]. *)
Definition json_getitem (x k : json) : attempt json_error json :=
  match x with
  | JDict d =>
      match k with
      | JStr key =>
          match lookup_key key d with
          | Some v => Got v
          | None => Threw (KeyError k)
          end
      | JNone | JInt _ => Threw (KeyError k)
      | JList _ | JDict _ =>
          Threw (TypeError ("unhashable type: '" +:+ type_name k +:+ "'"))
      end
  | JList l =>
      match k with
      | JInt i =>
          match at_index l i with
          | Some v => Got v
          | None => Threw (IndexError "list index out of range")
          end
      | _ => Threw (TypeError
                      ("list indices must be integers or slices, not "
                       +:+ type_name k))
      end
  | JStr s =>
      match k with
      | JInt i =>
          match at_index (characters s) i with
          | Some v => Got v
          | None => Threw (IndexError "string index out of range")
          end
      | _ => Threw (TypeError
                      ("string indices must be integers, not '"
                       +:+ type_name k +:+ "'"))
      end
  | JNone | JInt _ =>
      Threw (TypeError ("'" +:+ type_name x
                        +:+ "' object is not subscriptable"))
  end.

(** [x.get(key, default)]. *)
Definition json_get_or (x : json) (key : string) (default : json)
  : attempt json_error json :=
  match x with
  | JDict d =>
      Got match lookup_key key d with
          | Some v => v
          | None => default
          end
  | _ => Threw (AttributeError ("'" +:+ type_name x
                                +:+ "' object has no attribute 'get'"))
  end.

(** What [for item in x] goes through. *)
Definition json_iterate (x : json) : attempt json_error (list json) :=
  match x with
  | JList l => Got l
  | JDict d => Got (map (λ kv, JStr kv.1) d)
  | JStr s => Got (characters s)
  | JNone | JInt _ =>
      Threw (TypeError ("'" +:+ type_name x +:+ "' object is not iterable"))
  end.

(** [str(e)]. *)
Definition error_text (e : json_error) : string :=
  match e with
  | KeyError key => repr key
  | IndexError msg | TypeError msg | AttributeError msg => msg
  end.

#[global] Instance json_python : Python json json_error := {|
  py_none := JNone;
  py_str := JStr;
  py_int := JInt;
  truthy := json_truthy;
  py_eq := json_eq;
  getitem := json_getitem;
  get_or := json_get_or;
  iterate := json_iterate;
  format := str;
  exc_text := error_text;
  truthy_none := eq_refl
|}.

End Json.

(** ** The script as the process of a dispatch *)

Module Deployment.

Import Automation.

(** [sys.argv] in the process that handler [h] starts for [file_path], when
    its script is a Python script: the command (lines 77-78) without the
    interpreter. *)
Definition argv (h : Handler.Handler) (file_path : string) : list string :=
  tail (Handler.cmd h file_path).

(** What [subprocess.run] sees of the process in which the script ran as
    [r] and wrote [stdout] and [stderr]. *)
Definition child {obj exc : Type} (r : result obj exc unit)
    (stdout stderr : string) : option Handler.proc_outcome :=
  code ← exit_code r; Some (Handler.Exited code stdout stderr).

End Deployment.

(** ** Runs of the script used as examples *)

Module Example.

Import Automation Json.

(** A file in the watched folder. *)
Definition news : string :=
  "D:\STANZA_SHARE\STANZA_TRANSIT\AUTOMATION\SOURCE\news.mxf".

Definition PROCESS_DATE : string := "20250301120000".

(** [os.path.basename] and the root of [os.path.splitext], at [news]. *)
Definition basename (file : string) : string := "news.mxf".
Definition splitext_root (name : string) : string := "news".

Definition json_reply (j : json) : reply json json_error :=
  Response (Json j).

(** A reply whose body the script does not read. *)
Definition accepted : reply json json_error := json_reply JNone.

Definition login_reply : reply json json_error :=
  json_reply (JDict [("token", JStr "eyJhbGciOi")]).

Definition project_reply : reply json json_error :=
  json_reply (JDict [("id", JStr "P1");
                     ("programs", JList [JDict [("id", JStr "G1")]])]).

Definition operation (project_id : string) (progress : Z) : json :=
  JDict [("projectId", JStr project_id);
         ("operationType", JStr "LocalSpeechToText");
         ("progress", JInt progress)].

(** A run in which every request is accepted and the third poll finds the
    transcription done. *)
Definition good_replies : list (reply json json_error) :=
  [login_reply; project_reply; accepted; accepted; accepted;
   json_reply (JList [operation "P0" 100]);
   json_reply (JList [operation "P0" 100; operation "P1" 40]);
   json_reply (JList [operation "P1" 100]);
   accepted].

(** The reply to the login, and a project that comes back with the id
    0. *)
Definition login : json := JDict [("token", JStr "eyJhbGciOi")].

Definition project_zero : json :=
  JDict [("id", JInt 0); ("programs", JList [JDict [("id", JStr "G1")]])].

(** A run in which the server refuses the project. *)
Definition refused_replies : list (reply json json_error) :=
  [login_reply; RequestException "500 Server Error"].

(** The state of the script when it starts to poll for project P1, with
    [rs] the replies to come. *)
Definition about_to_poll (rs : list (reply json json_error))
  : state json json_error :=
  {| jwt_token := JStr "eyJhbGciOi"; LOCATION_ALIAS := Some "STANZA_TRANSIT";
     replies := rs; done := [] |}.

(** Replies that never mention project P1. *)
Definition idle_replies : list (reply json json_error) :=
  [json_reply (JList []); json_reply (JList [operation "P0" 100]);
   json_reply (JList [])].

End Example.


(** * Properties *)

Import Detector.

Lemma Qltb_true (x y : Q) : Qltb x y = true ↔ (x < y)%Q.
Proof.
  unfold Qltb. rewrite negb_true_iff. split; intros H.
  - apply Qnot_le_lt. intros Hle. apply Qle_bool_iff in Hle. congruence.
  - destruct (Qle_bool y x) eqn:E; [|reflexivity].
    apply Qle_bool_iff in E. exfalso. exact (Qlt_not_le _ _ H E).
Qed.

Lemma Qltb_false (x y : Q) : Qltb x y = false ↔ (y <= x)%Q.
Proof.
  unfold Qltb. rewrite negb_false_iff. apply Qle_bool_iff.
Qed.

(** ** The loop body *)

Section Iteration.

Variable file_path : string.
Variable file_creation_time start_time : Q.

Local Abbreviation iteration :=
  (iteration file_path file_creation_time start_time).
Local Abbreviation too_new := (too_new file_creation_time).
Local Abbreviation timed_out := (timed_out start_time).
Local Abbreviation check_and_sleep := (check_and_sleep file_path start_time).

Lemma too_new_spec (p : Poll) :
  too_new p = true ↔ (t_gate p - file_creation_time < MIN_FILE_AGE)%Q.
Proof. apply Qltb_true. Qed.

Lemma timed_out_spec (p : Poll) :
  timed_out p = true ↔ (MAX_WAIT_TIME < t_check p - start_time)%Q.
Proof. apply Qltb_true. Qed.

Lemma check_and_sleep_flow (st : StabilityState) (p : Poll) :
  check_and_sleep st p =
  if timed_out p then (Stop (Return false), [Log (TimeoutWaiting file_path)])
  else (Continue st, [Sleep (wait_interval st)]).
Proof. reflexivity. Qed.

Lemma iteration_too_new (st : StabilityState) (p : Poll) :
  too_new p = true →
  iteration st p =
  (Continue (reset_count st),
   [Log (FileTooNew file_path); Sleep (wait_interval st)]).
Proof. intros H. unfold Detector.iteration. now rewrite H. Qed.

Lemma iteration_read (st : StabilityState) (p : Poll) (s : N) :
  too_new p = false → getsize p = Ok s →
  iteration st p =
  if timed_out p then
    (Stop (Return false), [GetSize (Ok s); Log (TimeoutWaiting file_path)])
  else
    (Continue (observe_size st s),
     [GetSize (Ok s); Sleep (wait_interval (observe_size st s))]).
Proof.
  intros Hg Hs. unfold Detector.iteration. rewrite Hg, Hs.
  rewrite check_and_sleep_flow. now destruct (timed_out p).
Qed.

Lemma iteration_oserror (st : StabilityState) (p : Poll) (e : PyExc) :
  too_new p = false → getsize p = Err e → isinstance e OSError_ = true →
  iteration st p =
  if timed_out p then
    (Stop (Return false),
     [GetSize (Err e); Log (ErrorAccessing file_path e);
      Log (TimeoutWaiting file_path)])
  else
    (Continue (reset_count st),
     [GetSize (Err e); Log (ErrorAccessing file_path e);
      Sleep (wait_interval st)]).
Proof.
  intros Hg Hs He. unfold Detector.iteration. rewrite Hg, Hs, He.
  rewrite check_and_sleep_flow. now destruct (timed_out p).
Qed.

Lemma observe_size_unchanged (st : StabilityState) (s : N) :
  Z.of_N s = last_size st →
  observe_size st s =
  {| last_size := Z.of_N s;
     unchanged_count := S (unchanged_count st);
     wait_interval :=
       Qmin (wait_interval st * (3 # 2))
            (inject_Z (Z.of_nat STABILITY_THRESHOLD)) |}.
Proof. intros H. unfold observe_size. now rewrite H, Z.eqb_refl. Qed.

Lemma observe_size_changed (st : StabilityState) (s : N) :
  Z.of_N s ≠ last_size st →
  observe_size st s =
  {| last_size := Z.of_N s; unchanged_count := 0;
     wait_interval := INITIAL_CHECK_INTERVAL |}.
Proof.
  intros H. unfold observe_size.
  destruct (Z.eqb_spec (Z.of_N s) (last_size st)); [contradiction|reflexivity].
Qed.

(** C7.  A poll that reads the size last observed adds one to the streak
    and sets the interval to [min(interval * 1.5, STABILITY_THRESHOLD)]; a
    poll that reads another size sets the streak to 0 and the interval to
    [INITIAL_CHECK_INTERVAL].  The loop goes on with exactly these
    variables, and sleeps the new interval, unless the timeout test of the
    same iteration ends it. *)
Theorem C7_poll_updates_streak_and_interval
    (st : StabilityState) (p : Poll) (s : N) :
  too_new p = false → getsize p = Ok s →
  let st' := observe_size st s in
  iteration st p =
    (if timed_out p then
       (Stop (Return false), [GetSize (Ok s); Log (TimeoutWaiting file_path)])
     else (Continue st', [GetSize (Ok s); Sleep (wait_interval st')]))
  ∧ last_size st' = Z.of_N s
  ∧ (Z.of_N s = last_size st →
       unchanged_count st' = S (unchanged_count st)
       ∧ wait_interval st' =
           Qmin (wait_interval st * (3 # 2))
                (inject_Z (Z.of_nat STABILITY_THRESHOLD)))
  ∧ (Z.of_N s ≠ last_size st →
       unchanged_count st' = 0%nat
       ∧ wait_interval st' = INITIAL_CHECK_INTERVAL).
Proof.
  intros Hg Hs st'. split; [now apply iteration_read|].
  split; [unfold st', observe_size; now destruct (_ =? _)|].
  split; intros H; subst st'.
  - now rewrite observe_size_unchanged.
  - now rewrite observe_size_changed.
Qed.

(** C10.  When reading the size raises an [OSError] the streak goes to 0,
    the interval and the last observed size stay as they were, the
    iteration sleeps that same interval, and a later read of the size seen
    before the error counts as unchanged. *)
Theorem C10_oserror_keeps_interval_and_last_size
    (st : StabilityState) (p : Poll) (e : PyExc) :
  too_new p = false → getsize p = Err e → isinstance e OSError_ = true →
  let st' := reset_count st in
  iteration st p =
    (if timed_out p then
       (Stop (Return false),
        [GetSize (Err e); Log (ErrorAccessing file_path e);
         Log (TimeoutWaiting file_path)])
     else
       (Continue st',
        [GetSize (Err e); Log (ErrorAccessing file_path e);
         Sleep (wait_interval st)]))
  ∧ unchanged_count st' = 0%nat
  ∧ wait_interval st' = wait_interval st
  ∧ last_size st' = last_size st
  ∧ ∀ s : N, Z.of_N s = last_size st →
      unchanged_count (observe_size st' s) = 1%nat.
Proof.
  intros Hg Hs He st'. split; [now apply iteration_oserror|].
  repeat split. intros s H.
  now rewrite observe_size_unchanged.
Qed.

End Iteration.

(** ** The loop *)

Section Loop.

Variable file_path : string.
Variable file_creation_time start_time : Q.

Local Abbreviation iteration :=
  (iteration file_path file_creation_time start_time).
Local Abbreviation too_new := (too_new file_creation_time).
Local Abbreviation timed_out := (timed_out start_time).
Local Abbreviation wait_loop :=
  (wait_loop file_path file_creation_time start_time).
Local Abbreviation running :=
  (running file_path file_creation_time start_time).

Lemma wait_loop_eq (st : StabilityState) (polls : list Poll) :
  wait_loop st polls =
  if (STABILITY_THRESHOLD <=? unchanged_count st)%nat then
    Some (Return true, [])
  else
    match polls with
    | [] => None
    | p :: rest =>
        match iteration st p with
        | (Stop v, effs) => Some (v, effs)
        | (Continue st', effs) =>
            match wait_loop st' rest with
            | Some (v, tr) => Some (v, effs ++ tr)
            | None => None
            end
        end
    end.
Proof. destruct polls; reflexivity. Qed.

Lemma running_cons (st : StabilityState) (p : Poll) (rest : list Poll) :
  running st (p :: rest) =
  if (STABILITY_THRESHOLD <=? unchanged_count st)%nat then None
  else match iteration st p with
       | (Continue st', _) => running st' rest
       | (Stop _, _) => None
       end.
Proof. reflexivity. Qed.

Lemma wait_loop_done (st : StabilityState) (polls : list Poll) :
  (STABILITY_THRESHOLD ≤ unchanged_count st)%nat →
  wait_loop st polls = Some (Return true, []).
Proof.
  intros H. apply Nat.leb_le in H. rewrite wait_loop_eq. now rewrite H.
Qed.

Lemma wait_loop_cons (st : StabilityState) (p : Poll) (rest : list Poll) :
  (unchanged_count st < STABILITY_THRESHOLD)%nat →
  wait_loop st (p :: rest) =
  match iteration st p with
  | (Stop v, effs) => Some (v, effs)
  | (Continue st', effs) =>
      match wait_loop st' rest with
      | Some (v, tr) => Some (v, effs ++ tr)
      | None => None
      end
  end.
Proof.
  intros H. apply Nat.leb_gt in H. rewrite wait_loop_eq. now rewrite H.
Qed.

Lemma wait_loop_nil (st : StabilityState) :
  (unchanged_count st < STABILITY_THRESHOLD)%nat → wait_loop st [] = None.
Proof.
  intros H. apply Nat.leb_gt in H. rewrite wait_loop_eq. now rewrite H.
Qed.

(** More observations never change a verdict already reached. *)
Lemma wait_loop_app (polls more : list Poll) :
  ∀ st r, wait_loop st polls = Some r → wait_loop st (polls ++ more) = Some r.
Proof.
  induction polls as [|p rest IH]; intros st r H.
  - destruct (le_lt_dec STABILITY_THRESHOLD (unchanged_count st)) as [Hc|Hc].
    + rewrite wait_loop_done in H by assumption.
      now rewrite wait_loop_done by assumption.
    + now rewrite wait_loop_nil in H by assumption.
  - destruct (le_lt_dec STABILITY_THRESHOLD (unchanged_count st)) as [Hc|Hc].
    + rewrite wait_loop_done in H by assumption.
      now rewrite wait_loop_done by assumption.
    + rewrite <- app_comm_cons. rewrite wait_loop_cons in * by assumption.
      destruct (iteration st p) as [[st'|v] effs]; [|assumption].
      destruct (wait_loop st' rest) as [[v tr]|] eqn:E; [|discriminate].
      now rewrite (IH _ _ E).
Qed.

(** While the loop is going, the rest of the run is the run from the
    variables reached. *)
Lemma wait_loop_running (pre polls : list Poll) :
  ∀ st st', running st pre = Some st' →
  ∃ tr0, wait_loop st (pre ++ polls) =
         match wait_loop st' polls with
         | Some (v, tr) => Some (v, tr0 ++ tr)
         | None => None
         end.
Proof.
  induction pre as [|p rest IH]; intros st st' H.
  - injection H as <-. exists []. simpl.
    now destruct (wait_loop st polls) as [[]|].
  - rewrite running_cons in H.
    destruct (STABILITY_THRESHOLD <=? unchanged_count st)%nat eqn:Hc;
      [discriminate|]. apply Nat.leb_gt in Hc.
    rewrite <- app_comm_cons, wait_loop_cons by assumption.
    destruct (iteration st p) as [[st1|v] effs]; [|discriminate].
    destruct (IH _ _ H) as [tr0 ->]. exists (effs ++ tr0).
    destruct (wait_loop st' polls) as [[v tr]|]; [|reflexivity].
    now rewrite app_assoc.
Qed.

Lemma wait_loop_None (polls : list Poll) :
  ∀ st, wait_loop st polls = None →
  ∃ st', running st polls = Some st'
         ∧ (unchanged_count st' < STABILITY_THRESHOLD)%nat.
Proof.
  induction polls as [|p rest IH]; intros st H.
  - exists st. split; [reflexivity|].
    destruct (le_lt_dec STABILITY_THRESHOLD (unchanged_count st)) as [Hc|Hc];
      [|assumption]. now rewrite wait_loop_done in H.
  - destruct (le_lt_dec STABILITY_THRESHOLD (unchanged_count st)) as [Hc|Hc].
    { now rewrite wait_loop_done in H. }
    rewrite wait_loop_cons in H by assumption. rewrite running_cons.
    apply Nat.leb_gt in Hc. rewrite Hc.
    destruct (iteration st p) as [[st1|v] effs]; [|discriminate].
    apply IH. now destruct (wait_loop st1 rest) as [[]|].
Qed.

(** The streak grows by at most one per size read that came back. *)
Lemma stable_needs_reads (polls : list Poll) :
  ∀ st tr, wait_loop st polls = Some (Return true, tr) →
  (STABILITY_THRESHOLD ≤ unchanged_count st + successful_reads tr)%nat.
Proof.
  induction polls as [|p rest IH]; intros st tr H.
  - destruct (le_lt_dec STABILITY_THRESHOLD (unchanged_count st)) as [Hc|Hc];
      [lia|]. now rewrite wait_loop_nil in H.
  - destruct (le_lt_dec STABILITY_THRESHOLD (unchanged_count st)) as [Hc|Hc];
      [lia|]. rewrite wait_loop_cons in H by assumption.
    unfold Detector.iteration in H.
    destruct (too_new p).
    + destruct (wait_loop (reset_count st) rest) as [[v tr']|] eqn:E;
        [|discriminate]. injection H as -> <-.
      apply IH in E. simpl in *. lia.
    + destruct (getsize p) as [s|e] eqn:Hs.
      * unfold check_and_sleep in H. destruct (timed_out p); [discriminate|].
        destruct (wait_loop (observe_size st s) rest) as [[v tr']|] eqn:E;
          [|discriminate]. injection H as -> <-.
        apply IH in E. simpl.
        assert (unchanged_count (observe_size st s)
                ≤ S (unchanged_count st))%nat.
        { unfold observe_size. destruct (_ =? _); simpl; lia. }
        lia.
      * destruct (isinstance e OSError_); [|discriminate].
        unfold check_and_sleep in H. destruct (timed_out p); [discriminate|].
        destruct (wait_loop (reset_count st) rest) as [[v tr']|] eqn:E;
          [|discriminate]. injection H as -> <-.
        apply IH in E. simpl in *. lia.
Qed.

(** Until a size has been read, the first read to come back starts the
    streak from 0, so one more read is needed than the streak is long. *)
Lemma stable_needs_reads_fresh (polls : list Poll) :
  ∀ st tr, last_size st = -1 →
  (unchanged_count st < STABILITY_THRESHOLD)%nat →
  wait_loop st polls = Some (Return true, tr) →
  (S STABILITY_THRESHOLD ≤ successful_reads tr)%nat.
Proof.
  induction polls as [|p rest IH]; intros st tr Hl Hc H.
  - now rewrite wait_loop_nil in H.
  - rewrite wait_loop_cons in H by assumption.
    unfold Detector.iteration in H.
    destruct (too_new p).
    + destruct (wait_loop (reset_count st) rest) as [[v tr']|] eqn:E;
        [|discriminate]. injection H as -> <-.
      apply IH in E; [exact E|exact Hl|unfold STABILITY_THRESHOLD; simpl; lia].
    + destruct (getsize p) as [s|e] eqn:Hs.
      * unfold check_and_sleep in H. destruct (timed_out p); [discriminate|].
        destruct (wait_loop (observe_size st s) rest) as [[v tr']|] eqn:E;
          [|discriminate]. injection H as -> <-.
        apply stable_needs_reads in E.
        rewrite observe_size_changed in E by lia. simpl in *. lia.
      * destruct (isinstance e OSError_); [|discriminate].
        unfold check_and_sleep in H. destruct (timed_out p); [discriminate|].
        destruct (wait_loop (reset_count st) rest) as [[v tr']|] eqn:E;
          [|discriminate]. injection H as -> <-.
        apply IH in E;
          [exact E|exact Hl|unfold STABILITY_THRESHOLD; simpl; lia].
Qed.

(** While the file is too new the loop neither returns nor reads a size. *)
Lemma too_new_keeps_polling (polls : list Poll) :
  ∀ st, (unchanged_count st < STABILITY_THRESHOLD)%nat →
  Forall (λ p, too_new p = true) polls →
  wait_loop st polls = None.
Proof.
  induction polls as [|p rest IH]; intros st Hc H.
  - now apply wait_loop_nil.
  - inversion H as [|? ? Hp Hrest]; subst.
    rewrite wait_loop_cons by assumption.
    rewrite iteration_too_new by assumption.
    rewrite IH; [reflexivity| |assumption].
    unfold STABILITY_THRESHOLD. simpl. lia.
Qed.

(** Polls that read the size last observed, with the age test and the
    timeout test passed, bring the streak to the threshold. *)
Lemma unchanged_polls_stable (s : N) (qs rest : list Poll) :
  ∀ st, last_size st = Z.of_N s →
  Forall (λ q, too_new q = false ∧ getsize q = Ok s ∧ timed_out q = false) qs →
  (STABILITY_THRESHOLD ≤ unchanged_count st + length qs)%nat →
  ∃ tr, wait_loop st (qs ++ rest) = Some (Return true, tr).
Proof.
  induction qs as [|q qs IH]; intros st Hl H Hc.
  - exists []. apply wait_loop_done. simpl in Hc. lia.
  - destruct (le_lt_dec STABILITY_THRESHOLD (unchanged_count st)) as [Hd|Hd].
    { exists []. now apply wait_loop_done. }
    inversion H as [|? ? (Hg & Hs & Ht) Hqs]; subst.
    rewrite <- app_comm_cons, wait_loop_cons by assumption.
    rewrite (iteration_read _ _ _ _ _ s) by assumption. rewrite Ht.
    destruct (IH (observe_size st s)) as [tr Htr].
    + now rewrite observe_size_unchanged.
    + assumption.
    + rewrite observe_size_unchanged by congruence. simpl in *. lia.
    + rewrite Htr. eauto.
Qed.

(** Past the age test, an iteration whose timeout test fires ends the loop
    whatever the streak. *)
Lemma iteration_timed_out (st : StabilityState) (p : Poll) :
  too_new p = false → timed_out p = true →
  ∃ v effs, iteration st p = (Stop v, effs)
    ∧ ((∀ e, getsize p = Err e → isinstance e OSError_ = true) →
       v = Return false).
Proof.
  intros Hg Ht. destruct (getsize p) as [s|e] eqn:Hs.
  - rewrite (iteration_read _ _ _ _ _ s), Ht by assumption. eauto.
  - destruct (isinstance e OSError_) eqn:He.
    + rewrite (iteration_oserror _ _ _ _ _ e), Ht by assumption. eauto.
    + unfold Detector.iteration. rewrite Hg, Hs, He.
      do 2 eexists. split; [reflexivity|]. intros H.
      specialize (H e eq_refl). congruence.
Qed.

(** The loop comes to an end on any run of observations that holds a poll
    past the age test whose timeout test fires. *)
Lemma late_poll_ends_loop (polls : list Poll) :
  ∀ st, Exists (λ q, too_new q = false ∧ timed_out q = true) polls →
  is_Some (wait_loop st polls).
Proof.
  induction polls as [|p rest IH]; intros st H; [inversion H|].
  destruct (le_lt_dec STABILITY_THRESHOLD (unchanged_count st)) as [Hd|Hd].
  { rewrite wait_loop_done by assumption. eauto. }
  rewrite wait_loop_cons by assumption.
  destruct (iteration st p) as [[st'|v] effs] eqn:Hi; [|eauto].
  inversion H as [? ? (Hg & Ht)|? ? Hrest]; subst.
  - destruct (iteration_timed_out st p Hg Ht) as (v & effs' & E & _).
    congruence.
  - destruct (IH st' Hrest) as [[v tr] ->]. eauto.
Qed.

(** The interval is always one of seven values. *)
Lemma observe_size_interval (st : StabilityState) (s : N) :
  wait_interval st ∈ interval_values →
  wait_interval (observe_size st s) ∈ interval_values.
Proof.
  intros H. unfold observe_size. destruct (_ =? _); simpl.
  - unfold interval_values in H.
    repeat (apply elem_of_cons in H as [->|H]);
      [vm_compute; repeat constructor ..|].
    now apply elem_of_nil in H.
  - vm_compute. repeat constructor.
Qed.

Lemma running_interval (pre : list Poll) :
  ∀ st st', wait_interval st ∈ interval_values →
  running st pre = Some st' → wait_interval st' ∈ interval_values.
Proof.
  induction pre as [|p rest IH]; intros st st' Hi H.
  - now injection H as <-.
  - rewrite running_cons in H.
    destruct (STABILITY_THRESHOLD <=? unchanged_count st)%nat; [discriminate|].
    destruct (iteration st p) as [[st1|v] effs] eqn:E; [|discriminate].
    apply (IH st1 st'); [|assumption].
    unfold Detector.iteration in E. destruct (too_new p).
    { injection E as <- _. exact Hi. }
    destruct (getsize p) as [s|e].
    + unfold check_and_sleep in E. destruct (timed_out p); [discriminate|].
      injection E as <- _. now apply observe_size_interval.
    + destruct (isinstance e OSError_); [|discriminate].
      unfold check_and_sleep in E. destruct (timed_out p); [discriminate|].
      injection E as <- _. exact Hi.
Qed.

End Loop.

(** ** The verdict of [wait_for_stable_file] *)

Section Verdict.

Variable file_path : string.
Variable start_time : Q.

Local Abbreviation wait_for_stable_file :=
  (wait_for_stable_file file_path start_time).

(** C9.  No size read equals the initial [last_size] of -1, so the first
    read that comes back leaves the streak at 0, and a stable verdict takes
    at least [STABILITY_THRESHOLD + 1] size reads that came back. *)
Theorem C9_stable_needs_threshold_plus_one_reads
    (getctime : io Q) (polls : list Poll) (tr : list effect) :
  wait_for_stable_file getctime polls = Some (Return true, tr) →
  (S STABILITY_THRESHOLD ≤ successful_reads tr)%nat
  ∧ last_size initial_state = -1
  ∧ ∀ (st : StabilityState) (s : N),
      last_size st = -1 → unchanged_count (observe_size st s) = 0%nat.
Proof.
  intros H. split; [|split; [reflexivity|]].
  - destruct getctime as [birth|e]; [|discriminate]. simpl in H.
    apply stable_needs_reads_fresh in H.
    + exact H.
    + reflexivity.
    + unfold STABILITY_THRESHOLD; simpl; lia.
  - intros st s Hl. rewrite observe_size_changed; [reflexivity|lia].
Qed.


(** C6.  While the file is younger than [MIN_FILE_AGE] the detector gives
    no verdict at all, so never a stable one, whatever the size does: each
    such poll sets the streak to 0, leaves the other variables alone and
    sleeps the current interval without reading the size. *)
Theorem C6_too_new_file_never_stable (birth : Q) (polls : list Poll) :
  Forall (λ p, (t_gate p - birth < MIN_FILE_AGE)%Q) polls →
  wait_for_stable_file (Ok birth) polls = None
  ∧ Forall (λ p, ∀ st,
      iteration file_path birth start_time st p =
        (Continue {| last_size := last_size st; unchanged_count := 0;
                     wait_interval := wait_interval st |},
         [Log (FileTooNew file_path); Sleep (wait_interval st)])) polls.
Proof.
  intros H.
  assert (Forall (λ p, too_new birth p = true) polls) as H'.
  { eapply Forall_impl; [exact H|]. intros p Hp. now apply too_new_spec. }
  split.
  - apply too_new_keeps_polling; [|assumption].
    unfold STABILITY_THRESHOLD; simpl; lia.
  - eapply Forall_impl; [exact H'|]. intros p Hp st.
    now apply iteration_too_new.
Qed.

(** C5, as the code has it.  Ten polls in a row that pass the age test, read
    the size last observed and pass the timeout test give the stable
    verdict.  The size last observed is the one read by the poll before
    them, so from the start of a run this takes the same size on eleven
    reads. *)
Theorem C5_ten_unchanged_polls_give_stable
    (birth : Q) (s : N) (pre qs rest : list Poll) (st : StabilityState) :
  running file_path birth start_time initial_state pre = Some st →
  last_size st = Z.of_N s →
  length qs = STABILITY_THRESHOLD →
  Forall (λ q, (MIN_FILE_AGE <= t_gate q - birth)%Q
               ∧ getsize q = Ok s
               ∧ (t_check q - start_time <= MAX_WAIT_TIME)%Q) qs →
  ∃ tr, wait_for_stable_file (Ok birth) (pre ++ qs ++ rest)
        = Some (Return true, tr).
Proof.
  intros Hpre Hl Hn H.
  destruct (wait_loop_running file_path birth start_time pre (qs ++ rest)
              _ _ Hpre) as [tr0 E].
  destruct (unchanged_polls_stable file_path birth start_time s qs rest st)
    as [tr Htr].
  - exact Hl.
  - eapply Forall_impl; [exact H|]. intros q (Hg & Hs & Ht).
    repeat split; [now apply Qltb_false|exact Hs|now apply Qltb_false].
  - lia.
  - exists (tr0 ++ tr). simpl. rewrite E. now rewrite Htr.
Qed.

(** C4, as the code has it.  Once a poll has passed the age test, the
    detector returns the gave-up outcome as soon as its timeout test reads
    more than [MAX_WAIT_TIME] since the start, whatever the streak and
    whether or not the size could be read.  A poll that finds the file too
    new sleeps and goes round again without looking at the elapsed time.
    When the creation time is not later than the start of the detection and
    every trip through the loop takes at least [INITIAL_CHECK_INTERVAL], the
    call comes to an end within 602 trips. *)
Theorem C4_timeout_past_the_age_gate
    (birth : Q) (pre : list Poll) (p : Poll) (rest : list Poll) :
  wait_for_stable_file (Ok birth) pre = None →
  (MIN_FILE_AGE <= t_gate p - birth)%Q →
  (MAX_WAIT_TIME < t_check p - start_time)%Q →
  (∀ e, getsize p = Err e → isinstance e OSError_ = true) →
  (∃ tr, wait_for_stable_file (Ok birth) (pre ++ p :: rest)
         = Some (Return false, tr))
  ∧ (∀ st, fst (iteration file_path birth start_time st p)
           = Stop (Return false))
  ∧ (∀ (q : Poll) (st : StabilityState),
       (t_gate q - birth < MIN_FILE_AGE)%Q →
       fst (iteration file_path birth start_time st q)
       = Continue (reset_count st))
  ∧ (∀ observe : nat → Poll,
       (birth <= start_time)%Q →
       (start_time <= t_gate (observe 0%nat))%Q →
       (∀ k, (t_gate (observe k) + INITIAL_CHECK_INTERVAL
              <= t_gate (observe (S k)))%Q) →
       (∀ k, (t_gate (observe k) <= t_check (observe k))%Q) →
       is_Some (wait_for_stable_file (Ok birth) (map observe (seq 0 602)))).
Proof.
  intros Hpre Hg Ht He.
  apply Qltb_false in Hg. apply Qltb_true in Ht.
  assert (∀ st, ∃ effs, iteration file_path birth start_time st p
                        = (Stop (Return false), effs)) as Hstop.
  { intros st.
    destruct (iteration_timed_out file_path birth start_time st p Hg Ht)
      as (v & effs & E & Hv).
    exists effs. now rewrite E, (Hv He). }
  split; [|split; [|split]].
  - simpl in Hpre. apply wait_loop_None in Hpre as (st & Hrun & Hc).
    destruct (wait_loop_running file_path birth start_time pre (p :: rest)
                _ _ Hrun) as [tr0 E].
    destruct (Hstop st) as [effs Hi].
    exists (tr0 ++ effs). simpl. rewrite E.
    rewrite wait_loop_cons by assumption. now rewrite Hi.
  - intros st. destruct (Hstop st) as [effs ->]. reflexivity.
  - intros q st Hq. apply too_new_spec in Hq.
    now rewrite iteration_too_new.
  - intros observe Hb H0 Hstep Hchk. unfold Detector.wait_for_stable_file.
    apply late_poll_ends_loop. apply Exists_exists.
    exists (observe 601%nat). split.
    { apply list_elem_of_In, in_map, in_seq. lia. }
    assert (∀ k, (start_time + inject_Z (Z.of_nat k)
                  <= t_gate (observe k))%Q) as Hk.
    { induction k as [|k IH].
      - simpl. now rewrite Qplus_0_r.
      - eapply Qle_trans; [|apply Hstep].
        rewrite Nat2Z.inj_succ. unfold Z.succ. rewrite inject_Z_plus.
        rewrite Qplus_assoc. apply Qplus_le_l. exact IH. }
    specialize (Hk 601%nat). specialize (Hchk 601%nat).
    unfold INITIAL_CHECK_INTERVAL in *.
    split; [apply Qltb_false|apply Qltb_true];
      unfold MIN_FILE_AGE, MAX_WAIT_TIME.
    + apply Qle_trans with (start_time + inject_Z (Z.of_nat 601) - birth)%Q.
      * apply Qle_trans with (inject_Z (Z.of_nat 601) + (start_time - birth))%Q.
        -- rewrite <- (Qplus_0_r 5). apply Qplus_le_compat; [easy|].
           now apply (Qplus_le_l _ _ birth); ring_simplify.
        -- apply Qle_lteq. right. ring.
      * apply Qplus_le_l. exact Hk.
    + apply Qlt_le_trans
        with (start_time + inject_Z (Z.of_nat 601) - start_time)%Q.
      * ring_simplify. reflexivity.
      * apply Qplus_le_l. eapply Qle_trans; eassumption.
Qed.

End Verdict.

(** ** The detector on the example runs *)

Ltac all_polls :=
  repeat (constructor; [repeat split; vm_compute; congruence|]); constructor.

(** C4 is not what the code does for a file that is still too new.  The
    creation time read is 2000 s ahead of the clock; 700 s after the start
    the poll still finds the file too new, goes round again, and the call
    has not returned. *)
Lemma C4_counterexample_too_new_skips_timeout :
  (t_gate (Scenario.every_second 700) - 2000 < MIN_FILE_AGE)%Q
  ∧ (MAX_WAIT_TIME + 10 < t_gate (Scenario.every_second 700) - 0)%Q
  ∧ fst (iteration "clip.mxf" 2000 0 initial_state (Scenario.every_second 700))
    = Continue initial_state
  ∧ wait_for_stable_file "clip.mxf" 0 (Ok 2000%Q) Scenario.polls_to_700 = None.
Proof.
  split; [reflexivity|]. split; [reflexivity|].
  split; vm_compute; reflexivity.
Qed.

Lemma C4_witness :
  wait_for_stable_file "clip.mxf" 0 (Ok 0%Q) Scenario.too_new_polls = None
  ∧ (MIN_FILE_AGE <= t_gate (Scenario.poll_at 601 100) - 0)%Q
  ∧ (MAX_WAIT_TIME < t_check (Scenario.poll_at 601 100) - 0)%Q
  ∧ (∃ tr, wait_for_stable_file "clip.mxf" 0 (Ok 0%Q)
             (Scenario.too_new_polls ++ [Scenario.poll_at 601 100])
           = Some (Return false, tr))
  ∧ is_Some (wait_for_stable_file "clip.mxf" 0 (Ok 0%Q)
               (map Scenario.every_second (seq 0 602))).
Proof.
  assert (wait_for_stable_file "clip.mxf" 0 (Ok 0%Q) Scenario.too_new_polls
          = None) as Hpre by (vm_compute; reflexivity).
  assert (MIN_FILE_AGE <= t_gate (Scenario.poll_at 601 100) - 0)%Q as Hg
    by (vm_compute; congruence).
  assert (MAX_WAIT_TIME < t_check (Scenario.poll_at 601 100) - 0)%Q as Ht
    by reflexivity.
  assert (∀ e, getsize (Scenario.poll_at 601 100) = Err e →
               isinstance e OSError_ = true) as He
    by (intros e; simpl; congruence).
  destruct (C4_timeout_past_the_age_gate "clip.mxf" 0 0
              Scenario.too_new_polls (Scenario.poll_at 601 100) []
              Hpre Hg Ht He) as (H1 & _ & _ & H4).
  split; [exact Hpre|]. split; [exact Hg|]. split; [exact Ht|].
  split; [exact H1|].
  apply H4.
  - vm_compute; congruence.
  - vm_compute; congruence.
  - intros k. unfold Scenario.every_second, Scenario.poll_at. simpl t_gate.
    rewrite Nat2Z.inj_succ. unfold Z.succ, INITIAL_CHECK_INTERVAL.
    rewrite inject_Z_plus. apply Qle_refl.
  - intros k. apply Qle_refl.
Defined.

(** C5 is not what the code does with ten equal reads.  The file reads 100
    bytes on ten polls in a row, all past the age test and within the time
    limit; the streak stands at 9 and the call has not returned.  The writer
    then resumes and the call ends with the gave-up outcome. *)
Lemma C5_counterexample_ten_equal_reads :
  length Scenario.ten_reads_of_100 = STABILITY_THRESHOLD
  ∧ Forall (λ q, (MIN_FILE_AGE <= t_gate q - 0)%Q
                 ∧ getsize q = Ok 100%N
                 ∧ (t_check q - 0 <= MAX_WAIT_TIME)%Q)
           Scenario.ten_reads_of_100
  ∧ wait_for_stable_file "clip.mxf" 0 (Ok 0%Q)
      (Scenario.too_new_polls ++ Scenario.ten_reads_of_100) = None
  ∧ unchanged_count <$>
      running "clip.mxf" 0 0 initial_state
        (Scenario.too_new_polls ++ Scenario.ten_reads_of_100) = Some 9%nat
  ∧ fst <$> wait_for_stable_file "clip.mxf" 0 (Ok 0%Q)
      (Scenario.too_new_polls ++ Scenario.ten_reads_of_100 ++ Scenario.growing)
    = Some (Return false).
Proof.
  split; [reflexivity|]. split; [all_polls|].
  repeat split; vm_compute; reflexivity.
Qed.

Lemma C5_witness :
  running "clip.mxf" 0 0 initial_state Scenario.first_read
  = Some {| last_size := 100; unchanged_count := 0;
            wait_interval := INITIAL_CHECK_INTERVAL |}
  ∧ length Scenario.ten_more_reads = STABILITY_THRESHOLD
  ∧ Forall (λ q, (MIN_FILE_AGE <= t_gate q - 0)%Q
                 ∧ getsize q = Ok 100%N
                 ∧ (t_check q - 0 <= MAX_WAIT_TIME)%Q)
           Scenario.ten_more_reads
  ∧ ∃ tr, wait_for_stable_file "clip.mxf" 0 (Ok 0%Q)
            (Scenario.first_read ++ Scenario.ten_more_reads ++ [])
          = Some (Return true, tr).
Proof.
  assert (running "clip.mxf" 0 0 initial_state Scenario.first_read
          = Some {| last_size := 100; unchanged_count := 0;
                    wait_interval := INITIAL_CHECK_INTERVAL |}) as Hpre
    by reflexivity.
  assert (Forall (λ q, (MIN_FILE_AGE <= t_gate q - 0)%Q
                       ∧ getsize q = Ok 100%N
                       ∧ (t_check q - 0 <= MAX_WAIT_TIME)%Q)
                 Scenario.ten_more_reads) as Hqs by all_polls.
  split; [exact Hpre|]. split; [reflexivity|]. split; [exact Hqs|].
  exact (C5_ten_unchanged_polls_give_stable "clip.mxf" 0 0 100
           Scenario.first_read Scenario.ten_more_reads [] _
           Hpre eq_refl eq_refl Hqs).
Defined.

Lemma C6_witness :
  Forall (λ p, (t_gate p - 0 < MIN_FILE_AGE)%Q) Scenario.too_new_polls
  ∧ wait_for_stable_file "clip.mxf" 0 (Ok 0%Q) Scenario.too_new_polls = None.
Proof.
  assert (Forall (λ p, (t_gate p - 0 < MIN_FILE_AGE)%Q)
                 Scenario.too_new_polls) as H
    by (repeat (constructor; [reflexivity|]); constructor).
  split; [exact H|].
  exact (proj1 (C6_too_new_file_never_stable "clip.mxf" 0 0
                  Scenario.too_new_polls H)).
Defined.

Lemma C7_witness :
  too_new 0 (Scenario.poll_at 50 100) = false
  ∧ getsize (Scenario.poll_at 50 100) = Ok 100%N
  ∧ iteration "clip.mxf" 0 0 Scenario.mid_streak (Scenario.poll_at 50 100)
    = (Continue (observe_size Scenario.mid_streak 100),
       [GetSize (Ok 100%N);
        Sleep (wait_interval (observe_size Scenario.mid_streak 100))])
  ∧ unchanged_count (observe_size Scenario.mid_streak 100) = 4%nat
  ∧ wait_interval (observe_size Scenario.mid_streak 100)
    = Qmin ((27 # 8) * (3 # 2)) 10.
Proof.
  destruct (C7_poll_updates_streak_and_interval "clip.mxf" 0 0
              Scenario.mid_streak (Scenario.poll_at 50 100) 100
              eq_refl eq_refl) as (H1 & _ & H3 & _).
  destruct (H3 eq_refl) as [Hc Hi].
  exact (conj eq_refl (conj eq_refl (conj H1 (conj Hc Hi)))).
Defined.

Lemma C9_witness :
  ∃ tr, wait_for_stable_file "clip.mxf" 0 (Ok 0%Q)
          (Scenario.first_read ++ Scenario.ten_more_reads)
        = Some (Return true, tr)
      ∧ (11 ≤ successful_reads tr)%nat.
Proof.
  eexists. split.
  - vm_compute. reflexivity.
  - eapply (proj1 (C9_stable_needs_threshold_plus_one_reads "clip.mxf" 0
                     (Ok 0%Q) (Scenario.first_read ++ Scenario.ten_more_reads)
                     _ _)).
    Unshelve. vm_compute. reflexivity.
Defined.

Lemma C10_witness :
  too_new 0 Scenario.unreadable_poll = false
  ∧ getsize Scenario.unreadable_poll = Err Scenario.file_not_found
  ∧ isinstance Scenario.file_not_found OSError_ = true
  ∧ iteration "clip.mxf" 0 0 Scenario.mid_streak Scenario.unreadable_poll
    = (Continue {| last_size := 100; unchanged_count := 0;
                   wait_interval := 27 # 8 |},
       [GetSize (Err Scenario.file_not_found);
        Log (ErrorAccessing "clip.mxf" Scenario.file_not_found);
        Sleep (27 # 8)])
  ∧ unchanged_count
      (observe_size (reset_count Scenario.mid_streak) 100) = 1%nat.
Proof.
  destruct (C10_oserror_keeps_interval_and_last_size "clip.mxf" 0 0
              Scenario.mid_streak Scenario.unreadable_poll
              Scenario.file_not_found eq_refl eq_refl eq_refl)
    as (H1 & _ & _ & _ & H5).
  exact (conj eq_refl (conj eq_refl (conj eq_refl
           (conj H1 (H5 100%N eq_refl))))).
Defined.

(** The file that grows for three seconds: five polls find it too new, the
    read at second 5 starts the streak, ten more equal reads complete it,
    and the sleeps grow by half each time up to the cap. *)
Example grows_then_stops_is_stable :
  (λ r, (fst r, sleeps (snd r), successful_reads (snd r))) <$>
    wait_for_stable_file "clip.mxf" 0 (Ok 0%Q) Scenario.grows_then_stops
  = Some (Return true,
          [1; 1; 1; 1; 1; 1; 3 # 2; 9 # 4; 27 # 8; 81 # 16; 243 # 32;
           10; 10; 10; 10; 10]%Q,
          11%nat)
  ∧ wait_for_stable_file "clip.mxf" 0 (Ok 0%Q)
      (removelast Scenario.grows_then_stops) = None.
Proof. split; vm_compute; reflexivity. Qed.

(** ** The handler *)

Import Handler.

Lemma count_if_app {A} (f : A → bool) (l k : list A) :
  count_if f (l ++ k) = (count_if f l + count_if f k)%nat.
Proof. induction l as [|x l IH]; simpl; [reflexivity|]. rewrite IH. lia. Qed.

Lemma count_if_insert {A} (f : A → bool) (l : list A) (i : nat) (x y : A) :
  l !! i = Some x →
  (count_if f (<[i := y]> l) + (if f x then 1 else 0)
   = count_if f l + (if f y then 1 else 0))%nat.
Proof.
  revert i. induction l as [|z l IH]; intros [|i] H; simpl in *;
    try discriminate.
  - injection H as ->. lia.
  - specialize (IH i H). lia.
Qed.

Lemma count_if_pos {A} (f : A → bool) (l : list A) (i : nat) (x : A) :
  l !! i = Some x → f x = true → (1 ≤ count_if f l)%nat.
Proof.
  revert i. induction l as [|z l IH]; intros [|i] H Hf; simpl in *;
    try discriminate.
  - injection H as ->. rewrite Hf. lia.
  - specialize (IH i H Hf). lia.
Qed.


Lemma count_if_none {A} (f : A → bool) (l : list A) :
  Forall (λ x, f x = false) l → count_if f l = 0%nat.
Proof.
  induction 1 as [|x l Hx _ IH]; simpl; [reflexivity|]. now rewrite Hx, IH.
Qed.

(** The detector logs nothing but its own three messages. *)
Lemma iteration_logged p b s st q f effs :
  iteration p b s st q = (f, effs) →
  Forall (λ m, detector_msg m = true) (logged effs).
Proof.
  unfold iteration, check_and_sleep. intros H.
  destruct (too_new b q).
  { injection H as <- <-. repeat constructor. }
  destruct (getsize q) as [n|e].
  - destruct (timed_out s q); injection H as <- <-; repeat constructor.
  - destruct (isinstance e OSError_).
    + destruct (timed_out s q); injection H as <- <-; repeat constructor.
    + injection H as <- <-. repeat constructor.
Qed.

Lemma logged_app effs effs' :
  logged (effs ++ effs') = logged effs ++ logged effs'.
Proof. unfold logged. apply omap_app. Qed.

Lemma wait_loop_logged p b s polls :
  ∀ st v tr, wait_loop p b s st polls = Some (v, tr) →
  Forall (λ m, detector_msg m = true) (logged tr).
Proof.
  induction polls as [|q rest IH]; intros st v tr H; rewrite wait_loop_eq in H.
  - destruct (_ <=? _)%nat; [|discriminate]. injection H as <- <-. constructor.
  - destruct (_ <=? _)%nat. { injection H as <- <-. constructor. }
    destruct (iteration p b s st q) as [[st'|v'] effs] eqn:E.
    + destruct (wait_loop p b s st' rest) as [[v1 tr1]|] eqn:E1;
        [|discriminate].
      injection H as <- <-. rewrite logged_app. apply Forall_app. split.
      * eapply iteration_logged; eauto.
      * eapply IH; eauto.
    + injection H as <- <-. eapply iteration_logged; eauto.
Qed.

Lemma wait_for_stable_file_logged p s g polls v tr :
  wait_for_stable_file p s g polls = Some (v, tr) →
  Forall (λ m, detector_msg m = true) (logged tr).
Proof.
  destruct g as [b|e]; simpl.
  - apply wait_loop_logged.
  - intros H. injection H as <- <-. constructor.
Qed.

(** The invariant holds at the start and every step keeps it. *)
Lemma invariant_init script is_py : invariant (init script is_py).
Proof.
  split; intros; unfold in_flight_on, workers_on, skipped, detected,
    dispatch_starts, pending_on, dispatching; simpl; try lia.
  reflexivity.
Qed.

Lemma count_log_detector (f : log_msg → bool) (ms : list log_msg) :
  (∀ m, detector_msg m = true → f m = false) →
  Forall (λ m, detector_msg m = true) ms → count_if f ms = 0%nat.
Proof.
  intros Hf H. apply count_if_none. eapply Forall_impl; [exact H|]. auto.
Qed.

Lemma invariant_on_created h src is_dir :
  invariant h → invariant (on_created h src is_dir).
Proof.
  intros [I1 I2 I3 I4]. unfold on_created.
  destruct is_dir; [now split|].
  destruct (decide (src ∈ processing_files
                            (logging h [DetectedNewFile src]))) as [Hin|Hin];
    simpl in Hin.
  - split; [exact I1|exact I2| |].
    + intros p. specialize (I3 p).
      unfold workers_on, skipped, detected in *. simpl.
      rewrite !count_if_app. simpl. destruct (bool_decide (src = p)); lia.
    + intros p. specialize (I4 p).
      unfold dispatch_starts, pending_on, workers_on in *. simpl.
      rewrite !count_if_app. simpl. lia.
  - split.
    + unfold dispatching in *. simpl. rewrite count_if_app. simpl. lia.
    + intros p. specialize (I2 p). unfold in_flight_on in *. simpl.
      rewrite count_if_app. simpl. unfold on_path at 2. simpl.
      destruct (bool_decide_reflect (src = p)) as [->|Hne]; simpl.
      * destruct (decide (p ∈ processing_files h)); [contradiction|].
        destruct (decide _) as [|Hn]; [lia|]. exfalso. apply Hn. set_solver.
      * destruct (decide (p ∈ processing_files h)) as [Hp|Hp];
          destruct (decide _) as [Hq|Hq]; try lia.
        exfalso. apply Hq. set_solver.
    + intros p. specialize (I3 p).
      unfold workers_on, skipped, detected in *. simpl.
      rewrite !count_if_app. simpl. unfold on_path at 2. simpl.
      destruct (bool_decide (src = p)); lia.
    + intros p. specialize (I4 p).
      unfold dispatch_starts, pending_on, workers_on in *. simpl.
      rewrite !count_if_app. simpl. unfold on_path at 2 4. simpl.
      destruct (bool_decide (src = p)); simpl; lia.
Qed.

Ltac counts h i w Hw ph p :=
  let y := constr:({| w_path := w_path w; w_phase := ph |}) in
  pose proof (count_if_insert (λ w, is_dispatching (w_phase w))
                (workers h) i w y Hw);
  pose proof (count_if_insert (on_path p) (workers h) i w y Hw);
  pose proof (count_if_insert (λ w, on_path p w && in_flight (w_phase w))
                (workers h) i w y Hw);
  pose proof (count_if_insert
                (λ w, on_path p w && match w_phase w with
                                     | Stabilizing | AwaitingSlot => true
                                     | _ => false
                                     end)
                (workers h) i w y Hw).

Ltac unfold_counts :=
  unfold dispatching, in_flight_on, workers_on, pending_on, detected, skipped,
    dispatch_starts in *.

(** A thread in flight moves to another phase: what the new state must
    satisfy for the invariant to carry over. *)
Lemma invariant_set_phase h h' i w ph ms :
  invariant h → workers h !! i = Some w →
  workers h' = <[i := {| w_path := w_path w; w_phase := ph |}]> (workers h) →
  log h' = log h ++ ms →
  (semaphore h' + (if is_dispatching ph then 1 else 0)
   = semaphore h + (if is_dispatching (w_phase w) then 1 else 0))%nat →
  in_flight (w_phase w) = true →
  (if in_flight ph then processing_files h' = processing_files h
   else processing_files h' = processing_files h
        ∨ processing_files h' = processing_files h ∖ {[w_path w]}) →
  (∀ p, count_if (λ m, match m with
                       | DetectedNewFile q => bool_decide (q = p)
                       | _ => false
                       end) ms = 0)%nat →
  (∀ p, count_if (λ m, match m with
                       | AlreadyProcessing q => bool_decide (q = p)
                       | _ => false
                       end) ms = 0)%nat →
  (∀ p, count_if (λ m, match m with
                       | StartingProcessing q => bool_decide (q = p)
                       | _ => false
                       end) ms
        + (if on_path p w && match ph with
                             | Stabilizing | AwaitingSlot => true
                             | _ => false
                             end then 1 else 0)
        ≤ (if on_path p w && match w_phase w with
                             | Stabilizing | AwaitingSlot => true
                             | _ => false
                             end then 1 else 0))%nat →
  invariant h'.
Proof.
  intros [I1 I2 I3 I4] Hw Hws Hlog Hsem Hfl Hreg Hd Hs Hst.
  split; [|intros p; specialize (I2 p)|intros p; specialize (I3 p)
          |intros p; specialize (I4 p); specialize (I3 p)];
    [pose (p := w_path w)|..];
    counts h i w Hw ph p; unfold_counts; rewrite ?Hws, ?Hlog; simpl in *;
    rewrite ?count_if_app, ?Hd, ?Hs.
  - lia.
  - rewrite Hfl in *. rewrite andb_true_r in *.
    unfold on_path in *. simpl in *.
    destruct (bool_decide_reflect (w_path w = p)) as [<-|Hne]; simpl in *.
    + destruct (in_flight ph).
      * rewrite Hreg. lia.
      * destruct (decide (w_path w ∈ processing_files h)); [|lia].
        destruct (decide _); lia.
    + destruct (in_flight ph).
      * rewrite Hreg. lia.
      * destruct Hreg as [->| ->]; [lia|].
        destruct (decide (p ∈ processing_files h)) as [Hp|Hp];
          destruct (decide _) as [Hq|Hq]; try lia.
        exfalso. apply Hq. set_solver.
  - unfold on_path in *. simpl in *.
    destruct (bool_decide (w_path w = p)); lia.
  - specialize (Hst p). unfold on_path in *. simpl in *.
    destruct (bool_decide (w_path w = p)); simpl in *; lia.
Qed.

Lemma invariant_step h ev h' :
  invariant h → step h ev = Some h' → invariant h'.
Proof.
  intros I H. destruct ev as [src d|i start g polls|i|i o|i]; simpl in H.
  - injection H as <-. now apply invariant_on_created.
  - destruct (workers h !! i) as [w|] eqn:Hw; [|discriminate].
    destruct (w_phase w) eqn:Hph; try discriminate.
    destruct (wait_for_stable_file _ _ _ _) as [[v effs]|] eqn:E;
      [|discriminate].
    injection H as <-. apply wait_for_stable_file_logged in E.
    unfold stability_checked. destruct v as [[|]|e].
    + eapply (invariant_set_phase h _ i w AwaitingSlot (logged effs));
        try reflexivity; try assumption; rewrite ?Hph; simpl; try reflexivity.
      * intros p. now apply count_log_detector; [intros []|].
      * intros p. now apply count_log_detector; [intros []|].
      * intros p. rewrite count_log_detector; [lia|now intros []|assumption].
    + eapply (invariant_set_phase h _ i w Finished
                (logged effs ++ [FailedToStabilize (w_path w)]));
        try assumption; rewrite ?Hph; simpl; try reflexivity.
      * now rewrite app_assoc.
      * now right.
      * intros p. rewrite count_if_app. simpl.
        rewrite count_log_detector; [lia|now intros []|assumption].
      * intros p. rewrite count_if_app. simpl.
        rewrite count_log_detector; [lia|now intros []|assumption].
      * intros p. rewrite count_if_app. simpl.
        rewrite count_log_detector; [|now intros []|assumption].
        rewrite andb_false_r. lia.
    + eapply (invariant_set_phase h _ i w (Crashed e) (logged effs));
        try reflexivity; try assumption; rewrite ?Hph; simpl; try reflexivity.
      * now left.
      * intros p. now apply count_log_detector; [intros []|].
      * intros p. now apply count_log_detector; [intros []|].
      * intros p. rewrite count_log_detector; [|now intros []|assumption].
        rewrite andb_false_r. lia.
  - destruct (workers h !! i) as [w|] eqn:Hw; [|discriminate].
    destruct (w_phase w) eqn:Hph; try discriminate.
    destruct (semaphore h) as [|n] eqn:Hs; [discriminate|].
    injection H as <-.
    eapply (invariant_set_phase h _ i w Dispatching
              [StartingProcessing (w_path w)]);
      try reflexivity; try assumption; rewrite ?Hph, ?Hs; simpl;
      try reflexivity.
    + lia.
    + intros p. unfold on_path. rewrite !andb_true_r, andb_false_r.
      destruct (bool_decide (w_path w = p)); lia.
  - destruct (workers h !! i) as [w|] eqn:Hw; [|discriminate].
    destruct (w_phase w) eqn:Hph; try discriminate.
    injection H as <-. unfold leave_with.
    destruct (subprocess_run o) as [out|e].
    + eapply (invariant_set_phase h _ i w (Unwinding None)
                (CompletedProcessing (w_path w) ::
                 if String.eqb out "" then [] else [ScriptOutput out]));
        try reflexivity; try assumption; rewrite ?Hph; simpl; try reflexivity.
      * lia.
      * intros p. now destruct (String.eqb out "").
      * intros p. now destruct (String.eqb out "").
      * intros p. rewrite !andb_false_r. now destruct (String.eqb out "").
    + eapply (invariant_set_phase h _ i w (Unwinding (Some e)) []);
        try reflexivity; try assumption; rewrite ?Hph; simpl; try reflexivity.
      * now rewrite app_nil_r.
      * lia.
  - destruct (workers h !! i) as [w|] eqn:Hw; [|discriminate].
    destruct (w_phase w) as [| | |pending| |] eqn:Hph; try discriminate.
    injection H as <-. unfold unwind.
    destruct (match pending with
              | Some e => except_clauses (w_path w) e
              | None => ([], None)
              end) as [ms propagated] eqn:E.
    assert (∀ f, (∀ m, is_outcome_report m = true → f m = false) →
                 count_if f ms = 0%nat) as Hms.
    { intros f Hf. destruct pending as [e|]; [|now injection E as <- _].
      unfold except_clauses in E.
      repeat (destruct (isinstance e _)); injection E as <- _; simpl;
        rewrite ?Hf; reflexivity. }
    eapply (invariant_set_phase h _ i w
              (match propagated with Some e => Crashed e | None => Finished end)
              ms);
      try assumption; rewrite ?Hph; simpl; try reflexivity.
    + now destruct propagated.
    + destruct propagated; now right.
    + intros p. apply Hms. now intros [].
    + intros p. apply Hms. now intros [].
    + intros p. rewrite Hms by now intros []. rewrite !andb_false_r.
      destruct propagated; simpl; rewrite ?andb_false_r; lia.
Qed.

Lemma invariant_run (evs : list event) :
  ∀ h h', invariant h → run h evs = Some h' → invariant h'.
Proof.
  induction evs as [|ev rest IH]; intros h h' I H; simpl in H.
  - now injection H as <-.
  - destruct (step h ev) as [h1|] eqn:E; [|discriminate].
    eapply IH; [|exact H]. eapply invariant_step; eauto.
Qed.

Lemma reachable_invariant (h : Handler) : reachable h → invariant h.
Proof.
  intros (s & b & evs & H). eapply invariant_run; [|exact H].
  apply invariant_init.
Qed.

Lemma on_created_skips (h : Handler) (file_path : string) :
  file_path ∈ processing_files h →
  on_created h file_path false =
  logging h [DetectedNewFile file_path; AlreadyProcessing file_path].
Proof.
  intros Hin. unfold on_created.
  destruct (decide _) as [_|Hn]; [|now destruct Hn].
  unfold logging. simpl. now rewrite <- app_assoc.
Qed.





(** [except Exception] catches whatever a worker thread can see raised. *)
Lemma isinstance_Exception (e : PyExc) : isinstance e Exception_ = true.
Proof. destruct e as [[] ? ?]; reflexivity. Qed.

Lemma except_clauses_handled (file_path : string) (e : PyExc) :
  except_clauses file_path e =
  (if isinstance e CalledProcessError_ then
     [ScriptFailed file_path (exc_stderr e)]
   else if isinstance e TimeoutExpired_ then [ScriptTimeout file_path]
   else [UnexpectedError file_path (exc_str e)], None).
Proof.
  unfold except_clauses. rewrite isinstance_Exception.
  now repeat destruct (isinstance e _).
Qed.

Lemma set_phase_lookup (h : Handler) (i : nat) (w : worker) (ph : phase) :
  workers h !! i = Some w →
  workers (set_phase h i w ph) !! i
  = Some {| w_path := w_path w; w_phase := ph |}.
Proof.
  intros Hw. simpl. apply list_lookup_insert_eq. now apply lookup_lt_Some in Hw.
Qed.

(** C8.  A dispatch ends in exactly one of four reports: completed (exit
    code 0), failed with the captured standard error (any other exit code),
    timed out, or unexpected error with the text of the exception.
    Whichever it is, the thread comes to its end without an exception,
    the slot is given back and the path is out of the registry. *)
Theorem C8_dispatch_outcome_reported_and_released
    (h : Handler) (i : nat) (w : worker) (o : proc_outcome) :
  workers h !! i = Some w → w_phase w = Dispatching →
  let report :=
    match o with
    | Exited returncode stdout stderr =>
        if returncode =? 0 then
          CompletedProcessing (w_path w) ::
          (if String.eqb stdout "" then [] else [ScriptOutput stdout])
        else [ScriptFailed (w_path w) stderr]
    | Hung => [ScriptTimeout (w_path w)]
    | SpawnFailed e =>
        if isinstance e CalledProcessError_ then
          [ScriptFailed (w_path w) (exc_stderr e)]
        else if isinstance e TimeoutExpired_ then [ScriptTimeout (w_path w)]
        else [UnexpectedError (w_path w) (exc_str e)]
    end in
  count_if is_outcome_report report = 1%nat
  ∧ ∃ h', run h [ProcessEnds i o; Cleanup i] = Some h'
      ∧ log h' = log h ++ report
      ∧ (w_path w ∉ processing_files h')
      ∧ semaphore h' = S (semaphore h)
      ∧ workers h' !! i = Some {| w_path := w_path w; w_phase := Finished |}.
Proof.
  intros Hw Hph report. split.
  { subst report. destruct o as [rc out err| |e].
    - destruct (rc =? 0); [|reflexivity]. now destruct (String.eqb out "").
    - reflexivity.
    - now repeat destruct (isinstance e _). }
  unfold run, step. rewrite Hw, Hph.
  assert (∃ pending ms,
    leave_with h i w o =
      set_phase (with_semaphore (logging h ms) (S (semaphore h))) i w
                (Unwinding pending)
    ∧ report = ms ++ match pending with
                     | Some e => fst (except_clauses (w_path w) e)
                     | None => []
                     end
    ∧ match pending with
      | Some e => snd (except_clauses (w_path w) e) = None
      | None => True
      end) as (pending & ms & -> & Hrep & Hnone).
  { unfold leave_with. subst report. destruct o as [rc out err| |e]; simpl.
    - destruct (rc =? 0).
      + exists None. eexists. split; [reflexivity|].
        split; [now rewrite app_nil_r|exact I].
      + eexists (Some _), []. split.
        { unfold logging. simpl. now rewrite app_nil_r. }
        split; reflexivity.
    - eexists (Some _), []. split.
      { unfold logging. simpl. now rewrite app_nil_r. }
      split; reflexivity.
    - exists (Some e), []. rewrite except_clauses_handled. simpl. split.
      { unfold logging. simpl. now rewrite app_nil_r. }
      split; reflexivity. }
  rewrite set_phase_lookup by exact Hw. simpl w_phase.
  eexists. split; [reflexivity|].
  unfold unwind. cbn [w_path].
  destruct (match pending with
            | Some e => except_clauses (w_path w) e
            | None => ([], None)
            end) as [ms' propagated] eqn:E.
  assert (propagated = None ∧ report = ms ++ ms') as [-> ->].
  { destruct pending as [e|].
    - rewrite E in *. simpl in *. now split.
    - injection E as <- <-. now split. }
  simpl. split; [now rewrite app_assoc|].
  split; [|split; [reflexivity|]].
  { intros Hin. apply elem_of_difference in Hin as [_ Hn].
    apply Hn. now apply elem_of_singleton. }
  rewrite list_insert_insert_eq.
  apply list_lookup_insert_eq. now apply lookup_lt_Some in Hw.
Qed.


(** The command of the example exits with code 1 and "bad format" on its
    standard error. *)
Lemma C8_witness :
  ∃ h h',
    run (init "stanza-automation.py" true)
        [OnCreated "clip.mxf" false;
         StabilityChecked 0 0 (Ok 0%Q) Scenario.stable_polls;
         Acquire 0] = Some h
    ∧ workers h !! 0%nat
      = Some {| w_path := "clip.mxf"; w_phase := Dispatching |}
    ∧ run h [ProcessEnds 0 (Exited 1 "" "bad format"); Cleanup 0] = Some h'
    ∧ log h' = log h ++ [ScriptFailed "clip.mxf" "bad format"]
    ∧ ("clip.mxf" ∉ processing_files h').
Proof.
  assert (∃ h,
    run (init "stanza-automation.py" true)
        [OnCreated "clip.mxf" false;
         StabilityChecked 0 0 (Ok 0%Q) Scenario.stable_polls;
         Acquire 0] = Some h
    ∧ workers h !! 0%nat
      = Some {| w_path := "clip.mxf"; w_phase := Dispatching |})
    as (h & Hh & Hw)
    by (eexists; split; [vm_compute; reflexivity|reflexivity]).
  destruct (C8_dispatch_outcome_reported_and_released h 0 _
              (Exited 1 "" "bad format") Hw eq_refl)
    as (_ & h' & Hrun & Hlog & Hreg & _).
  exists h, h'.
  exact (conj Hh (conj Hw (conj Hrun (conj Hlog Hreg)))).
Defined.

(** A path left in the registry with no thread in flight stays there: only
    a thread in flight on the path ever discards it. *)
Lemma leak_is_permanent (h h' : Handler) (ev : event) (p : string) :
  p ∈ processing_files h → in_flight_on p h = 0%nat →
  step h ev = Some h' →
  p ∈ processing_files h' ∧ in_flight_on p h' = 0%nat.
Proof.
  intros Hin H0 H.
  assert (∀ i w ph reg ms sem,
    workers h !! i = Some w → in_flight (w_phase w) = true →
    reg = processing_files h ∨ reg = processing_files h ∖ {[w_path w]} →
    let h1 := {| script_path := script_path h; is_python := is_python h;
                 processing_files := reg; semaphore := sem;
                 workers := <[i := {| w_path := w_path w; w_phase := ph |}]>
                              (workers h);
                 log := ms |} in
    p ∈ processing_files h1 ∧ in_flight_on p h1 = 0%nat) as Hupd.
  { intros i w ph reg ms sem Hw Hfl Hreg h1.
    assert (w_path w ≠ p) as Hne.
    { intros <-. unfold in_flight_on in H0.
      pose proof (count_if_pos
        (λ w0, on_path (w_path w) w0 && in_flight (w_phase w0))
        (workers h) i w Hw) as Hpos.
      unfold on_path in Hpos at 1.
      rewrite bool_decide_eq_true_2 in Hpos by easy.
      specialize (Hpos Hfl). lia. }
    split.
    - subst h1. simpl. destruct Hreg as [->| ->]; [assumption|].
      apply elem_of_difference. split; [assumption|].
      rewrite elem_of_singleton. congruence.
    - unfold in_flight_on in *. subst h1. simpl.
      pose proof (count_if_insert
        (λ w0, on_path p w0 && in_flight (w_phase w0)) (workers h) i w
        {| w_path := w_path w; w_phase := ph |} Hw) as Hc.
      unfold on_path in Hc at 2 4. simpl in Hc.
      rewrite bool_decide_eq_false_2 in Hc by assumption. simpl in Hc. lia. }
  destruct ev as [src d|i start g polls|i|i o|i]; simpl in H.
  - injection H as <-. unfold on_created. destruct d; [now split|].
    simpl. destruct (decide (src ∈ processing_files h)) as [Hs|Hs].
    + now split.
    + split; [simpl; apply elem_of_union; now left|].
      unfold in_flight_on in *. simpl. rewrite count_if_app, H0. simpl.
      unfold on_path. simpl. rewrite bool_decide_eq_false_2; [reflexivity|].
      intros ->. contradiction.
  - destruct (workers h !! i) as [w|] eqn:Hw; [|discriminate].
    destruct (w_phase w) eqn:Hph; try discriminate.
    destruct (wait_for_stable_file _ _ _ _) as [[v effs]|]; [|discriminate].
    injection H as <-. unfold stability_checked.
    destruct v as [[|]|e]; eapply Hupd; eauto; rewrite ?Hph; eauto.
  - destruct (workers h !! i) as [w|] eqn:Hw; [|discriminate].
    destruct (w_phase w) eqn:Hph; try discriminate.
    destruct (semaphore h) as [|n]; [discriminate|].
    injection H as <-. eapply Hupd; eauto; rewrite ?Hph; eauto.
  - destruct (workers h !! i) as [w|] eqn:Hw; [|discriminate].
    destruct (w_phase w) eqn:Hph; try discriminate.
    injection H as <-. unfold leave_with.
    destruct (subprocess_run o); eapply Hupd; eauto; rewrite ?Hph; eauto.
  - destruct (workers h !! i) as [w|] eqn:Hw; [|discriminate].
    destruct (w_phase w) as [| | |pending| |] eqn:Hph; try discriminate.
    injection H as <-. unfold unwind.
    destruct (match pending with
              | Some e => except_clauses (w_path w) e
              | None => ([], None)
              end) as [ms propagated].
    eapply Hupd; eauto; rewrite ?Hph; eauto.
Qed.

Lemma leak_is_permanent_run (evs : list event) (p : string) :
  ∀ h h', p ∈ processing_files h → in_flight_on p h = 0%nat →
  run h evs = Some h' →
  p ∈ processing_files h' ∧ in_flight_on p h' = 0%nat.
Proof.
  induction evs as [|ev rest IH]; intros h h' Hin H0 H; simpl in H.
  - now injection H as <-.
  - destruct (step h ev) as [h1|] eqn:E; [|discriminate].
    destruct (leak_is_permanent h h1 ev p Hin H0 E) as [Hin1 H1].
    exact (IH h1 h' Hin1 H1 H).
Qed.

(** The end of a unit of work, seen from one step: the thread either
    returns, and then the path is out of the registry, or it dies of an
    exception that [wait_for_stable_file] let out, and then the registry
    is as it was. *)
Lemma end_of_unit (h h' : Handler) (ev : event) (i : nat) (w w' : worker) :
  step h ev = Some h' →
  workers h !! i = Some w → in_flight (w_phase w) = true →
  workers h' !! i = Some w' → in_flight (w_phase w') = false →
  (w_phase w' = Finished ∧ w_path w ∉ processing_files h')
  ∨ ∃ start_time getctime polls e tr,
      ev = StabilityChecked i start_time getctime polls
      ∧ wait_for_stable_file (w_path w) start_time getctime polls
        = Some (Raise e, tr)
      ∧ w_phase w' = Crashed e
      ∧ processing_files h' = processing_files h.
Proof.
  intros H Hw Hfl Hw' Hfl'.
  assert (∀ j wj ph,
            workers h' = <[j := {| w_path := w_path wj; w_phase := ph |}]>
                           (workers h) →
            workers h !! j = Some wj →
            j = i ∧ wj = w ∧ w' = {| w_path := w_path w; w_phase := ph |})
    as Hidx.
  { intros j wj ph Hws Hj. destruct (decide (j = i)) as [->|Hne].
    - assert (wj = w) as -> by congruence. split; [reflexivity|].
      split; [reflexivity|]. rewrite Hws in Hw'.
      rewrite list_lookup_insert_eq in Hw' by (now apply lookup_lt_Some in Hw).
      congruence.
    - rewrite Hws, list_lookup_insert_ne in Hw' by assumption.
      congruence. }
  assert (w_path w ∉ processing_files h ∖ {[w_path w]}) as Hout.
  { intros Hin. apply elem_of_difference in Hin as [_ Hn].
    apply Hn. now apply elem_of_singleton. }
  destruct ev as [src d|j start g polls|j|j o|j]; simpl in H.
  - injection H as <-. exfalso. unfold on_created in Hw'.
    destruct d; [congruence|]. simpl in Hw'.
    destruct (decide _); simpl in Hw'; [congruence|].
    rewrite lookup_app_l in Hw' by (now apply lookup_lt_Some in Hw).
    congruence.
  - destruct (workers h !! j) as [wj|] eqn:Hj; [|discriminate].
    destruct (w_phase wj) eqn:Hph; try discriminate.
    destruct (wait_for_stable_file _ _ _ _) as [[v effs]|] eqn:E;
      [|discriminate].
    injection H as <-. unfold stability_checked in *.
    destruct v as [[|]|e];
      destruct (Hidx j wj _ eq_refl Hj) as (-> & -> & ->);
      simpl in Hfl'; try discriminate.
    + left. split; [reflexivity|exact Hout].
    + right. exists start, g, polls, e, effs. repeat split; assumption.
  - destruct (workers h !! j) as [wj|] eqn:Hj; [|discriminate].
    destruct (w_phase wj) eqn:Hph; try discriminate.
    destruct (semaphore h) as [|n]; [discriminate|]. injection H as <-.
    destruct (Hidx j wj _ eq_refl Hj) as (-> & -> & ->). discriminate.
  - destruct (workers h !! j) as [wj|] eqn:Hj; [|discriminate].
    destruct (w_phase wj) eqn:Hph; try discriminate.
    injection H as <-. unfold leave_with in *.
    destruct (subprocess_run o);
      destruct (Hidx j wj _ eq_refl Hj) as (-> & -> & ->); discriminate.
  - destruct (workers h !! j) as [wj|] eqn:Hj; [|discriminate].
    destruct (w_phase wj) as [| | |pending| |] eqn:Hph; try discriminate.
    injection H as <-. unfold unwind in *.
    assert (∃ ms, (match pending with
                   | Some e => except_clauses (w_path wj) e
                   | None => ([], None)
                   end) = (ms, None)) as [ms E].
    { destruct pending as [e|]; [|eauto].
      rewrite except_clauses_handled. eauto. }
    rewrite E in *.
    destruct (Hidx j wj _ eq_refl Hj) as (-> & -> & ->).
    left. split; [reflexivity|exact Hout].
Qed.

(** C1 fails when [os.path.getctime] raises.  The file is renamed away
    before the thread starts looking at it; line 40 is outside every [try],
    so the exception ends the thread with the path still in the registry.
    Nothing removes it afterwards, and every later creation event for that
    path is skipped. *)
Theorem C1_getctime_failure_leaks_registry_entry :
  ∃ h, run (init "stanza-automation.py" true)
           [OnCreated "upload.tmp" false;
            StabilityChecked 0 0 (Err Scenario.file_not_found) []] = Some h
    ∧ workers h = [{| w_path := "upload.tmp";
                      w_phase := Crashed Scenario.file_not_found |}]
    ∧ "upload.tmp" ∈ processing_files h
    ∧ ∀ evs h', run h evs = Some h' →
        "upload.tmp" ∈ processing_files h'
        ∧ on_created h' "upload.tmp" false =
          logging h' [DetectedNewFile "upload.tmp";
                      AlreadyProcessing "upload.tmp"].
Proof.
  eexists. split; [reflexivity|]. split; [reflexivity|].
  assert ("upload.tmp" ∈ (∅ ∪ {["upload.tmp"]} : gset string)) as Hin
    by (apply elem_of_union; right; now apply elem_of_singleton).
  split; [exact Hin|].
  intros evs h' Hrun.
  eapply leak_is_permanent_run in Hrun as [Hin' _];
    [|exact Hin|reflexivity].
  split; [exact Hin'|]. now apply on_created_skips.
Qed.

(** ** The observer *)

Import Watcher.

(** C2 is not what the code does with two folders.  Three files arrive in
    each and all six are dispatched at the same time: each handler has
    handed out three of its own five slots. *)
Lemma C2_counterexample_two_folders :
  Watcher.dispatching <$>
    Watcher.run (start_folder_watch (λ _, true) Scenario.two_folders)
                Scenario.burst
  = Some 6%nat
  ∧ (MAX_CONCURRENT_PROCESSES < 6)%nat.
Proof.
  split; [vm_compute; reflexivity|unfold MAX_CONCURRENT_PROCESSES; lia].
Qed.

(** Every watch starts with a fresh handler, and every step of the process
    is a step of one handler. *)
Lemma schedule_all_fresh path_exists folder_mapping :
  Forall (λ w, invariant (handler w))
         (start_folder_watch path_exists folder_mapping)
  ∧ (length (start_folder_watch path_exists folder_mapping)
     ≤ length folder_mapping)%nat.
Proof.
  unfold start_folder_watch.
  induction folder_mapping as [|[folder [script is_py]] rest [IH1 IH2]]; simpl.
  - split; [constructor|lia].
  - destruct (schedule_all path_exists rest) as [ws ms]. simpl in *.
    destruct (path_exists script); simpl.
    + split; [|lia]. constructor; [apply invariant_init|assumption].
    + split; [assumption|lia].
Qed.

Lemma watcher_step_invariant (ws ws' : list watch) k ev :
  Forall (λ w, invariant (handler w)) ws →
  Watcher.step ws k ev = Some ws' →
  Forall (λ w, invariant (handler w)) ws' ∧ length ws' = length ws.
Proof.
  intros I H. unfold Watcher.step in H.
  destruct (ws !! k) as [w|] eqn:Hk; [|discriminate].
  destruct (Handler.step (handler w) ev) as [h'|] eqn:E; [|discriminate].
  injection H as <-. split; [|apply length_insert].
  apply Forall_insert; [assumption|]. simpl.
  eapply invariant_step; [|exact E].
  eapply Forall_lookup_1 in I; [exact I|exact Hk].
Qed.

Lemma watcher_run_invariant (evs : list (nat * Handler.event)) :
  ∀ ws ws', Forall (λ w, invariant (handler w)) ws →
  Watcher.run ws evs = Some ws' →
  Forall (λ w, invariant (handler w)) ws' ∧ length ws' = length ws.
Proof.
  induction evs as [|[k ev] rest IH]; intros ws ws' I H; simpl in H.
  - injection H as <-. now split.
  - destruct (Watcher.step ws k ev) as [ws1|] eqn:E; [|discriminate].
    destruct (watcher_step_invariant _ _ _ _ I E) as [I1 L1].
    destruct (IH _ _ I1 H) as [I2 L2]. split; [assumption|congruence].
Qed.

Lemma dispatching_bound (ws : list watch) :
  Forall (λ w, invariant (handler w)) ws →
  (Watcher.dispatching ws ≤ MAX_CONCURRENT_PROCESSES * length ws)%nat.
Proof.
  induction 1 as [|w ws [I1 _ _ _] _ IH]; simpl; [lia|].
  unfold MAX_CONCURRENT_PROCESSES in *. lia.
Qed.

(** C2, as the code has it.  Every handler has a semaphore of its own, and
    [start_folder_watch] makes one handler per folder whose script exists.
    So at most [MAX_CONCURRENT_PROCESSES] dispatches run at a time in each
    handler, and at most that many times the number of handlers in the
    process; with one folder configured the cap is the cap of the process.
    A thread that finds all the slots of its handler taken cannot go on,
    and can as soon as one of them is free. *)
Theorem C2_cap_is_per_handler
    (path_exists : string → bool)
    (folder_mapping : list (string * (string * bool)))
    (evs : list (nat * Handler.event)) (ws : list watch) :
  Watcher.run (start_folder_watch path_exists folder_mapping) evs = Some ws →
  Forall (λ w, (Handler.dispatching (handler w) + semaphore (handler w)
                = MAX_CONCURRENT_PROCESSES)%nat) ws
  ∧ (Watcher.dispatching ws ≤ MAX_CONCURRENT_PROCESSES * length ws)%nat
  ∧ (length ws ≤ length folder_mapping)%nat
  ∧ (length ws ≤ 1 →
     Watcher.dispatching ws ≤ MAX_CONCURRENT_PROCESSES)%nat
  ∧ ∀ k w i x, ws !! k = Some w → workers (handler w) !! i = Some x →
      w_phase x = AwaitingSlot →
      (Handler.dispatching (handler w) = MAX_CONCURRENT_PROCESSES →
       Watcher.step ws k (Acquire i) = None)
      ∧ ((Handler.dispatching (handler w) < MAX_CONCURRENT_PROCESSES)%nat →
         is_Some (Watcher.step ws k (Acquire i))).
Proof.
  intros H.
  destruct (schedule_all_fresh path_exists folder_mapping) as [I0 L0].
  destruct (watcher_run_invariant _ _ _ I0 H) as [I L].
  pose proof (dispatching_bound ws I) as Hb.
  split; [|split; [exact Hb|split; [lia|split]]].
  - eapply Forall_impl; [exact I|]. intros w [I1 _ _ _]. lia.
  - intros Hl. unfold MAX_CONCURRENT_PROCESSES in *. nia.
  - intros k w i x Hk Hx Hph. unfold Watcher.step. rewrite Hk.
    eapply Forall_lookup_1 in I; [|exact Hk]. destruct I as [I1 _ _ _].
    unfold Handler.step. rewrite Hx, Hph.
    destruct (semaphore (handler w)); split; intros Hd;
      solve [reflexivity | lia | eauto].
Qed.

Lemma C2_witness :
  ∃ ws, Watcher.run (start_folder_watch (λ _, true) Scenario.one_folder)
                    Scenario.burst_of_six = Some ws
    ∧ (Watcher.dispatching ws ≤ MAX_CONCURRENT_PROCESSES * 1)%nat
    ∧ Watcher.step ws 0 (Acquire 5) = None.
Proof.
  eexists. split; [vm_compute; reflexivity|].
  match goal with |- (Watcher.dispatching ?ws ≤ _)%nat ∧ _ =>
    assert (Watcher.run (start_folder_watch (λ _, true) Scenario.one_folder)
                        Scenario.burst_of_six = Some ws) as H
      by (vm_compute; reflexivity);
    destruct (C2_cap_is_per_handler _ _ _ _ H) as (_ & Hb & _ & _ & Hq)
  end.
  split; [exact Hb|].
  refine (proj1 (Hq 0%nat _ 5%nat _ eq_refl eq_refl eq_refl) _).
  vm_compute. reflexivity.
Defined.






(** Eight files found stable at once in one folder: five are dispatched,
    the other three cannot get a slot until a dispatch ends. *)
Example eight_files_five_slots :
  (λ h, (Handler.dispatching h, semaphore h,
         Handler.step h (Acquire 5), Handler.step h (Acquire 6),
         Handler.step h (Acquire 7),
         Handler.dispatching <$>
           Handler.run h [ProcessEnds 2 (Exited 0 "done" ""); Acquire 5])) <$>
    Handler.run (init "stanza-automation.py" true) Scenario.eight_files
  = Some (5%nat, 0%nat, None, None, None, Some 5%nat).
Proof. vm_compute. reflexivity. Qed.

(** * More of what the code does *)

(** ** The detector, verdict by verdict *)

Import Evidence.

Section More.
Variable file_path : string.
Variable birth start_time : Q.
Local Abbreviation iteration := (iteration file_path birth start_time).
Local Abbreviation too_new := (too_new birth).
Local Abbreviation timed_out := (timed_out start_time).
Local Abbreviation wait_loop := (wait_loop file_path birth start_time).
Local Abbreviation settled := (settled birth start_time).

(** The ways an iteration lets the loop go on. *)
Lemma iteration_continues (st st' : StabilityState) (p : Poll)
    (effs : list effect) :
  iteration st p = (Continue st', effs) →
  (too_new p = true ∧ st' = reset_count st
   ∧ effs = [Log (FileTooNew file_path); Sleep (wait_interval st)])
  ∨ (too_new p = false ∧ timed_out p = false
     ∧ ((∃ s, getsize p = Ok s ∧ st' = observe_size st s
              ∧ effs = [GetSize (Ok s); Sleep (wait_interval st')])
        ∨ (∃ e, getsize p = Err e ∧ isinstance e OSError_ = true
                ∧ st' = reset_count st
                ∧ effs = [GetSize (Err e);
                          Log (ErrorAccessing file_path e);
                          Sleep (wait_interval st)]))).
Proof.
  unfold Detector.iteration, check_and_sleep. intros H.
  destruct (too_new p); [injection H as <- <-; now left|right].
  split; [reflexivity|].
  destruct (getsize p) as [s|e].
  - destruct (timed_out p); [discriminate|]. injection H as <- <-.
    split; [reflexivity|]. left. exists s. easy.
  - destruct (isinstance e OSError_) eqn:He; [|discriminate].
    destruct (timed_out p); [discriminate|]. injection H as <- <-.
    split; [reflexivity|]. right. exists e. easy.
Qed.

(** The ways an iteration ends the call. *)
Lemma iteration_stops (st : StabilityState) (p : Poll) (v : verdict)
    (effs : list effect) :
  iteration st p = (Stop v, effs) →
  too_new p = false
  ∧ ((v = Return false ∧ timed_out p = true
      ∧ last effs = Some (Log (TimeoutWaiting file_path)))
     ∨ (∃ e, v = Raise e ∧ getsize p = Err e
             ∧ isinstance e OSError_ = false)).
Proof.
  unfold Detector.iteration, check_and_sleep. intros H.
  destruct (too_new p); [discriminate|]. split; [reflexivity|].
  destruct (getsize p) as [s|e].
  - destruct (timed_out p); [|discriminate]. injection H as <- <-. now left.
  - destruct (isinstance e OSError_) eqn:He.
    + destruct (timed_out p); [|discriminate]. injection H as <- <-. now left.
    + injection H as <- <-. right. eauto.
Qed.


Lemma stable_from (polls : list Poll) :
  ∀ st tr, wait_loop st polls = Some (Return true, tr) →
  ∃ pre qs rest s,
    polls = pre ++ qs ++ rest
    ∧ Forall (settled s) qs
    ∧ (qs ≠ [] →
       last_size st = Z.of_N s
       ∨ ∃ q0, q0 ∈ pre ∧ (MIN_FILE_AGE <= t_gate q0 - birth)%Q
               ∧ getsize q0 = Ok s)
    ∧ (length qs = STABILITY_THRESHOLD
       ∨ pre = [] ∧ (length qs + unchanged_count st = STABILITY_THRESHOLD)%nat
         ∨ pre = [] ∧ qs = []
           ∧ (STABILITY_THRESHOLD ≤ unchanged_count st)%nat).
Proof.
  induction polls as [|p ps IH]; intros st tr H.
  - destruct (le_lt_dec STABILITY_THRESHOLD (unchanged_count st)) as [Hc|Hc];
      [|now rewrite wait_loop_nil in H].
    exists [], [], [], 0%N. repeat split; [constructor|easy|].
    right. right. easy.
  - destruct (le_lt_dec STABILITY_THRESHOLD (unchanged_count st)) as [Hc|Hc].
    { exists [], [], (p :: ps), 0%N. repeat split; [constructor|easy|].
      right. right. easy. }
    rewrite wait_loop_cons in H by assumption.
    destruct (iteration st p) as [[st'|v] effs] eqn:Hi.
    2:{ injection H as -> <-.
        apply iteration_stops in Hi as [_ [(Hv & _)|(e & Hv & _)]];
          discriminate. }
    destruct (wait_loop st' ps) as [[v tr']|] eqn:E; [|discriminate].
    injection H as -> <-.
    destruct (IH _ _ E) as (pre & qs & rest & s & -> & Hqs & Hseen & Hlen).
    apply iteration_continues in Hi
      as [(Hy & -> & _)|(Hg & Ht & [(s0 & Hs & -> & _)|(e & He & _ & -> & _)])].
    + (* too new *)
      destruct Hlen as [Hlen|[(-> & Hlen)|(-> & -> & Hlen)]].
      * exists (p :: pre), qs, rest, s. repeat split; try assumption.
        -- intros Hne. destruct (Hseen Hne) as [Hl|(q0 & Hin & Hq)];
             [now left|right]. exists q0. split; [now right|exact Hq].
        -- now left.
      * simpl in Hlen. exists [p], qs, rest, s. repeat split; try assumption.
        -- intros Hne. destruct (Hseen Hne) as [Hl|(q0 & Hin & _)];
             [now left|]. now apply elem_of_nil in Hin.
        -- left. lia.
      * simpl in Hlen. unfold STABILITY_THRESHOLD in Hlen. lia.
    + (* a size was read *)
      apply Qltb_false in Hg. apply Qltb_false in Ht.
      destruct Hlen as [Hlen|[(-> & Hlen)|(-> & -> & Hlen)]].
      * exists (p :: pre), qs, rest, s. repeat split; try assumption;
          [|now left].
        intros Hne. right. destruct (Hseen Hne) as [Hl|(q0 & Hin & Hq)].
        -- exists p. split; [now left|]. split; [assumption|].
           rewrite Hs. f_equal. unfold observe_size in Hl.
           destruct (_ =? _); simpl in Hl; lia.
        -- exists q0. split; [now right|exact Hq].
      * unfold observe_size in *.
        destruct (Z.eqb_spec (Z.of_N s0) (last_size st)) as [Heq|Hneq];
          simpl in *.
        -- destruct qs as [|q qs'].
           ++ exists [], [p], rest, s0. repeat split.
              ** constructor; [|constructor]. repeat split; assumption.
              ** intros _. left. congruence.
              ** right. left. split; [reflexivity|]. simpl in *. lia.
           ++ destruct (Hseen ltac:(easy)) as [Hl|(q0 & Hin & _)];
                [|now apply elem_of_nil in Hin].
              assert (s0 = s) as -> by lia.
              exists [], (p :: q :: qs'), rest, s. repeat split.
              ** constructor; [|assumption]. repeat split; assumption.
              ** intros _. left. congruence.
              ** right. left. split; [reflexivity|]. simpl in *. lia.
        -- exists [p], qs, rest, s. repeat split; try assumption.
           ++ intros Hne. right.
              destruct (Hseen Hne) as [Hl|(q0 & Hin & _)];
                [|now apply elem_of_nil in Hin].
              exists p. split; [now left|]. split; [assumption|].
              rewrite Hs. f_equal. lia.
           ++ left. lia.
      * unfold observe_size in Hlen.
        destruct (Z.eqb_spec (Z.of_N s0) (last_size st)) as [Heq|Hneq];
          simpl in Hlen; [|unfold STABILITY_THRESHOLD in *; lia].
        exists [], [p], rest, s0. repeat split.
        -- constructor; [|constructor]. repeat split; assumption.
        -- intros _. now left.
        -- right. left. split; [reflexivity|]. simpl. lia.
    + (* the read failed *)
      destruct Hlen as [Hlen|[(-> & Hlen)|(-> & -> & Hlen)]].
      * exists (p :: pre), qs, rest, s. repeat split; try assumption.
        -- intros Hne. destruct (Hseen Hne) as [Hl|(q0 & Hin & Hq)];
             [now left|right]. exists q0. split; [now right|exact Hq].
        -- now left.
      * simpl in Hlen. exists [p], qs, rest, s. repeat split; try assumption.
        -- intros Hne. destruct (Hseen Hne) as [Hl|(q0 & Hin & _)];
             [now left|]. now apply elem_of_nil in Hin.
        -- left. lia.
      * simpl in Hlen. unfold STABILITY_THRESHOLD in Hlen. lia.
Qed.

Lemma sleeps_app (tr tr' : list effect) :
  sleeps (tr ++ tr') = sleeps tr ++ sleeps tr'.
Proof.
  induction tr as [|[] tr IH]; simpl; [reflexivity|assumption| |assumption].
  now rewrite IH.
Qed.

Lemma gave_up_from (polls : list Poll) :
  ∀ st tr, wait_loop st polls = Some (Return false, tr) →
  ∃ pre p rest,
    polls = pre ++ p :: rest
    ∧ is_Some (running file_path birth start_time st pre)
    ∧ too_new p = false ∧ timed_out p = true
    ∧ last tr = Some (Log (TimeoutWaiting file_path)).
Proof.
  induction polls as [|p ps IH]; intros st tr H.
  - rewrite wait_loop_eq in H. now destruct (_ <=? _)%nat.
  - destruct (le_lt_dec STABILITY_THRESHOLD (unchanged_count st)) as [Hc|Hc].
    { now rewrite wait_loop_done in H. }
    rewrite wait_loop_cons in H by assumption.
    destruct (iteration st p) as [[st'|v] effs] eqn:Hi.
    + destruct (wait_loop st' ps) as [[v tr']|] eqn:E; [|discriminate].
      injection H as -> <-.
      destruct (IH _ _ E) as (pre & q & rest & -> & Hrun & Hg & Ht & Hl).
      exists (p :: pre), q, rest. split; [reflexivity|].
      split; [|split; [assumption|split; [assumption|]]].
      * rewrite running_cons.
        apply Nat.leb_gt in Hc. now rewrite Hc, Hi.
      * rewrite last_app, Hl. reflexivity.
    + injection H as -> <-.
      apply iteration_stops in Hi as [Hg [(_ & Ht & Hl)|(e & Hv & _)]];
        [|discriminate].
      exists [], p, ps. repeat split; eauto.
Qed.

Lemma raised_from (polls : list Poll) :
  ∀ st e tr, wait_loop st polls = Some (Raise e, tr) →
  ∃ p, p ∈ polls ∧ too_new p = false ∧ getsize p = Err e
       ∧ isinstance e OSError_ = false.
Proof.
  induction polls as [|p ps IH]; intros st e tr H.
  - rewrite wait_loop_eq in H. now destruct (_ <=? _)%nat.
  - destruct (le_lt_dec STABILITY_THRESHOLD (unchanged_count st)) as [Hc|Hc].
    { now rewrite wait_loop_done in H. }
    rewrite wait_loop_cons in H by assumption.
    destruct (iteration st p) as [[st'|v] effs] eqn:Hi.
    + destruct (wait_loop st' ps) as [[v tr']|] eqn:E; [|discriminate].
      injection H as -> <-.
      destruct (IH _ _ _ E) as (q & Hin & Hq). exists q.
      split; [now right|exact Hq].
    + injection H as -> <-.
      apply iteration_stops in Hi as [Hg [(Hv & _)|(e' & Hv & Hs & He)]];
        [discriminate|]. injection Hv as <-.
      exists p. split; [now left|]. easy.
Qed.

Lemma sleeps_from (polls : list Poll) :
  ∀ st v tr, wait_interval st ∈ interval_values →
  wait_loop st polls = Some (v, tr) →
  Forall (λ d, d ∈ interval_values) (sleeps tr).
Proof.
  induction polls as [|p ps IH]; intros st v tr Hin H.
  - rewrite wait_loop_eq in H. destruct (_ <=? _)%nat; [|discriminate].
    injection H as <- <-. constructor.
  - destruct (le_lt_dec STABILITY_THRESHOLD (unchanged_count st)) as [Hc|Hc].
    { rewrite wait_loop_done in H by assumption. injection H as <- <-.
      constructor. }
    rewrite wait_loop_cons in H by assumption.
    destruct (iteration st p) as [[st'|v'] effs] eqn:Hi.
    + destruct (wait_loop st' ps) as [[v1 tr']|] eqn:E; [|discriminate].
      injection H as <- <-. rewrite sleeps_app. apply Forall_app.
      apply iteration_continues in Hi
        as [(_ & -> & ->)|(_ & _ & [(s0 & _ & -> & ->)|(e & _ & _ & -> & ->)])].
      * split; [simpl; constructor; [assumption|constructor]|]. now apply (IH (reset_count st) _ _ Hin E).
      * pose proof (observe_size_interval st s0 Hin) as Hin'.
        split; [simpl; constructor; [assumption|constructor]|]. now apply (IH _ _ _ Hin' E).
      * split; [simpl; constructor; [assumption|constructor]|]. now apply (IH (reset_count st) _ _ Hin E).
    + injection H as <- <-. unfold Detector.iteration, check_and_sleep in Hi.
      destruct (too_new p); [discriminate|].
      destruct (getsize p) as [s0|e].
      * destruct (timed_out p); [|discriminate]. injection Hi as _ <-.
        constructor.
      * destruct (isinstance e OSError_).
        -- destruct (timed_out p); [|discriminate]. injection Hi as _ <-.
           constructor.
        -- injection Hi as _ <-. constructor.
Qed.

End More.

Section Verdicts.
Variable file_path : string.
Variable start_time : Q.

Local Abbreviation wait_for_stable_file :=
  (wait_for_stable_file file_path start_time).

(** X1.  A stable verdict rests on eleven reads of one size: the polls
    hold ten in a row that pass the age gate, read the same size and are
    within the time limit, and before them a poll that read that size
    first. *)
Theorem stable_verdict_sound (getctime : io Q) (polls : list Poll)
    (tr : list effect) :
  wait_for_stable_file getctime polls = Some (Return true, tr) →
  ∃ birth pre qs rest s q0,
    getctime = Ok birth
    ∧ polls = pre ++ qs ++ rest
    ∧ length qs = STABILITY_THRESHOLD
    ∧ Forall (settled birth start_time s) qs
    ∧ q0 ∈ pre
    ∧ (MIN_FILE_AGE <= t_gate q0 - birth)%Q ∧ getsize q0 = Ok s.
Proof.
  intros H. destruct getctime as [birth|e]; [|discriminate].
  apply stable_from in H
    as (pre & qs & rest & s & -> & Hqs & Hseen & Hlen).
  assert (length qs = STABILITY_THRESHOLD) as Hn.
  { destruct Hlen as [Hlen|[(_ & Hlen)|(_ & _ & Hlen)]];
      simpl in Hlen; unfold STABILITY_THRESHOLD in *; lia. }
  assert (qs ≠ []) as Hne by (intros ->; discriminate).
  destruct (Hseen Hne) as [Hl|(q0 & Hin & Hg & Hs)].
  - simpl in Hl. lia.
  - exists birth, pre, qs, rest, s, q0. easy.
Qed.

(** X2.  [wait_for_stable_file] returns [False] only on a timeout: some
    poll passed the age gate with more than [MAX_WAIT_TIME] seconds on the
    clock, the loop ran up to it, and the last thing done was to log the
    timeout. *)
Theorem gave_up_means_timeout (getctime : io Q) (polls : list Poll)
    (tr : list effect) :
  wait_for_stable_file getctime polls = Some (Return false, tr) →
  ∃ birth pre p rest,
    getctime = Ok birth
    ∧ polls = pre ++ p :: rest
    ∧ is_Some (running file_path birth start_time initial_state pre)
    ∧ (MIN_FILE_AGE <= t_gate p - birth)%Q
    ∧ (MAX_WAIT_TIME < t_check p - start_time)%Q
    ∧ last tr = Some (Log (TimeoutWaiting file_path)).
Proof.
  intros H. destruct getctime as [birth|e]; [|discriminate].
  apply gave_up_from in H as (pre & p & rest & -> & Hrun & Hg & Ht & Hl).
  exists birth, pre, p, rest. split; [reflexivity|]. split; [reflexivity|].
  split; [assumption|].
  split; [now apply Qltb_false|]. split; [now apply Qltb_true|assumption].
Qed.

(** X3.  An exception leaves [wait_for_stable_file] in two cases only:
    [os.path.getctime] raised it, before anything was done, or
    [os.path.getsize] raised it at a poll past the age gate and it is no
    [OSError]. *)
Theorem raise_means_getctime_or_foreign_error (getctime : io Q)
    (polls : list Poll) (e : PyExc) (tr : list effect) :
  wait_for_stable_file getctime polls = Some (Raise e, tr) →
  getctime = Err e ∧ tr = []
  ∨ ∃ birth p,
      getctime = Ok birth ∧ p ∈ polls
      ∧ (MIN_FILE_AGE <= t_gate p - birth)%Q
      ∧ getsize p = Err e ∧ isinstance e OSError_ = false.
Proof.
  intros H. destruct getctime as [birth|e'].
  - right. apply raised_from in H as (p & Hin & Hg & Hs & He).
    exists birth, p. split; [reflexivity|]. split; [assumption|].
    split; [now apply Qltb_false|]. easy.
  - left. injection H as -> <-. easy.
Qed.

(** X4.  Whatever the polls, every sleep of a call lasts one of the ten
    values that start at [INITIAL_CHECK_INTERVAL] and grow by half up to the
    cap: never less than a second, never more than ten. *)
Theorem sleeps_between_one_and_ten (getctime : io Q) (polls : list Poll)
    (v : verdict) (tr : list effect) :
  wait_for_stable_file getctime polls = Some (v, tr) →
  Forall (λ d, d ∈ interval_values
               ∧ (INITIAL_CHECK_INTERVAL <= d)%Q
               ∧ (d <= inject_Z (Z.of_nat STABILITY_THRESHOLD))%Q)
         (sleeps tr).
Proof.
  intros H. destruct getctime as [birth|e].
  - apply sleeps_from in H; [|repeat constructor].
    eapply Forall_impl; [exact H|]. intros d Hd. split; [assumption|].
    unfold interval_values in Hd.
    repeat (apply elem_of_cons in Hd as [->|Hd]);
      [split; vm_compute; congruence ..|].
    now apply elem_of_nil in Hd.
  - injection H as <- <-. constructor.
Qed.

End Verdicts.

Lemma stable_verdict_sound_witness :
  ∃ tr, wait_for_stable_file "clip.mxf" 0 (Ok 0%Q) Scenario.stable_polls
        = Some (Return true, tr)
    ∧ ∃ pre qs rest s q0,
        Scenario.stable_polls = pre ++ qs ++ rest
        ∧ length qs = STABILITY_THRESHOLD
        ∧ Forall (settled 0 0 s) qs ∧ q0 ∈ pre ∧ getsize q0 = Ok s.
Proof.
  eexists. split; [vm_compute; reflexivity|].
  edestruct (stable_verdict_sound "clip.mxf" 0 (Ok 0%Q) Scenario.stable_polls)
    as (birth & pre & qs & rest & s & q0 & Hb & Hp & Hn & Hq & Hin & _ & Hs).
  { vm_compute. reflexivity. }
  injection Hb as <-. exists pre, qs, rest, s, q0. easy.
Defined.

Lemma gave_up_means_timeout_witness :
  ∃ tr birth pre p rest,
    wait_for_stable_file "clip.mxf" 0 (Ok 0%Q)
      (Scenario.too_new_polls ++ [Scenario.poll_at 601 100])
    = Some (Return false, tr)
    ∧ Ok 0%Q = Ok birth
    ∧ Scenario.too_new_polls ++ [Scenario.poll_at 601 100] = pre ++ p :: rest
    ∧ (MIN_FILE_AGE <= t_gate p - birth)%Q
    ∧ (MAX_WAIT_TIME < t_check p - 0)%Q
    ∧ last tr = Some (Log (TimeoutWaiting "clip.mxf")).
Proof.
  assert (∃ tr, wait_for_stable_file "clip.mxf" 0 (Ok 0%Q)
                  (Scenario.too_new_polls ++ [Scenario.poll_at 601 100])
                = Some (Return false, tr)) as [tr Htr]
    by (eexists; vm_compute; reflexivity).
  destruct (gave_up_means_timeout "clip.mxf" 0 _ _ tr Htr)
    as (birth & pre & p & rest & Hb & Hp & _ & Hg & Ht & Hl).
  exists tr, birth, pre, p, rest.
  exact (conj Htr (conj Hb (conj Hp (conj Hg (conj Ht Hl))))).
Defined.

Lemma raise_means_getctime_or_foreign_error_witness :
  (Err Scenario.file_not_found : io Q) = Err Scenario.file_not_found
  ∧ ([] : list effect) = []
  ∨ ∃ birth p,
      (Err Scenario.file_not_found : io Q) = Ok birth
      ∧ p ∈ ([] : list Poll)
      ∧ (MIN_FILE_AGE <= t_gate p - birth)%Q
      ∧ getsize p = Err Scenario.file_not_found
      ∧ isinstance Scenario.file_not_found OSError_ = false.
Proof.
  exact (raise_means_getctime_or_foreign_error "upload.tmp" 0
           (Err Scenario.file_not_found) [] Scenario.file_not_found []
           eq_refl).
Defined.

Lemma sleeps_between_one_and_ten_witness :
  ∃ tr,
    wait_for_stable_file "clip.mxf" 0 (Ok 0%Q) Scenario.stable_polls
    = Some (Return true, tr)
    ∧ Forall (λ d, d ∈ interval_values
                   ∧ (INITIAL_CHECK_INTERVAL <= d)%Q
                   ∧ (d <= inject_Z (Z.of_nat STABILITY_THRESHOLD))%Q)
             (sleeps tr).
Proof.
  assert (∃ tr, wait_for_stable_file "clip.mxf" 0 (Ok 0%Q)
                  Scenario.stable_polls = Some (Return true, tr)) as [tr Htr]
    by (eexists; vm_compute; reflexivity).
  exists tr.
  exact (conj Htr (sleeps_between_one_and_ten "clip.mxf" 0 _ _ _ tr Htr)).
Defined.

(** ** The handler, thread by thread *)

Import Handler.
Import Threads.

(** One step, thread by thread: the threads there were are still there
    with their paths, one of them at most has moved, and only forward. *)
Lemma step_threads (h h' : Handler) (ev : event) :
  step h ev = Some h' →
  (workers h' = workers h
   ∨ (∃ src, ev = OnCreated src false
             ∧ workers h' = workers h
                            ++ [{| w_path := src; w_phase := Stabilizing |}]))
  ∨ ∃ i w ph,
      subject h ev = Some (w_path w)
      ∧ workers h !! i = Some w
      ∧ workers h' = <[i := {| w_path := w_path w; w_phase := ph |}]>
                       (workers h)
      ∧ (phase_rank (w_phase w) < phase_rank ph)%nat.
Proof.
  intros H. unfold subject.
  destruct ev as [src d|i start g polls|i|i o|i]; simpl in H.
  - injection H as <-. left. unfold on_created. destruct d; [now left|].
    simpl. destruct (decide _); [now left|right]. exists src. easy.
  - right. destruct (workers h !! i) as [w|] eqn:Hw; [|discriminate].
    destruct (w_phase w) eqn:Hph; try discriminate.
    destruct (wait_for_stable_file _ _ _ _) as [[v effs]|]; [|discriminate].
    injection H as <-. unfold stability_checked.
    destruct v as [[|]|e]; eexists i, w, _; rewrite Hph;
      (split; [reflexivity|split; [assumption|split; [reflexivity|]]]);
      simpl; lia.
  - right. destruct (workers h !! i) as [w|] eqn:Hw; [|discriminate].
    destruct (w_phase w) eqn:Hph; try discriminate.
    destruct (semaphore h); [discriminate|]. injection H as <-.
    eexists i, w, _. rewrite Hph.
    split; [reflexivity|split; [assumption|split; [reflexivity|]]].
    simpl; lia.
  - right. destruct (workers h !! i) as [w|] eqn:Hw; [|discriminate].
    destruct (w_phase w) eqn:Hph; try discriminate.
    injection H as <-. unfold leave_with.
    destruct (subprocess_run o); eexists i, w, _; rewrite Hph;
      (split; [reflexivity|split; [assumption|split; [reflexivity|]]]);
      simpl; lia.
  - right. destruct (workers h !! i) as [w|] eqn:Hw; [|discriminate].
    destruct (w_phase w) as [| | |pending| |] eqn:Hph; try discriminate.
    injection H as <-. unfold unwind.
    destruct (match pending with
              | Some e => except_clauses (w_path w) e
              | None => ([], None)
              end) as [ms [e|]]; eexists i, w, _; rewrite Hph;
      (split; [reflexivity|split; [assumption|split; [reflexivity|]]]);
      simpl; lia.
Qed.

Lemma threads_only_move_forward_step (h h' : Handler) (ev : event)
    (i : nat) (w : worker) :
  step h ev = Some h' → workers h !! i = Some w →
  ∃ w', workers h' !! i = Some w'
    ∧ w_path w' = w_path w
    ∧ (phase_rank (w_phase w) ≤ phase_rank (w_phase w'))%nat
    ∧ (in_flight (w_phase w) = false → w' = w).
Proof.
  intros H Hw.
  destruct (step_threads h h' ev H)
    as [[Hws|(src & _ & Hws)]|(j & wj & ph & _ & Hj & Hws & Hr)];
    rewrite Hws.
  - exists w. easy.
  - exists w. split; [|easy]. apply lookup_app_l_Some. exact Hw.
  - destruct (decide (j = i)) as [->|Hne].
    + assert (wj = w) as -> by congruence.
      exists {| w_path := w_path w; w_phase := ph |}.
      split; [|split; [reflexivity|split; [simpl; lia|]]].
      * apply list_lookup_insert_eq. now apply lookup_lt_Some in Hw.
      * intros Hfl. exfalso. destruct (w_phase w); simpl in *;
          try discriminate; destruct ph; simpl in Hr; lia.
    + exists w. split; [|easy]. now rewrite list_lookup_insert_ne.
Qed.

(** X6.  Through any run a thread keeps its place and its path and moves
    forward only, and a thread that has ended never changes again. *)
Theorem threads_only_move_forward (evs : list event) :
  ∀ (h h' : Handler) (i : nat) (w : worker),
  run h evs = Some h' → workers h !! i = Some w →
  ∃ w', workers h' !! i = Some w'
    ∧ w_path w' = w_path w
    ∧ (phase_rank (w_phase w) ≤ phase_rank (w_phase w'))%nat
    ∧ (in_flight (w_phase w) = false → w' = w).
Proof.
  induction evs as [|ev rest IH]; intros h h' i w H Hw; simpl in H.
  - injection H as <-. exists w. easy.
  - destruct (step h ev) as [h1|] eqn:E; [|discriminate].
    destruct (threads_only_move_forward_step _ _ _ _ _ E Hw)
      as (w1 & Hw1 & Hp1 & Hr1 & Hend1).
    destruct (IH _ _ _ _ H Hw1) as (w' & Hw' & Hp' & Hr' & Hend').
    exists w'. split; [assumption|]. split; [congruence|].
    split; [lia|]. intros Hfl. specialize (Hend1 Hfl). subst w1. auto.
Qed.

Lemma thread_move_functional p ev a b ms d s b' ms' d' s' :
  thread_move p ev a b ms d s → thread_move p ev a b' ms' d' s' →
  b' = b ∧ ms' = ms ∧ d' = d ∧ s' = s.
Proof.
  intros H1 H2.
  destruct H1; inversion H2; subst; repeat split; try congruence.
  assert (stdout0 = stdout) as -> by congruence. reflexivity.
Qed.

Lemma step_moves (h h' : Handler) (ev : event) (i : nat) :
  step h ev = Some h' → thread_of ev = Some i →
  ∃ w ph ms discards slots,
    workers h !! i = Some w
    ∧ thread_move (w_path w) ev (w_phase w) ph ms discards slots
    ∧ workers h' = <[i := {| w_path := w_path w; w_phase := ph |}]>
                     (workers h)
    ∧ log h' = log h ++ ms
    ∧ processing_files h'
      = (if discards then processing_files h ∖ {[w_path w]}
         else processing_files h)
    ∧ Z.of_nat (semaphore h') = Z.of_nat (semaphore h) + slots
    ∧ script_path h' = script_path h
    ∧ is_python h' = is_python h.
Proof.
  intros H Hi.
  destruct ev as [src d|j start g polls|j|j o|j]; simpl in H, Hi;
    try discriminate; injection Hi as ->;
    destruct (workers h !! i) as [w|] eqn:Hw; try discriminate;
    destruct (w_phase w) as [| | |pending| |] eqn:Hph; try discriminate;
    exists w; rewrite Hph.
  - destruct (wait_for_stable_file _ _ _ _) as [[v effs]|] eqn:E;
      [|discriminate].
    injection H as <-.
    unfold stability_checked. destruct v as [[|]|e].
    + eexists _, (logged effs), false, 0.
      split; [reflexivity|]. split; [now apply move_stable|].
      repeat split. simpl. lia.
    + exists Finished, (logged effs ++ [FailedToStabilize (w_path w)]),
        true, 0.
      split; [reflexivity|].
      split; [apply move_gave_up; exact E|].
      repeat split; simpl; [now rewrite app_assoc|lia].
    + exists (Crashed e), (logged effs), false, 0.
      split; [reflexivity|]. split; [apply move_died; exact E|].
      repeat split. simpl. lia.
  - destruct (semaphore h) as [|n] eqn:Hs; [discriminate|].
    injection H as <-. eexists _, _, false, (-1).
    split; [reflexivity|]. split; [apply move_got_slot|].
    repeat split. simpl. lia.
  - injection H as <-. unfold leave_with.
    destruct (subprocess_run o) as [out|e] eqn:Eo.
    + eexists _, _, false, 1.
      split; [reflexivity|]. split; [apply move_completed; exact Eo|].
      repeat split. simpl. lia.
    + eexists _, [], false, 1.
      split; [reflexivity|]. split; [apply move_raised; exact Eo|].
      repeat split; simpl; [now rewrite app_nil_r|lia].
  - injection H as <-. unfold unwind. destruct pending as [e|].
    + rewrite except_clauses_handled.
      destruct (isinstance e CalledProcessError_) eqn:E1;
        [exists Finished, [ScriptFailed (w_path w) (exc_stderr e)], true, 0
        |destruct (isinstance e TimeoutExpired_) eqn:E2;
         [exists Finished, [ScriptTimeout (w_path w)], true, 0
         |exists Finished, [UnexpectedError (w_path w) (exc_str e)], true, 0]];
        (split; [reflexivity|]);
        (split; [solve [now apply move_script_failed
                       |now apply move_script_timeout
                       |now apply move_unexpected]|]);
        repeat split; simpl; lia.
    + exists Finished, [], true, 0.
      split; [reflexivity|]. split; [apply move_returned|].
      repeat split; simpl; lia.
Qed.

Lemma thread_move_discards p ev a b ms d s :
  thread_move p ev a b ms d s → returned a = false ∧ d = returned b.
Proof. now destruct 1. Qed.

Lemma not_elem_of_discard (X : gset string) (p : string) : p ∉ X ∖ {[p]}.
Proof.
  rewrite elem_of_difference, elem_of_singleton. now intros [_ []].
Qed.

Lemma elem_of_discard_ne (X : gset string) (p q : string) :
  q ≠ p → p ∈ X ∖ {[q]} ↔ p ∈ X.
Proof.
  intros Hne. rewrite elem_of_difference, elem_of_singleton.
  split; [now intros [? _]|]. intros Hp. split; [assumption|congruence].
Qed.

Lemma elem_of_add_ne (X : gset string) (p q : string) :
  q ≠ p → p ∈ X ∪ {[q]} ↔ p ∈ X.
Proof.
  intros Hne. rewrite elem_of_union, elem_of_singleton.
  split; [intros [?|?]; [assumption|congruence]|now left].
Qed.

Lemma elem_of_add (X : gset string) (p : string) : p ∈ X ∪ {[p]}.
Proof. rewrite elem_of_union, elem_of_singleton. now right. Qed.

Lemma registry_step (h h' : Handler) (ev : event) :
  (∀ p, unreturned p h = if decide (p ∈ processing_files h) then 1 else 0)%nat →
  step h ev = Some h' →
  (∀ p, unreturned p h' = if decide (p ∈ processing_files h') then 1 else 0)%nat.
Proof.
  intros I H p. specialize (I p).
  destruct (thread_of ev) as [i|] eqn:Hi.
  - destruct (step_moves h h' ev i H Hi)
      as (w & ph & ms & d & s & Hw & Hm & Hws & _ & Hreg & _).
    apply thread_move_discards in Hm as [Hold ->].
    unfold unreturned in *. rewrite Hws.
    pose proof (count_if_insert
      (λ w0, on_path p w0 && negb (returned (w_phase w0))) (workers h) i w
      {| w_path := w_path w; w_phase := ph |} Hw) as Hc.
    simpl in Hc. rewrite Hold in Hc. unfold on_path in Hc at 2 4.
    simpl in Hc. rewrite Hreg.
    destruct (bool_decide_reflect (w_path w = p)) as [<-|Hne]; simpl in Hc.
    + destruct (returned ph); simpl in Hc.
      * rewrite decide_False by apply not_elem_of_discard.
        destruct (decide (w_path w ∈ processing_files h)); lia.
      * destruct (decide (w_path w ∈ processing_files h)); lia.
    + destruct (returned ph); [|lia].
      destruct (decide (p ∈ processing_files h)) as [Hp|Hp].
      * rewrite decide_True by now apply elem_of_discard_ne. lia.
      * rewrite decide_False by now rewrite elem_of_discard_ne. lia.
  - destruct ev as [src d| | | |]; try discriminate. simpl in H.
    injection H as <-. unfold on_created. destruct d; [exact I|]. simpl.
    destruct (decide (src ∈ processing_files h)) as [Hs|Hs]; [exact I|].
    unfold unreturned in *. simpl. rewrite count_if_app. simpl.
    unfold on_path at 2. simpl.
    destruct (bool_decide_reflect (src = p)) as [<-|Hne]; simpl.
    + rewrite decide_False in I by assumption.
      rewrite decide_True by apply elem_of_add. lia.
    + destruct (decide (p ∈ processing_files h)) as [Hp|Hp].
      * rewrite decide_True by now apply elem_of_add_ne. lia.
      * rewrite decide_False by now rewrite elem_of_add_ne. lia.
Qed.

Lemma registry_run (evs : list event) :
  ∀ h h',
  (∀ p, unreturned p h = if decide (p ∈ processing_files h) then 1 else 0)%nat →
  run h evs = Some h' →
  (∀ p, unreturned p h' = if decide (p ∈ processing_files h') then 1 else 0)%nat.
Proof.
  induction evs as [|ev rest IH]; intros h h' I H; simpl in H.
  - now injection H as <-.
  - destruct (step h ev) as [h1|] eqn:E; [|discriminate].
    exact (IH h1 h' (registry_step h h1 ev I E) H).
Qed.

(** X7.  At all times the registry holds exactly the paths that have a
    thread that has not returned from [process], and such a thread is the
    only one of its path: a path leaves the registry when its thread
    returns, and stays when its thread died. *)
Theorem registry_is_unreturned_paths (h : Handler) (p : string) :
  reachable h →
  unreturned p h = (if decide (p ∈ processing_files h) then 1 else 0)%nat.
Proof.
  intros (s & b & evs & H).
  now apply (registry_run evs (init s b) h).
Qed.

Lemma thread_move_reports (p q : string) ev a b ms d s :
  thread_move q ev a b ms d s →
  (starts_in p ms + (if bool_decide (q = p) && report_due a then 1 else 0)
   = reports_in p ms + (if bool_decide (q = p) && report_due b then 1 else 0))%nat.
Proof.
  unfold starts_in, reports_in.
  destruct 1 as [i st g polls effs E|i st g polls effs E
                |i st g polls effs e E|i|i o out E|i o e E|i
                |i e E1|i e E1 E2|i e E1 E2];
    try apply wait_for_stable_file_logged in E; simpl;
    rewrite ?count_if_app; simpl;
    rewrite ?(count_log_detector _ (logged effs)) by
      (assumption || (intros []; simpl; congruence));
    rewrite ?andb_false_r, ?andb_true_r; simpl;
    try reflexivity.
  - repeat case_bool_decide; simpl; lia.
  - destruct (String.eqb out ""); simpl; repeat case_bool_decide; simpl; lia.
  - repeat case_bool_decide; simpl; lia.
  - repeat case_bool_decide; simpl; lia.
  - repeat case_bool_decide; simpl; lia.
Qed.

Lemma reports_step (h h' : Handler) (ev : event) (p : string) :
  (dispatch_starts p h = reports p h + unreported p h)%nat →
  step h ev = Some h' →
  (dispatch_starts p h' = reports p h' + unreported p h')%nat.
Proof.
  intros I H. unfold dispatch_starts, reports, reports_in, unreported in *.
  destruct (thread_of ev) as [i|] eqn:Hi.
  - destruct (step_moves h h' ev i H Hi)
      as (w & ph & ms & d & s & Hw & Hm & Hws & Hlog & _).
    apply (thread_move_reports p) in Hm.
    unfold starts_in, reports_in in Hm.
    rewrite Hws, Hlog, !count_if_app.
    pose proof (count_if_insert
      (λ w0, on_path p w0 && report_due (w_phase w0)) (workers h) i w
      {| w_path := w_path w; w_phase := ph |} Hw) as Hc.
    unfold on_path in Hc at 2 4. simpl in Hc. lia.
  - destruct ev as [src d| | | |]; try discriminate. simpl in H.
    injection H as <-. unfold on_created. destruct d; [exact I|]. simpl.
    destruct (decide (src ∈ processing_files h)) as [Hs|Hs]; simpl;
      rewrite !count_if_app; simpl; rewrite ?andb_false_r; lia.
Qed.

(** X8.  At all times the dispatches started for a path are those
    reported in the log (completed, failed, timed out, unexpected error)
    and those of the threads that are still to report: no dispatch is
    reported twice and no report is made without a dispatch. *)
Theorem every_dispatch_reported_once (h : Handler) (p : string) :
  reachable h →
  (dispatch_starts p h = reports p h + unreported p h)%nat.
Proof.
  intros (s & b & evs & H).
  assert (dispatch_starts p (init s b)
          = reports p (init s b) + unreported p (init s b))%nat as I
    by reflexivity.
  revert H I. generalize (init s b) as h0.
  induction evs as [|ev rest IH]; intros h0 H I; simpl in H.
  - now injection H as <-.
  - destruct (step h0 ev) as [h1|] eqn:E; [|discriminate].
    exact (IH h1 H (reports_step h0 h1 ev p I E)).
Qed.

(** X9.  A thread waiting for a slot can take one whenever fewer than
    [MAX_CONCURRENT_PROCESSES] dispatches are running: no slot is ever
    lost. *)
Theorem slot_granted_below_capacity (h : Handler) (i : nat) (w : worker) :
  reachable h → workers h !! i = Some w → w_phase w = AwaitingSlot →
  (dispatching h < MAX_CONCURRENT_PROCESSES)%nat →
  ∃ h', step h (Acquire i) = Some h'
        ∧ dispatching h' = S (dispatching h)
        ∧ workers h' !! i = Some {| w_path := w_path w; w_phase := Dispatching |}.
Proof.
  intros Hr Hw Hph Hlt. apply reachable_invariant in Hr as [I _ _ _].
  simpl. rewrite Hw, Hph.
  destruct (semaphore h) as [|n] eqn:Hs; [lia|].
  eexists. split; [reflexivity|]. split.
  - unfold dispatching. simpl.
    pose proof (count_if_insert (λ w0, is_dispatching (w_phase w0))
      (workers h) i w {| w_path := w_path w; w_phase := Dispatching |} Hw)
      as Hc.
    simpl in Hc. rewrite Hph in Hc. simpl in Hc. lia.
  - simpl. apply list_lookup_insert_eq. now apply lookup_lt_Some in Hw.
Qed.

Lemma thread_move_elsewhere (p q : string) ev a b ms d s :
  thread_move p ev a b ms d s → q ≠ p →
  starts_in q ms = 0%nat ∧ reports_in q ms = 0%nat.
Proof.
  intros Hm Hne. unfold starts_in, reports_in.
  destruct Hm as [i st g polls effs E|i st g polls effs E
                  |i st g polls effs e E|i|i o out E|i o e E|i
                  |i e E1|i e E1 E2|i e E1 E2];
    try apply wait_for_stable_file_logged in E; simpl;
    rewrite ?count_if_app; simpl;
    rewrite ?(count_log_detector _ (logged effs)) by
      (assumption || (intros []; simpl; congruence));
    try (split; reflexivity).
  - now rewrite bool_decide_eq_false_2 by congruence.
  - rewrite bool_decide_eq_false_2 by congruence.
    now destruct (String.eqb out "").
  - now rewrite bool_decide_eq_false_2 by congruence.
  - now rewrite bool_decide_eq_false_2 by congruence.
  - now rewrite bool_decide_eq_false_2 by congruence.
Qed.

(** X10.  A step about one path leaves every other path as it was: its
    place in the registry, its threads, and the counts of its dispatches
    and reports. *)
Theorem other_paths_are_untouched (h h' : Handler) (ev : event)
    (p q : string) :
  step h ev = Some h' → subject h ev = Some p → q ≠ p →
  (q ∈ processing_files h' ↔ q ∈ processing_files h)
  ∧ (∀ j w, workers h !! j = Some w → w_path w = q →
            workers h' !! j = Some w)
  ∧ in_flight_on q h' = in_flight_on q h
  ∧ dispatch_starts q h' = dispatch_starts q h
  ∧ reports q h' = reports q h.
Proof.
  intros H Hp Hne. destruct (thread_of ev) as [i|] eqn:Hi.
  - destruct (step_moves h h' ev i H Hi)
      as (w & ph & ms & d & s & Hw & Hm & Hws & Hlog & Hreg & _).
    assert (w_path w = p) as Hwp.
    { destruct ev; simpl in Hi, Hp; try discriminate;
        injection Hi as ->; rewrite Hw in Hp; simpl in Hp; congruence. }
    rewrite Hwp in *.
    destruct (thread_move_elsewhere p q _ _ _ _ _ _ Hm Hne) as [Hs Hr].
    split; [|split; [|split; [|split]]].
    + rewrite Hreg. destruct d; [|reflexivity].
      apply elem_of_discard_ne. congruence.
    + intros j wj Hj Hq. rewrite Hws. rewrite list_lookup_insert_ne; [easy|].
      intros <-. congruence.
    + unfold in_flight_on. rewrite Hws.
      pose proof (count_if_insert
        (λ w0, on_path q w0 && in_flight (w_phase w0)) (workers h) i w
        {| w_path := p; w_phase := ph |} Hw) as Hc.
      unfold on_path in Hc at 2 4. simpl in Hc. rewrite Hwp in Hc.
      rewrite bool_decide_eq_false_2 in Hc by congruence. simpl in Hc. lia.
    + unfold dispatch_starts in *. rewrite Hlog, count_if_app.
      unfold starts_in in Hs. rewrite Hs. lia.
    + unfold reports, reports_in in *. rewrite Hlog, count_if_app, Hr. lia.
  - destruct ev as [src d| | | |]; try discriminate. simpl in H, Hp.
    injection Hp as ->. injection H as <-. unfold on_created.
    destruct d; [easy|]. simpl.
    destruct (decide (p ∈ processing_files h)) as [Hs|Hs]; simpl.
    + split; [reflexivity|]. split; [easy|]. split; [reflexivity|].
      unfold dispatch_starts, reports, reports_in. simpl.
      rewrite !count_if_app. simpl. split; lia.
    + split; [apply elem_of_add_ne; congruence|].
      split; [intros j w Hj _; now apply lookup_app_l_Some|].
      unfold in_flight_on, dispatch_starts, reports, reports_in. simpl.
      rewrite !count_if_app. simpl. unfold on_path at 2. simpl.
      rewrite bool_decide_eq_false_2 by congruence. simpl.
      split; [lia|]. split; lia.
Qed.

(** X5.  Every step of a thread is one of the ten moves of [thread_move],
    the one move that the event and the phase of the thread allow.  The
    move fixes the phase the thread goes to, the lines the step logs (those
    of the call of [wait_for_stable_file] on what the event observed, the
    start of the dispatch, its completion with the output of the child, or
    the report of the [except] clause that matches the exception), whether
    the path leaves the registry, and how the count of free slots changes.
    Nothing else of the handler changes: the other threads, the script and
    its kind stay as they were. *)
Theorem thread_moves_by_the_state_machine (h h' : Handler) (ev : event)
    (i : nat) :
  step h ev = Some h' → thread_of ev = Some i →
  ∃ w ph ms discards slots,
    workers h !! i = Some w
    ∧ thread_move (w_path w) ev (w_phase w) ph ms discards slots
    ∧ (∀ ph' ms' discards' slots',
         thread_move (w_path w) ev (w_phase w) ph' ms' discards' slots' →
         ph' = ph ∧ ms' = ms ∧ discards' = discards ∧ slots' = slots)
    ∧ workers h' = <[i := {| w_path := w_path w; w_phase := ph |}]>
                     (workers h)
    ∧ log h' = log h ++ ms
    ∧ processing_files h'
      = (if discards then processing_files h ∖ {[w_path w]}
         else processing_files h)
    ∧ Z.of_nat (semaphore h') = Z.of_nat (semaphore h) + slots
    ∧ script_path h' = script_path h
    ∧ is_python h' = is_python h.
Proof.
  intros H Hi.
  destruct (step_moves h h' ev i H Hi)
    as (w & ph & ms & d & s & Hw & Hm & Hrest).
  exists w, ph, ms, d, s.
  split; [exact Hw|]. split; [exact Hm|]. split; [|exact Hrest].
  intros ph' ms' d' s' Hm'.
  exact (thread_move_functional _ _ _ _ _ _ _ _ _ _ _ Hm Hm').
Qed.

Lemma thread_moves_by_the_state_machine_witness :
  ∃ h h',
    run (init "stanza-automation.py" true)
        (Scenario.found_stable 0 "clip.mxf") = Some h
    ∧ step h (Acquire 0) = Some h'
    ∧ ∃ w ph ms discards slots,
        workers h !! 0%nat = Some w
        ∧ thread_move (w_path w) (Acquire 0) (w_phase w) ph ms discards slots
        ∧ (∀ ph' ms' discards' slots',
             thread_move (w_path w) (Acquire 0) (w_phase w)
                         ph' ms' discards' slots' →
             ph' = ph ∧ ms' = ms ∧ discards' = discards ∧ slots' = slots)
        ∧ workers h' = <[0%nat := {| w_path := w_path w; w_phase := ph |}]>
                         (workers h)
        ∧ log h' = log h ++ ms
        ∧ processing_files h'
          = (if discards then processing_files h ∖ {[w_path w]}
             else processing_files h)
        ∧ Z.of_nat (semaphore h') = Z.of_nat (semaphore h) + slots
        ∧ script_path h' = script_path h
        ∧ is_python h' = is_python h.
Proof.
  assert (∃ h h',
    run (init "stanza-automation.py" true)
        (Scenario.found_stable 0 "clip.mxf") = Some h
    ∧ step h (Acquire 0) = Some h') as (h & h' & Hh & Hs)
    by (eexists; eexists; split; vm_compute; reflexivity).
  exists h, h'.
  exact (conj Hh (conj Hs
           (thread_moves_by_the_state_machine h h' (Acquire 0) 0 Hs eq_refl))).
Defined.

Lemma threads_only_move_forward_witness :
  ∃ h h' w',
    run (init "stanza-automation.py" true) [OnCreated "clip.mxf" false]
    = Some h
    ∧ run h (tail Scenario.repeated_events) = Some h'
    ∧ workers h' !! 0%nat = Some w'
    ∧ w_path w' = "clip.mxf"
    ∧ (phase_rank Stabilizing ≤ phase_rank (w_phase w'))%nat.
Proof.
  assert (∃ h h',
    run (init "stanza-automation.py" true) [OnCreated "clip.mxf" false]
    = Some h
    ∧ run h (tail Scenario.repeated_events) = Some h'
    ∧ workers h !! 0%nat
      = Some {| w_path := "clip.mxf"; w_phase := Stabilizing |})
    as (h & h' & Hh & Hrun & Hw)
    by (eexists; eexists; split; [|split]; vm_compute; reflexivity).
  destruct (threads_only_move_forward _ h h' 0 _ Hrun Hw)
    as (w' & Hw' & Hp & Hr & _).
  exists h, h', w'. exact (conj Hh (conj Hrun (conj Hw' (conj Hp Hr)))).
Defined.

Lemma registry_is_unreturned_paths_witness :
  ∃ h,
    run (init "stanza-automation.py" true) Scenario.repeated_events = Some h
    ∧ unreturned "clip.mxf" h
      = (if decide ("clip.mxf" ∈ processing_files h) then 1 else 0)%nat.
Proof.
  assert (∃ h, run (init "stanza-automation.py" true)
                 Scenario.repeated_events = Some h) as [h Hh]
    by (eexists; vm_compute; reflexivity).
  exists h. split; [exact Hh|].
  apply registry_is_unreturned_paths.
  exists "stanza-automation.py", true, Scenario.repeated_events. exact Hh.
Defined.

Lemma every_dispatch_reported_once_witness :
  ∃ h,
    run (init "stanza-automation.py" true)
        (Scenario.repeated_events
         ++ [ProcessEnds 0 (Exited 1 "" "bad format")]) = Some h
    ∧ (dispatch_starts "clip.mxf" h
       = reports "clip.mxf" h + unreported "clip.mxf" h)%nat.
Proof.
  assert (∃ h, run (init "stanza-automation.py" true)
                 (Scenario.repeated_events
                  ++ [ProcessEnds 0 (Exited 1 "" "bad format")]) = Some h)
    as [h Hh] by (eexists; vm_compute; reflexivity).
  exists h. split; [exact Hh|].
  apply every_dispatch_reported_once.
  eexists "stanza-automation.py", true, _. exact Hh.
Defined.

Lemma slot_granted_below_capacity_witness :
  ∃ h h',
    run (init "stanza-automation.py" true)
        (Scenario.found_stable 0 "clip.mxf") = Some h
    ∧ step h (Acquire 0) = Some h'
    ∧ dispatching h' = S (dispatching h)
    ∧ workers h' !! 0%nat
      = Some {| w_path := "clip.mxf"; w_phase := Dispatching |}.
Proof.
  assert (∃ h,
    run (init "stanza-automation.py" true)
        (Scenario.found_stable 0 "clip.mxf") = Some h
    ∧ workers h !! 0%nat
      = Some {| w_path := "clip.mxf"; w_phase := AwaitingSlot |}
    ∧ (dispatching h < MAX_CONCURRENT_PROCESSES)%nat)
    as (h & Hh & Hw & Hlt)
    by (eexists; split; [|split];
        [vm_compute; reflexivity|vm_compute; reflexivity|vm_compute; lia]).
  destruct (slot_granted_below_capacity h 0 _
              (ex_intro _ _ (ex_intro _ _ (ex_intro _ _ Hh))) Hw eq_refl Hlt)
    as (h' & Hs & Hd & Hw').
  exists h, h'. exact (conj Hh (conj Hs (conj Hd Hw'))).
Defined.

Lemma other_paths_are_untouched_witness :
  ∃ h h',
    run (init "stanza-automation.py" true)
        [OnCreated "a.mxf" false; OnCreated "b.mxf" false] = Some h
    ∧ step h (StabilityChecked 0 0 (Ok 0%Q) Scenario.too_new_polls
              ) = None
    ∧ step h (StabilityChecked 0 0 (Ok 0%Q)
                (Scenario.too_new_polls ++ [Scenario.poll_at 601 100]))
      = Some h'
    ∧ ("b.mxf" ∈ processing_files h' ↔ "b.mxf" ∈ processing_files h)
    ∧ in_flight_on "b.mxf" h' = in_flight_on "b.mxf" h
    ∧ dispatch_starts "b.mxf" h' = dispatch_starts "b.mxf" h
    ∧ reports "b.mxf" h' = reports "b.mxf" h.
Proof.
  assert (∃ h h',
    run (init "stanza-automation.py" true)
        [OnCreated "a.mxf" false; OnCreated "b.mxf" false] = Some h
    ∧ step h (StabilityChecked 0 0 (Ok 0%Q) Scenario.too_new_polls) = None
    ∧ step h (StabilityChecked 0 0 (Ok 0%Q)
                (Scenario.too_new_polls ++ [Scenario.poll_at 601 100]))
      = Some h'
    ∧ subject h (StabilityChecked 0 0 (Ok 0%Q)
                   (Scenario.too_new_polls ++ [Scenario.poll_at 601 100]))
      = Some "a.mxf")
    as (h & h' & Hh & Hnone & Hs & Hsub)
    by (eexists; eexists; split; [|split; [|split]]; vm_compute; reflexivity).
  destruct (other_paths_are_untouched h h' _ "a.mxf" "b.mxf" Hs Hsub)
    as (Hreg & _ & Hfl & Hst & Hrep); [discriminate|].
  exists h, h'.
  exact (conj Hh (conj Hnone (conj Hs (conj Hreg (conj Hfl (conj Hst Hrep)))))).
Defined.

Lemma count_if_find {A} (f : A → bool) (l : list A) :
  (0 < count_if f l)%nat → ∃ i x, l !! i = Some x ∧ f x = true.
Proof.
  induction l as [|x l IH]; simpl; [lia|].
  destruct (f x) eqn:E.
  - intros _. now exists 0%nat, x.
  - intros Hpos. destruct IH as (i & y & Hi & Hy); [lia|].
    now exists (S i), y.
Qed.

(** X20.  A thread that waits for a slot is never stuck: when no slot is
    free, some thread is inside its dispatch, and as soon as the process
    of any such thread ends, whatever its outcome, the waiting thread can
    take the slot. *)
Theorem waiting_thread_is_not_stuck (h : Handler) (i : nat) (w : worker) :
  reachable h → workers h !! i = Some w → w_phase w = AwaitingSlot →
  semaphore h = 0%nat →
  (∃ j wj, workers h !! j = Some wj ∧ w_phase wj = Dispatching)
  ∧ ∀ j wj o,
      workers h !! j = Some wj → w_phase wj = Dispatching →
      ∃ h1 h2,
        step h (ProcessEnds j o) = Some h1
        ∧ step h1 (Acquire i) = Some h2
        ∧ workers h2 !! i
          = Some {| w_path := w_path w; w_phase := Dispatching |}.
Proof.
  intros Hr Hw Hph Hsem. apply reachable_invariant in Hr as [I _ _ _].
  split.
  - destruct (count_if_find (λ w0, is_dispatching (w_phase w0)) (workers h))
      as (j & wj & Hj & Hd).
    { unfold dispatching in I. unfold MAX_CONCURRENT_PROCESSES in I. lia. }
    exists j, wj. split; [assumption|]. now destruct (w_phase wj).
  - intros j wj o Hj Hd.
    assert (j ≠ i) as Hne by (intros ->; congruence).
    simpl. rewrite Hj, Hd. eexists _, _. split; [reflexivity|].
    assert (workers (leave_with h j wj o) !! i = Some w) as Hw1.
    { unfold leave_with. destruct (subprocess_run o); simpl;
        now rewrite list_lookup_insert_ne. }
    assert (semaphore (leave_with h j wj o) = S (semaphore h)) as Hs1.
    { unfold leave_with. now destruct (subprocess_run o). }
    rewrite Hw1, Hph, Hs1. split; [reflexivity|]. simpl.
    apply list_lookup_insert_eq. now apply lookup_lt_Some in Hw1.
Qed.

Lemma waiting_thread_is_not_stuck_witness :
  ∃ h h1 h2,
    run (init "stanza-automation.py" true)
        (map snd Scenario.burst_of_six) = Some h
    ∧ step h (ProcessEnds 2 (Exited 1 "" "bad format")) = Some h1
    ∧ step h1 (Acquire 5) = Some h2
    ∧ workers h2 !! 5%nat
      = Some {| w_path := "f6.mxf"; w_phase := Dispatching |}.
Proof.
  assert (∃ h,
    run (init "stanza-automation.py" true)
        (map snd Scenario.burst_of_six) = Some h
    ∧ workers h !! 5%nat
      = Some {| w_path := "f6.mxf"; w_phase := AwaitingSlot |}
    ∧ semaphore h = 0%nat
    ∧ workers h !! 2%nat
      = Some {| w_path := "f3.mxf"; w_phase := Dispatching |})
    as (h & Hh & Hw & Hsem & Hj)
    by (eexists; split; [|split; [|split]]; vm_compute; reflexivity).
  destruct (waiting_thread_is_not_stuck h 5 _
              (ex_intro _ _ (ex_intro _ _ (ex_intro _ _ Hh))) Hw eq_refl Hsem)
    as [_ Hgo].
  destruct (Hgo 2%nat _ (Exited 1 "" "bad format") Hj eq_refl)
    as (h1 & h2 & H1 & H2 & Hw2).
  exists h, h1, h2. exact (conj Hh (conj H1 (conj H2 Hw2))).
Defined.

(** ** The folders watched *)

Import Watcher.

Lemma schedule_all_log (path_exists : string → bool)
    (folder_mapping : list (string * (string * bool))) :
  snd (schedule_all path_exists folder_mapping)
  = map (λ e, if path_exists e.2.1 then WatchingFolder e.1
              else ScriptNotFound e.2.1) folder_mapping.
Proof.
  induction folder_mapping as [|[f [s b]] rest IH]; [reflexivity|].
  simpl. destruct (schedule_all path_exists rest) as [ws ms]. simpl in IH.
  destruct (path_exists s); simpl; now rewrite IH.
Qed.

Lemma schedule_all_watches (path_exists : string → bool)
    (folder_mapping : list (string * (string * bool))) :
  fst (schedule_all path_exists folder_mapping)
  = map (λ e, {| folder := e.1; handler := init e.2.1 e.2.2 |})
        (filter (λ e, path_exists e.2.1 = true) folder_mapping).
Proof.
  induction folder_mapping as [|[f [s b]] rest IH]; [reflexivity|].
  simpl. destruct (schedule_all path_exists rest) as [ws ms]. simpl in IH.
  rewrite filter_cons. cbn [fst snd].
  destruct (decide (path_exists s = true)) as [E|E].
  - rewrite E. simpl. now rewrite IH.
  - apply not_true_is_false in E. now rewrite E.
Qed.

(** X11.  [start_folder_watch] goes through the whole mapping: a folder
    whose script exists is watched by a fresh handler, a folder whose
    script is missing is logged and not watched. *)
Theorem missing_script_skips_its_folder_only (path_exists : string → bool)
    (folder_mapping : list (string * (string * bool)))
    (watched : string) (script : string) (python : bool) :
  (watched, (script, python)) ∈ folder_mapping →
  if path_exists script then
    {| folder := watched; handler := init script python |}
      ∈ start_folder_watch path_exists folder_mapping
    ∧ WatchingFolder watched ∈ snd (schedule_all path_exists folder_mapping)
  else
    ScriptNotFound script ∈ snd (schedule_all path_exists folder_mapping)
    ∧ (NoDup (map fst folder_mapping) →
       watched ∉ map folder (start_folder_watch path_exists folder_mapping)).
Proof.
  intros Hin. unfold start_folder_watch.
  rewrite schedule_all_log, schedule_all_watches.
  destruct (path_exists script) eqn:E.
  - split.
    + apply (list_elem_of_fmap_2
               (λ e, {| folder := e.1; handler := init e.2.1 e.2.2 |})
               _ (watched, (script, python))).
      apply list_elem_of_filter. now split.
    + apply (list_elem_of_fmap_2'
               (λ e, if path_exists e.2.1 then WatchingFolder e.1
                     else ScriptNotFound e.2.1) _ (watched, (script, python)));
        [assumption|]. simpl. now rewrite E.
  - split.
    + apply (list_elem_of_fmap_2'
               (λ e, if path_exists e.2.1 then WatchingFolder e.1
                     else ScriptNotFound e.2.1) _ (watched, (script, python)));
        [assumption|]. simpl. now rewrite E.
    + intros Hnd Hw. apply list_elem_of_fmap in Hw as (w & Hf & Hw).
      apply list_elem_of_fmap in Hw as ([f [s b]] & -> & Hw).
      apply list_elem_of_filter in Hw as [He Hw]. simpl in *. subst f.
      assert ((script, python) = (s, b)) as [= <- <-]; [|congruence].
      clear -Hnd Hin Hw. induction folder_mapping as [|[f v] rest IH];
        [now apply elem_of_nil in Hin|].
      simpl in Hnd. apply NoDup_cons in Hnd as [Hnot Hnd].
      apply elem_of_cons in Hin as [Hin|Hin], Hw as [Hw|Hw].
      * congruence.
      * injection Hin as <- <-. destruct Hnot.
        apply (list_elem_of_fmap_2 fst _ (watched, (s, b))). exact Hw.
      * injection Hw as <- <-. destruct Hnot.
        apply (list_elem_of_fmap_2 fst _ (watched, (script, python))).
        exact Hin.
      * now apply IH.
Qed.

Lemma missing_script_skips_its_folder_only_witness :
  ScriptNotFound "archive.ps1"
    ∈ snd (schedule_all (String.eqb "caption.py") Scenario.two_folders)
  ∧ (NoDup (map fst Scenario.two_folders) →
     "D:\SOURCE_B"
       ∉ map folder (start_folder_watch (String.eqb "caption.py")
                       Scenario.two_folders)).
Proof.
  apply (missing_script_skips_its_folder_only (String.eqb "caption.py")
           Scenario.two_folders "D:\SOURCE_B" "archive.ps1" false).
  apply list_elem_of_further, list_elem_of_here.
Defined.


(** ** The script: where a file belongs *)

Import Automation.

Lemma lower_app (a b : string) : lower (a +:+ b) = lower a +:+ lower b.
Proof. induction a as [|c a IH]; simpl; [reflexivity|]. now rewrite IH. Qed.

(** X12.  For a file anywhere under the folder that the watchdog
    watches, [main] picks the location by the name alone: PMC_STANZA_TST
    when the part of the path below the folder contains pmc_stanza_tst in
    any case, STANZA_TRANSIT otherwise. *)
Theorem location_in_watched_folder (rel : string) :
  ∀ watched script, (watched, script) ∈ Scenario.one_folder →
  location_of (watched +:+ "\" +:+ rel)
  = Some (if contains "pmc_stanza_tst" (lower rel) then
            ("pmc_stanza_tst",
             ("PMC_STANZA_TST", "4718bd34-110a-4997-a107-35a42efc5dc3"))
          else
            ("stanza_transit",
             ("STANZA_TRANSIT", "adec4715-c87c-4d4c-9e32-da86b4d4d7a9"))).
Proof.
  intros watched script Hin. apply list_elem_of_singleton in Hin.
  injection Hin as -> _. unfold location_of.
  rewrite !lower_app.
  change (lower "D:\STANZA_SHARE\STANZA_TRANSIT\AUTOMATION\SOURCE")
    with "d:\stanza_share\stanza_transit\automation\source".
  change (lower "\") with "\".
  simpl. change ("" +:+ lower rel) with (lower rel).
  now destruct (contains "pmc_stanza_tst" (lower rel)).
Qed.

Lemma location_in_watched_folder_witness :
  location_of ("D:\STANZA_SHARE\STANZA_TRANSIT\AUTOMATION\SOURCE" +:+ "\"
               +:+ "PMC_STANZA_TST_news.mxf")
  = Some (if contains "pmc_stanza_tst" (lower "PMC_STANZA_TST_news.mxf") then
            ("pmc_stanza_tst",
             ("PMC_STANZA_TST", "4718bd34-110a-4997-a107-35a42efc5dc3"))
          else
            ("stanza_transit",
             ("STANZA_TRANSIT", "adec4715-c87c-4d4c-9e32-da86b4d4d7a9"))).
Proof.
  apply (location_in_watched_folder "PMC_STANZA_TST_news.mxf" _
           ("D:\STANZA_SHARE\POSTMAMS\scripts\STANZA-AUTOMATION\stanza-automation.py",
            true)).
  apply list_elem_of_here.
Defined.

(** ** The script: one request after another *)

Ltac unfold_script :=
  unfold mbind, script_bind, mret, script_ret, get_state, print_curl_command,
    act, send, raise, lift, set_jwt_token, set_LOCATION_ALIAS, bearer in *;
  cbn [jwt_token LOCATION_ALIAS replies done final exit_code] in *.

Ltac quiet :=
  cbn;
  repeat match goal with
         | |- Forall _ (_ :: _) => constructor
         | |- Forall _ [] => constructor
         end;
  cbn; try exact I;
  try (right; apply list_elem_of_here); try (left; reflexivity).

Ltac found :=
  cbn; rewrite <- ?app_assoc; eexists;
  (split; [reflexivity|]);
  cbn [final done replies jwt_token LOCATION_ALIAS exit_code];
  (split; [reflexivity|]);
  (split; [quiet|]);
  repeat split; try done;
  try (intros ? ? [= <- <-]; cbn; rewrite ?truthy_none; done).

Ltac parts := repeat match goal with |- _ ∧ _ => split end.

Section Stages.
Context {obj exc : Type} `{Python obj exc}.
Variable PROCESS_DATE : string.
Variable basename : string → string.
Variable splitext_root : string → string.

Local Abbreviation create_project :=
  (create_project PROCESS_DATE basename splitext_root).
Local Abbreviation main := (main PROCESS_DATE basename splitext_root).

Lemma set_project_status_stage (project_id : obj) (s : state obj exc) :
  one_request (SetStatus (format project_id)) (λ ok _, ok) (jwt_token s) s
    (set_project_status project_id s)
  ∧ jwt_token (final (set_project_status project_id s)) = jwt_token s.
Proof.
  unfold one_request, set_project_status. unfold_script.
  destruct s as [tok al [|[b|e|e] rest] dn]; (split; [found|reflexivity]).
Qed.

Lemma set_project_assignee_stage (project_id : obj) (s : state obj exc) :
  one_request (SetAssignee (format project_id)) (λ ok _, ok) (jwt_token s) s
    (set_project_assignee project_id s)
  ∧ jwt_token (final (set_project_assignee project_id s)) = jwt_token s.
Proof.
  unfold one_request, set_project_assignee. unfold_script.
  destruct s as [tok al [|[b|e|e] rest] dn]; (split; [found|reflexivity]).
Qed.

Lemma process_speech_to_text_stage (project_id program_id : obj)
    (s : state obj exc) :
  one_request (SpeechToText (format project_id) (format program_id))
    (λ ok _, ok) (jwt_token s) s
    (process_speech_to_text project_id program_id s)
  ∧ jwt_token (final (process_speech_to_text project_id program_id s))
    = jwt_token s.
Proof.
  unfold one_request, process_speech_to_text. unfold_script.
  destruct s as [tok al [|[b|e|e] rest] dn]; (split; [found|reflexivity]).
Qed.

Lemma export_caption_stage (project_id program_id : obj) (l : string)
    (s : state obj exc) :
  one_request (ExportCaption (format project_id) (format program_id) l)
    (λ ok _, ok) (jwt_token s) s (export_caption project_id program_id l s)
  ∧ jwt_token (final (export_caption project_id program_id l s))
    = jwt_token s.
Proof.
  unfold one_request, export_caption. unfold_script.
  destruct s as [tok al [|[b|e|e] rest] dn]; (split; [found|reflexivity]).
Qed.

Lemma create_project_stage (file : string) (s : state obj exc) :
  one_request AddProject (λ ids _, truthy (fst ids)) (jwt_token s) s
    (create_project file s)
  ∧ jwt_token (final (create_project file s)) = jwt_token s.
Proof.
  unfold one_request, Automation.create_project. unfold_script.
  destruct s as [tok al [|[[j|[|] e]|e|e] rest] dn];
    try (split; [found|reflexivity]).
  cbn.
  repeat match goal with
         | |- context [match getitem ?a ?b with _ => _ end] =>
             destruct (getitem a b); cbn
         end; (split; [found|reflexivity]).
Qed.

Lemma get_jwt_token_stage (token : obj) (s : state obj exc) :
  one_request JwtLogin (λ _ s', truthy (jwt_token s')) token s
    (get_jwt_token s).
Proof.
  unfold one_request, get_jwt_token. unfold_script.
  destruct s as [tok al [|[[j|[|] e]|e|e] rest] dn]; try found.
  cbn. destruct (getitem j (py_str "token")); cbn; found.
Qed.

Lemma look_for_completion_spec (project_id : obj) (operations : list obj) :
  ∀ s, ∃ k,
    done (final (look_for_completion project_id operations s))
    = done s ++ replicate k (Sleep 10)
    ∧ replies (final (look_for_completion project_id operations s))
      = replies s
    ∧ jwt_token (final (look_for_completion project_id operations s))
      = jwt_token s
    ∧ LOCATION_ALIAS (final (look_for_completion project_id operations s))
      = LOCATION_ALIAS s
    ∧ is_Some (exit_code (look_for_completion project_id operations s))
    ∧ (∀ s', look_for_completion project_id operations s = Returns true s' →
             Exists (completes project_id) operations).
Proof.
  induction operations as [|op rest IH]; intros s.
  - exists 0%nat. cbn. rewrite app_nil_r. repeat split; [eauto|discriminate].
  - cbn [look_for_completion]. unfold_script.
    destruct (getitem op (py_str "projectId")) as [id|e] eqn:Eid; cbn.
    2:{ exists 0%nat. cbn. rewrite app_nil_r.
        repeat split; [eauto|discriminate]. }
    destruct (py_eq id project_id) eqn:Eeq; cbn.
    2:{ destruct (IH s) as (k & ? & ? & ? & ? & ? & Ht). exists k.
        repeat split; try assumption. intros s' Hs. right. eauto. }
    destruct (getitem op (py_str "operationType")) as [ty|e] eqn:Ety; cbn.
    2:{ exists 0%nat. cbn. rewrite app_nil_r.
        repeat split; [eauto|discriminate]. }
    destruct (py_eq ty (py_str "LocalSpeechToText")) eqn:Ety2; cbn.
    2:{ destruct (IH s) as (k & ? & ? & ? & ? & ? & Ht). exists k.
        repeat split; try assumption. intros s' Hs. right. eauto. }
    destruct (get_or op "progress" (py_int 0)) as [pr|e] eqn:Epr; cbn.
    2:{ exists 0%nat. cbn. rewrite app_nil_r.
        repeat split; [eauto|discriminate]. }
    destruct (py_eq pr (py_int 100)) eqn:Epr2; cbn.
    { exists 0%nat. cbn. rewrite app_nil_r. repeat split; [eauto|].
      intros _ _. left. exists id, ty, pr. easy. }
    match goal with
    | |- context [look_for_completion project_id rest ?s1] =>
        destruct (IH s1) as (k & Hd & ? & ? & ? & ? & Ht)
    end.
    cbn in *. exists (S k). rewrite Hd, <- app_assoc.
    repeat split; try assumption. intros s' Hs. right. eauto.
Qed.

Lemma look_for_completion_no_news (project_id : obj) (operations : list obj)
    (s : state obj exc) :
  Forall (of_another_project project_id) operations →
  look_for_completion project_id operations s = Returns false s.
Proof.
  induction 1 as [|op rest (id & Hid & Hne) _ IH]; [reflexivity|].
  cbn [look_for_completion]. unfold_script. rewrite Hid. cbn.
  now rewrite Hne.
Qed.

Lemma exchanges_app (a b : list (action obj exc)) :
  exchanges (a ++ b) = exchanges a ++ exchanges b.
Proof. apply omap_app. Qed.

Lemma exchanges_send method to headers json answer (l : list (action obj exc)) :
  exchanges (Send method to headers json answer :: l)
  = (to, answer) :: exchanges l.
Proof. reflexivity. Qed.

Lemma exchanges_sleeps (k : nat) :
  exchanges (replicate k (Sleep 10 : action obj exc)) = [].
Proof. induction k; [reflexivity|exact IHk]. Qed.

Lemma unremarkable_sleeps (token : obj) (k : nat) :
  Forall (unremarkable token) (replicate k (Sleep 10 : action obj exc)).
Proof. induction k; constructor; [exact I|assumption]. Qed.

Lemma poll_operations_spec (project_id : obj)
    (headers : list (string * string)) (trips : nat) :
  ∀ s, (length (replies s) < trips)%nat →
  ("Authorization", "Bearer " +:+ format (jwt_token s)) ∈ headers →
  polling project_id s (poll_operations trips project_id headers s).
Proof.
  induction trips as [|trips IH]; intros s Hlen Hauth; [lia|].
  cbn [poll_operations]. unfold polling. unfold_script.
  destruct s as [tok al [|rep rest] dn]; cbn in *.
  { exists []. rewrite app_nil_r. parts; done. }
  assert (unremarkable tok (Send "GET" Operations headers None rep)) as Hsend
    by now right.
  destruct rep as [[j|[|] x]|str_e|x]; cbn.
  - destruct (iterate j) as [operations|x] eqn:Eit; cbn.
    2:{ exists [Send "GET" Operations headers None (Response (Json j))].
        parts; try done; repeat constructor; assumption. }
    match goal with
    | |- context [look_for_completion project_id operations ?s1] =>
        destruct (look_for_completion_spec project_id operations s1)
          as (k & Hd & Hr & Ht & Ha & Hx & Hc);
        destruct (look_for_completion project_id operations s1)
          as [[|] s2|x s2|s2] eqn:Elook
    end; cbn in *.
    + exists (Send "GET" Operations headers None (Response (Json j))
              :: replicate k (Sleep 10)).
      rewrite Hd, <- app_assoc, Hr, exchanges_send, exchanges_sleeps. cbn.
      parts; try done.
      * constructor; [assumption|apply unremarkable_sleeps].
      * repeat constructor.
      * intros s' _. split; [repeat constructor|].
        exists j, operations. eauto.
    + destruct (IH s2) as (acts & Hd' & Ha' & Ht' & Hq & Hops & Hrep & Hw
                           & Htrue & Hfalse & Hexit).
      { rewrite Hr. lia. }
      { now rewrite Ht. }
      rewrite Ht in *. rewrite Hr in *. rewrite Ha in *.
      exists (Send "GET" Operations headers None (Response (Json j))
              :: replicate k (Sleep 10) ++ acts).
      rewrite Hd', Hd, <- !app_assoc.
      rewrite exchanges_send, exchanges_app, exchanges_sleeps. cbn.
      parts; try done.
      * constructor; [assumption|].
        apply Forall_app. split; [apply unremarkable_sleeps|assumption].
      * now constructor.
      * now rewrite Hrep.
      * intros s' Hs. destruct (Htrue s' Hs) as (H2 & j' & ops' & Hl & ? & ?).
        split; [now constructor|].
        exists j', ops'. rewrite last_cons, Hl. eauto.
      * intros s' Hs. destruct (Hfalse s' Hs) as (rep & e & Hl & ? & Hlast).
        exists rep, e. rewrite !last_cons, Hl.
        rewrite last_app, Hlast. eauto.
      * intros to e. rewrite last_cons.
        destruct (last (exchanges acts)) as [y|] eqn:El; [|discriminate].
        intros [= ->]. eauto.
    + exists (Send "GET" Operations headers None (Response (Json j))
              :: replicate k (Sleep 10)).
      rewrite Hd, <- app_assoc, Hr, exchanges_send, exchanges_sleeps. cbn.
      parts; try done.
      * constructor; [assumption|apply unremarkable_sleeps].
      * repeat constructor.
    + now destruct Hx.
  - exists [Send "GET" Operations headers None (Response (NotJson true x));
            PrintLine (ErrorCheckSpeechToText (format project_id) (exc_text x))].
    rewrite <- app_assoc. cbn.
    parts; try done; try (repeat constructor; assumption).
    intros s' _. eexists _, _. eauto.
  - exists [Send "GET" Operations headers None (Response (NotJson false x))].
    parts; try done; repeat constructor; assumption.
  - exists [Send "GET" Operations headers None (RequestException str_e);
            PrintLine (ErrorCheckSpeechToText (format project_id) str_e)].
    rewrite <- app_assoc. cbn.
    parts; try done; try (repeat constructor; assumption).
    intros s' _. eexists _, _. eauto.
  - exists [Send "GET" Operations headers None (OtherException x)].
    parts; try done; repeat constructor; assumption.
Qed.

Lemma check_speech_to_text_status_polling (project_id : obj)
    (s : state obj exc) :
  polling project_id s (check_speech_to_text_status project_id s).
Proof.
  unfold check_speech_to_text_status. unfold_script.
  apply poll_operations_spec; [lia|]. apply list_elem_of_here.
Qed.

Lemma poll_operations_no_news (project_id : obj)
    (headers : list (string * string)) (trips : nat) :
  ∀ s, (length (replies s) < trips)%nat →
  Forall (no_news project_id) (replies s) →
  poll_operations trips project_id headers s
  = Waits {| jwt_token := jwt_token s; LOCATION_ALIAS := LOCATION_ALIAS s;
             replies := [];
             done := done s
                     ++ map (Send "GET" Operations headers None) (replies s) |}.
Proof.
  induction trips as [|trips IH]; intros s Hlen Hnews; [lia|].
  cbn [poll_operations]. unfold_script.
  destruct s as [tok al [|rep rest] dn]; cbn in *.
  { now rewrite app_nil_r. }
  apply Forall_cons in Hnews as [(j & operations & -> & Hit & Hops) Hrest].
  rewrite Hit. cbn. rewrite look_for_completion_no_news by assumption.
  rewrite IH; cbn; [|lia|assumption]. now rewrite <- app_assoc.
Qed.
Lemma unremarkable_authorized (token : obj) (a : action obj exc) :
  unremarkable token a → authorized token a.
Proof. destruct a as [| | |]; try easy. Qed.

Lemma last_accepted (l : list (endpoint * reply obj exc)) to str_e :
  Forall (λ x, is_response x.2 = true) l →
  last l = Some (to, RequestException str_e) → False.
Proof.
  intros Hall Hl. apply last_Some_elem_of in Hl.
  rewrite Forall_forall in Hall. now specialize (Hall _ Hl).
Qed.

(** What a function does when all its requests go elsewhere than to
    [PROJECT_URL]. *)
Lemma names_project_elsewhere (alias : option string) (file : string)
    (acts : list (action obj exc)) :
  Forall (λ x, x.1 ≠ AddProject) (exchanges acts) →
  Forall (names_project PROCESS_DATE basename splitext_root alias file) acts.
Proof.
  induction acts as [|a acts IH]; [constructor|].
  destruct a as [| |method to headers json answer|]; cbn;
    try (intros Hx; constructor; [exact I|now apply IH]).
  intros Hx. apply Forall_cons in Hx as [Hto Hx]. cbn in Hto.
  constructor; [|now apply IH]. now destruct to.
Qed.

Lemma one_request_frame {A} (to : endpoint) (good : A → state obj exc → bool)
    (token : obj) (s : state obj exc) (r : result obj exc A)
    (alias : option string) (file : string) :
  one_request to good token s r → to ≠ AddProject →
  ∀ acts, done (final r) = done s ++ acts →
          Forall (names_project PROCESS_DATE basename splitext_root alias file)
                 acts.
Proof.
  intros (acts' & Hd & _ & _ & Hrep) Hto acts Hacts.
  rewrite Hd in Hacts. apply app_inv_head in Hacts as <-.
  apply names_project_elsewhere.
  destruct (replies s) as [|rep rest].
  - destruct Hrep as [-> _]. constructor.
  - destruct Hrep as [-> _]. now repeat constructor.
Qed.

Lemma polling_frame (project_id : obj) (s : state obj exc)
    (r : result obj exc bool) (alias : option string) (file : string) :
  polling project_id s r →
  ∀ acts, done (final r) = done s ++ acts →
          Forall (names_project PROCESS_DATE basename splitext_root alias file)
                 acts.
Proof.
  intros (acts' & Hd & _ & _ & _ & Hops & _) acts Hacts.
  rewrite Hd in Hacts. apply app_inv_head in Hacts as <-.
  apply names_project_elsewhere.
  eapply Forall_impl; [exact Hops|]. intros x ->. discriminate.
Qed.

Lemma create_project_frame (file : string) (s : state obj exc) :
  ∀ acts, done (final (create_project file s)) = done s ++ acts →
          Forall (names_project PROCESS_DATE basename splitext_root
                    (LOCATION_ALIAS s) file) acts.
Proof.
  intros acts. unfold Automation.create_project. unfold_script.
  destruct s as [tok al [|[[j|[|] e]|e|e] rest] dn]; cbn;
    repeat match goal with
           | |- context [match getitem ?a ?b with _ => _ end] =>
               destruct (getitem a b); cbn
           end;
    rewrite <- ?app_assoc; intros Hacts; apply app_inv_head in Hacts as <-;
    repeat constructor.
Qed.

Lemma request_step {A} (to : endpoint) (good : A → state obj exc → bool)
    (token : obj) (s : state obj exc) (r : result obj exc A)
    (rs : list (reply obj exc)) (tos : list endpoint)
    (pre : list (action obj exc)) (ok : action obj exc → Prop) :
  sofar rs tos token pre ok s → one_request to good token s r →
  (∀ acts, done (final r) = done s ++ acts → Forall ok acts) →
  halted rs (tos ++ [to]) token pre ok (final r)
  ∧ (exit_code r = None → replies (final r) = [])
  ∧ (∀ to' str_e,
       last (exchanges (done (final r))) = Some (to', RequestException str_e) →
       exit_code r = Some 0)
  ∧ (∀ a s', r = Returns a s' → good a s' = true →
             sofar rs (tos ++ [to]) token pre ok s').
Proof.
  intros (Hto & Hrs & Hq & H2 & Hpre & Hok) (acts & Hd & _ & Hacts & Hrep)
    Hframe.
  specialize (Hframe acts Hd).
  assert (Forall ok (done (final r))) as Hok'
    by (rewrite Hd; apply Forall_app; now split).
  unfold halted, sofar.
  destruct (replies s) as [|rep rest] eqn:Es.
  - destruct Hrep as (Hx & Hr & Hw). rewrite Hd, exchanges_app, Hx, app_nil_r.
    rewrite Hto, Hr. parts.
    + now apply prefix_app_r.
    + assumption.
    + apply Forall_app. now split.
    + now apply prefix_app_r.
    + now rewrite <- Hd.
    + easy.
    + intros to' e Hl. now destruct (last_accepted _ _ _ H2 Hl).
    + intros a s' ->. discriminate.
  - destruct Hrep as (Hx & Hr & Hsome & Hgood & Hexit).
    rewrite Hd, exchanges_app, Hx, !map_app, Hto, Hr. cbn. parts.
    + reflexivity.
    + now rewrite <- app_assoc.
    + apply Forall_app. now split.
    + now apply prefix_app_r.
    + now rewrite <- Hd.
    + intros Hn. rewrite Hn in Hsome. now destruct Hsome.
    + intros to' e. rewrite last_snoc. intros [= _ ->]. eauto.
    + intros a s' -> Hg. cbn in *. rewrite Hd, exchanges_app, Hx, !map_app.
      rewrite Hto, Hr. cbn. parts.
      * reflexivity.
      * now rewrite <- app_assoc.
      * apply Forall_app. now split.
      * apply Forall_app. split; [assumption|]. repeat constructor.
        cbn. eauto.
      * now apply prefix_app_r.
      * now rewrite <- Hd.
Qed.

Lemma polling_step (project_id : obj) (s : state obj exc)
    (r : result obj exc bool) (rs : list (reply obj exc))
    (tos : list endpoint) (pre : list (action obj exc))
    (ok : action obj exc → Prop) :
  sofar rs tos (jwt_token s) pre ok s → polling project_id s r →
  (∀ acts, done (final r) = done s ++ acts → Forall ok acts) →
  ∃ n, halted rs (tos ++ replicate n Operations) (jwt_token s) pre ok
         (final r)
       ∧ (exit_code r = None → replies (final r) = [])
       ∧ (∀ to' str_e,
            last (exchanges (done (final r)))
            = Some (to', RequestException str_e) →
            exit_code r = Some 0)
       ∧ jwt_token (final r) = jwt_token s
       ∧ (∀ s', r = Returns true s' →
                (0 < n)%nat
                ∧ sofar rs (tos ++ replicate n Operations) (jwt_token s)
                    pre ok s').
Proof.
  intros (Hto & Hrs & Hq & H2 & Hpre & Hok)
         (acts & Hd & _ & Ht & Hacts & Hops & Hrep & Hw & Htrue & _ & Hexit)
         Hframe.
  specialize (Hframe acts Hd).
  assert (Forall ok (done (final r))) as Hok'
    by (rewrite Hd; apply Forall_app; now split).
  exists (length (exchanges acts)).
  assert (map fst (exchanges acts)
          = replicate (length (exchanges acts)) Operations) as Hfst.
  { clear -Hops. induction Hops as [|[to rep] l Hx _ IH]; [reflexivity|].
    cbn in *. now rewrite Hx, IH. }
  assert (halted rs (tos ++ replicate (length (exchanges acts)) Operations)
            (jwt_token s) pre ok (final r)) as Hh.
  { unfold halted. rewrite Hd, exchanges_app, !map_app, Hto, Hfst. parts.
    - reflexivity.
    - now rewrite <- app_assoc, Hrep.
    - apply Forall_app. now split.
    - now apply prefix_app_r.
    - now rewrite <- Hd. }
  parts; try assumption.
  - intros to' e. rewrite Hd, exchanges_app, last_app.
    destruct (last (exchanges acts)) as [y|] eqn:El.
    + intros [= ->]. eauto.
    + intros Hl. now destruct (last_accepted _ _ _ H2 Hl).
  - intros s' ->. destruct (Htrue s' eq_refl) as (Hall & j & ops & Hl & _).
    split.
    + destruct (exchanges acts); [discriminate|cbn; lia].
    + destruct Hh as (Hp & Hr' & Hq' & Hpre' & Hok''). cbn in *.
      unfold sofar. parts.
      * now rewrite Hd, exchanges_app, !map_app, Hto, Hfst.
      * assumption.
      * assumption.
      * rewrite Hd, exchanges_app. apply Forall_app. now split.
      * assumption.
      * assumption.
Qed.

Lemma prefix_all_login (l : list (endpoint * reply obj exc)) :
  map fst l `prefix_of` [JwtLogin] → Forall (λ x, x.1 = JwtLogin) l.
Proof.
  intros [k Hk]. destruct l as [|[to rep] [|y l]]; cbn in *.
  - constructor.
  - injection Hk as <- _. repeat constructor.
  - discriminate.
Qed.

Lemma halted_outcome (file : string) (rs : list (reply obj exc))
    (tos : list endpoint) (token : obj) (r : result obj exc unit)
    (key alias loc : string)
    (project_id program_id exportLocation_id : string) (polls : nat) :
  location_of file = Some (key, (alias, loc)) →
  halted rs tos token (opening alias loc)
    (names_project PROCESS_DATE basename splitext_root (Some alias) file)
    (final r) →
  tos `prefix_of` pipeline project_id program_id exportLocation_id polls →
  jwt_token (final r) = token →
  tos = [JwtLogin] ∨ login_token rs token →
  (exit_code r = None → replies (final r) = []) →
  (∀ to str_e,
     last (exchanges (done (final r))) = Some (to, RequestException str_e) →
     exit_code r = Some 0) →
  outcome PROCESS_DATE basename splitext_root file rs r.
Proof.
  intros Hloc (Hp & Hrs & Hq & Hpre & Hok) Htos Ht Hprov Hw Hexit.
  exists project_id, program_id, exportLocation_id, polls. parts.
  - now transitivity tos.
  - assumption.
  - rewrite Ht. eapply Forall_impl; [exact Hq|].
    apply unremarkable_authorized.
  - destruct Hprov as [->|Hprov].
    + left. now apply prefix_all_login.
    + right. now rewrite Ht.
  - assumption.
  - assumption.
  - now rewrite Hloc.
  - intros Hin. exfalso. rewrite Forall_forall in Hq.
    exact (Hq _ Hin).
Qed.

Lemma halted_print (rs : list (reply obj exc)) (tos : list endpoint)
    (token : obj) (pre : list (action obj exc)) (ok : action obj exc → Prop)
    (s : state obj exc) (m : message) :
  halted rs tos token pre ok s → unremarkable token (PrintLine m) →
  ok (PrintLine m) →
  halted rs tos token pre ok
    {| jwt_token := jwt_token s; LOCATION_ALIAS := LOCATION_ALIAS s;
       replies := replies s; done := done s ++ [PrintLine m] |}.
Proof.
  intros (Hp & Hrs & Hq & Hpre & Hok) Hm Hokm. unfold halted.
  cbn [done replies].
  rewrite exchanges_app. cbn. rewrite app_nil_r. parts; try assumption.
  - apply Forall_app. split; [assumption|]. now constructor.
  - now apply prefix_app_r.
  - apply Forall_app. split; [assumption|]. now constructor.
Qed.

Lemma get_jwt_token_opens (s : state obj exc) :
  ∃ rest,
    done (final (get_jwt_token s))
    = done s
      ++ PrintCurl "POST" JwtLogin
           [("Accept", "text/plain");
            ("Content-Type", "application/json-patch+json")]
           (Some [("userName", Plain (FStr USERNAME));
                  ("password", Plain (FStr PASSWORD))]) :: rest.
Proof.
  unfold get_jwt_token. unfold_script.
  destruct s as [tok al [|[[j|[|] e]|e|e] rest] dn]; cbn;
    try destruct (getitem j (py_str "token")); cbn;
    rewrite <- ?app_assoc; eexists; reflexivity.
Qed.

Lemma get_jwt_token_token (s s' : state obj exc) :
  get_jwt_token s = Returns () s' → truthy (jwt_token s') = true →
  login_token (replies s) (jwt_token s').
Proof.
  unfold get_jwt_token, login_token. unfold_script.
  destruct s as [tok al [|[[j|[|] e]|e|e] rest] dn]; cbn; try discriminate.
  - destruct (getitem j (py_str "token")) as [t|e] eqn:Et; cbn;
      [|discriminate].
    intros [= <-] _. cbn. eauto.
  - intros [= <-]. cbn. now rewrite truthy_none.
  - intros [= <-]. cbn. now rewrite truthy_none.
Qed.

Ltac halt_with pid gid n :=
  cbn [negb orb];
  eapply (halted_outcome _ _ _ _ _ _ _ _ pid gid "" n);
  [eassumption
  |eassumption || (apply halted_print; [eassumption|exact I|exact I])
  |first [eexists; cbn; reflexivity
         |exists []; unfold pipeline; cbn;
          rewrite ?app_nil_r, <- ?app_assoc; reflexivity]
  |cbn; congruence
  |first [left; reflexivity|right; assumption]
  |cbn; first [assumption|discriminate]
  |cbn; first [assumption|intros; reflexivity]].

Ltac halt := halt_with "" "" 0%nat.

Local Abbreviation named alias file :=
  (names_project PROCESS_DATE basename splitext_root (Some alias) file).

(** What a run of [main] comes to, whatever the replies. *)
Lemma main_outcome (file : string) (rs : list (reply obj exc)) :
  outcome PROCESS_DATE basename splitext_root file rs (main file (start rs)).
Proof.
  unfold Automation.main.
  destruct (location_of file) as [[key [alias loc]]|] eqn:Hloc.
  2:{ exists "", "", "", 0%nat. rewrite Hloc. cbn. parts; try done.
      - apply prefix_nil.
      - repeat constructor.
      - now left.
      - intros Hin. apply list_elem_of_singleton in Hin. discriminate. }
  unfold_script. unfold start. cbn.
  match goal with
  | |- context [get_jwt_token ?s] => set (s0 := s)
  end.
  assert (∀ token, sofar rs [] token (done s0) (named alias file) s0) as H0.
  { intros token. unfold sofar. cbn. parts; try done; repeat constructor. }
  destruct (get_jwt_token_opens s0) as [tail Hopen].
  pose proof (get_jwt_token_token s0) as Htok.
  pose proof (λ token, one_request_frame _ _ _ _ _ (Some alias) file
                         (get_jwt_token_stage token s0)) as Hfr.
  destruct (get_jwt_token s0) as [[] s1|x s1|s1] eqn:E1;
    pose proof (get_jwt_token_stage (jwt_token s1) s0) as Hst;
    rewrite E1 in Hst;
    (assert (LOCATION_ALIAS s1 = Some alias) as Hal
       by (destruct Hst as (? & _ & Hal & _); exact Hal));
    destruct (request_step _ _ _ _ _ rs [] _ _ (H0 _) Hst
                (Hfr (jwt_token s1) ltac:(discriminate)))
      as (Hh & Hw & Hx & Hgo);
    cbn in Hh, Hw, Hx, Hopen;
    (assert (opening alias loc `prefix_of` done s1) as Hpre
       by (rewrite Hopen; now exists tail));
    (assert (halted rs [JwtLogin] (jwt_token s1) (opening alias loc)
               (named alias file) s1)
       as Hh' by (destruct Hh as (? & ? & ? & _ & ?); now repeat split));
    try halt.
  destruct (truthy (jwt_token s1)) eqn:Etok; cbn; [|halt].
  specialize (Hgo () s1 eq_refl Etok).
  specialize (Htok s1 eq_refl Etok). cbn in Htok.
  assert (sofar rs [JwtLogin] (jwt_token s1) (opening alias loc)
            (named alias file) s1) as Hgo1.
  { destruct Hgo as (? & ? & ? & ? & _ & ?). now repeat split. }
  clear Hh Hh' Hw Hx Hst H0 E1 Hgo Hopen tail Hfr.
  set (tok := jwt_token s1) in *. assert (jwt_token s1 = tok) as Ht1 by easy.
  clearbody tok. clear s0.
  (* create_project *)
  destruct (create_project_stage file s1) as [Hst Ht2].
  pose proof (create_project_frame file s1) as Hfr. rewrite Hal in Hfr.
  rewrite Ht1 in Hst, Ht2.
  destruct (create_project file s1) as [[project_id program_id] s2|x s2|s2]
    eqn:E2;
    destruct (request_step _ _ _ _ _ rs _ _ _ Hgo1 Hst Hfr)
      as (Hh & Hw & Hx & Hgo2);
    cbn in Hh, Hw, Hx, Ht2; try halt.
  destruct (truthy project_id) eqn:Epid; cbn; [|halt].
  destruct (truthy program_id) eqn:Egid; cbn; [|halt].
  specialize (Hgo2 _ _ eq_refl Epid).
  clear Hh Hw Hx Hst Hgo1 E2 Ht1 Hpre Hfr Hal s1.
  (* set_project_status *)
  destruct (set_project_status_stage project_id s2) as [Hst Ht3].
  rewrite Ht2 in Hst, Ht3.
  pose proof (one_request_frame _ _ _ _ _ (Some alias) file Hst
                ltac:(discriminate)) as Hfr.
  destruct (set_project_status project_id s2) as [[|] s3|x s3|s3] eqn:E3;
    destruct (request_step _ _ _ _ _ rs _ _ _ Hgo2 Hst Hfr)
      as (Hh & Hw & Hx & Hgo3);
    cbn in Hh, Hw, Hx, Ht3; try halt_with (format project_id) "" 0%nat.
  cbn [negb]. specialize (Hgo3 _ _ eq_refl eq_refl).
  clear Hh Hw Hx Hst Hgo2 E3 Ht2 Hfr s2.
  (* set_project_assignee *)
  destruct (set_project_assignee_stage project_id s3) as [Hst Ht4].
  rewrite Ht3 in Hst, Ht4.
  pose proof (one_request_frame _ _ _ _ _ (Some alias) file Hst
                ltac:(discriminate)) as Hfr.
  destruct (set_project_assignee project_id s3) as [[|] s4|x s4|s4] eqn:E4;
    destruct (request_step _ _ _ _ _ rs _ _ _ Hgo3 Hst Hfr)
      as (Hh & Hw & Hx & Hgo4);
    cbn in Hh, Hw, Hx, Ht4; try halt_with (format project_id) "" 0%nat.
  cbn [negb]. specialize (Hgo4 _ _ eq_refl eq_refl).
  clear Hh Hw Hx Hst Hgo3 E4 Ht3 Hfr s3.
  (* process_speech_to_text *)
  destruct (process_speech_to_text_stage project_id program_id s4)
    as [Hst Ht5].
  rewrite Ht4 in Hst, Ht5.
  pose proof (one_request_frame _ _ _ _ _ (Some alias) file Hst
                ltac:(discriminate)) as Hfr.
  destruct (process_speech_to_text project_id program_id s4)
    as [[|] s5|x s5|s5] eqn:E5;
    destruct (request_step _ _ _ _ _ rs _ _ _ Hgo4 Hst Hfr)
      as (Hh & Hw & Hx & Hgo5);
    cbn in Hh, Hw, Hx, Ht5;
    try halt_with (format project_id) (format program_id) 0%nat.
  cbn [negb]. specialize (Hgo5 _ _ eq_refl eq_refl).
  clear Hh Hw Hx Hst Hgo4 E5 Ht4 Hfr s4.
  (* check_speech_to_text_status *)
  pose proof (check_speech_to_text_status_polling project_id s5) as Hst.
  pose proof (polling_frame _ _ _ (Some alias) file Hst) as Hfr.
  rewrite <- Ht5 in Hgo5.
  destruct (polling_step _ _ _ rs _ _ _ Hgo5 Hst Hfr)
    as (n & Hh & Hw & Hx & Ht6 & Hgo6).
  rewrite Ht5 in *.
  destruct (check_speech_to_text_status project_id s5)
    as [[|] s6|x s6|s6] eqn:E6;
    cbn in Hh, Hw, Hx, Ht6;
    try halt_with (format project_id) (format program_id) n.
  cbn [negb]. destruct (Hgo6 _ eq_refl) as [Hn Hgo].
  clear Hh Hw Hx Hst Hgo5 Hgo6 E6 Ht5 Hfr s5.
  (* export_caption *)
  destruct (export_caption_stage project_id program_id loc s6) as [Hst Ht7].
  rewrite Ht6 in Hst, Ht7.
  pose proof (one_request_frame _ _ _ _ _ (Some alias) file Hst
                ltac:(discriminate)) as Hfr.
  destruct (export_caption project_id program_id loc s6)
    as [[|] s7|x s7|s7] eqn:E7;
    destruct (request_step _ _ _ _ _ rs _ _ _ Hgo Hst Hfr)
      as (Hh & Hw & Hx & Hgo7);
    cbn in Hh, Hw, Hx, Ht7;
    try (cbn [negb];
         eapply (halted_outcome _ _ _ _ _ _ _ _
                   (format project_id) (format program_id) loc n);
         [eassumption|eassumption
         |exists []; unfold pipeline; cbn;
          rewrite ?app_nil_r, <- ?app_assoc; reflexivity
         |cbn; congruence|right; assumption
         |cbn; first [assumption|discriminate]
         |cbn; first [assumption|intros; reflexivity]]).
  cbn [negb]. specialize (Hgo7 _ _ eq_refl eq_refl).
  clear Hh Hw Hx Hst Hgo E7 Ht6 Hfr s6.
  destruct Hgo7 as (Hto & Hrs & Hq & H2 & Hpre & Hok).
  exists (format project_id), (format program_id), loc, n.
  rewrite Hloc.
  cbn [final done replies jwt_token exit_code].
  rewrite exchanges_app. cbn. rewrite !app_nil_r, Hto. parts.
  - eexists []. rewrite app_nil_r. unfold pipeline. cbn.
    now rewrite <- ?app_assoc.
  - assumption.
  - apply Forall_app. split; [|now repeat constructor].
    rewrite Ht7. eapply Forall_impl; [exact Hq|].
    apply unremarkable_authorized.
  - right. now rewrite Ht7.
  - discriminate.
  - reflexivity.
  - now apply prefix_app_r.
  - apply Forall_app. split; [assumption|]. now repeat constructor.
  - intros _. parts; try done. now exists key, alias.
Qed.

End Stages.

(** ** The script: whole runs *)

Section Run.
Context {obj exc : Type} `{Python obj exc}.
Variable PROCESS_DATE : string.
Variable basename : string → string.
Variable splitext_root : string → string.

Local Abbreviation main := (main PROCESS_DATE basename splitext_root).
Local Abbreviation main_outcome :=
  (main_outcome PROCESS_DATE basename splitext_root).

(** X13.  Whatever the replies, the requests of [main] are an initial
    part of one sequence: login, add project, set status, set assignee,
    speech to text, the polls of the operations, export.  The replies are
    used up in order, and [main] is left waiting only when none is
    left. *)
Theorem main_requests_follow_the_pipeline (file : string)
    (rs : list (reply obj exc)) :
  ∃ project_id program_id exportLocation_id polls,
    map fst (exchanges (done (final (main file (start rs)))))
      `prefix_of` pipeline project_id program_id exportLocation_id polls
    ∧ map snd (exchanges (done (final (main file (start rs)))))
      ++ replies (final (main file (start rs))) = rs
    ∧ (exit_code (main file (start rs)) = None →
       replies (final (main file (start rs))) = []).
Proof.
  destruct (main_outcome file rs)
    as (pid & gid & loc & n & Hp & Hrs & _ & _ & Hw & _).
  exists pid, gid, loc, n. easy.
Qed.

(** X14.  [main] prints that the file was processed only after the whole
    sequence of requests, with one poll at least, each answered with a
    good status; the script then ends with exit code 0. *)
Theorem success_means_every_request_accepted (file : string)
    (rs : list (reply obj exc)) :
  PrintLine (ProcessedSuccessfully file) ∈ done (final (main file (start rs))) →
  ∃ project_id program_id key alias exportLocation_id polls,
    location_of file = Some (key, (alias, exportLocation_id))
    ∧ map fst (exchanges (done (final (main file (start rs)))))
      = pipeline project_id program_id exportLocation_id (S polls)
    ∧ Forall (λ x, is_response x.2 = true)
        (exchanges (done (final (main file (start rs)))))
    ∧ exit_code (main file (start rs)) = Some 0.
Proof.
  intros Hin.
  destruct (main_outcome file rs)
    as (pid & gid & loc & n & _ & _ & _ & _ & _ & _ & _ & Hs).
  destruct (Hs Hin) as (Hto & Hn & H2 & Hx & key & alias & Hloc).
  destruct n as [|n]; [lia|].
  exists pid, gid, key, alias, loc, n. easy.
Qed.

(** X15.  Every request of [main] other than the login carries, as its
    bearer token, the token of the reply to the login. *)
Theorem requests_carry_the_login_token (file : string)
    (rs : list (reply obj exc)) method to headers json answer :
  Send method to headers json answer
    ∈ done (final (main file (start rs))) →
  to ≠ JwtLogin →
  ∃ token, login_token rs token
           ∧ ("Authorization", "Bearer " +:+ format token) ∈ headers.
Proof.
  intros Hin Hto.
  destruct (main_outcome file rs)
    as (pid & gid & loc & n & _ & _ & Hauth & Hprov & _).
  exists (jwt_token (final (main file (start rs)))). split.
  - destruct Hprov as [Hall|Hprov]; [|assumption]. exfalso.
    rewrite Forall_forall in Hall. apply Hto, (Hall (to, answer)).
    unfold exchanges. apply list_elem_of_omap.
    now exists (Send method to headers json answer).
  - rewrite Forall_forall in Hauth. destruct (Hauth _ Hin); [easy|assumption].
Qed.

(** X16.  With a path that names no location [main] prints the error and
    sends nothing.  With one that does, it prints the alias, the export
    location and then the cURL command of the login, user name and
    password included, before the first request. *)
Theorem main_opens_with_the_credentials (file : string)
    (rs : list (reply obj exc)) :
  match location_of file with
  | Some (_, (alias, exportLocation_id)) =>
      opening alias exportLocation_id
        `prefix_of` done (final (main file (start rs)))
  | None => main file (start rs)
            = Returns () {| jwt_token := py_none; LOCATION_ALIAS := None;
                            replies := rs; done := [PrintLine ErrorLocation] |}
  end.
Proof.
  destruct (main_outcome file rs)
    as (pid & gid & loc & n & _ & _ & _ & _ & _ & _ & Hopen & _).
  destruct (location_of file) as [[key [alias l]]|] eqn:Hloc;
    [now destruct Hopen|].
  unfold Automation.main. now rewrite Hloc.
Qed.

(** X21.  The project that [main] asks the server to add names its video
    file by the alias of the location and the base name of the file:
    ::ALIAS\AUTOMATION\SOURCE\name, whatever folder the file is in. *)
Theorem project_names_the_alias_and_the_base_name (file : string)
    (rs : list (reply obj exc)) method headers json answer :
  Send method AddProject headers json answer
    ∈ done (final (main file (start rs))) →
  ∃ key alias exportLocation_id,
    location_of file = Some (key, (alias, exportLocation_id))
    ∧ json = Some (project_data PROCESS_DATE basename splitext_root
                     (Some alias) file)
    ∧ (("videoFile",
        Plain (FStr ("::" +:+ alias +:+ "\AUTOMATION\SOURCE\"
                     +:+ basename file))) : string * field obj)
      ∈ project_data PROCESS_DATE basename splitext_root (Some alias) file.
Proof.
  intros Hin.
  destruct (main_outcome file rs)
    as (pid & gid & loc & n & _ & _ & _ & _ & _ & _ & Hopen & _).
  destruct (location_of file) as [[key [alias l]]|] eqn:Hloc.
  - destruct Hopen as [_ Hall]. rewrite Forall_forall in Hall.
    specialize (Hall _ Hin). cbn in Hall.
    exists key, alias, l. split; [reflexivity|]. split; [assumption|].
    apply list_elem_of_further, list_elem_of_here.
  - rewrite Hopen in Hin. apply list_elem_of_singleton in Hin. discriminate.
Qed.

(** X22.  When the reply to the add-project request carries an id, or a
    first program id, that Python takes for false (0, the empty string,
    null), [main] returns at once: it prints nothing about it and sends
    nothing more. *)
Theorem unusable_ids_end_the_run_silently (file : string)
    (key alias exportLocation_id : string) (login info : obj)
    (rest : list (reply obj exc)) (token id programs program program_id : obj) :
  location_of file = Some (key, (alias, exportLocation_id)) →
  getitem login (py_str "token") = Got token → truthy token = true →
  getitem info (py_str "id") = Got id →
  getitem info (py_str "programs") = Got programs →
  getitem programs (py_int 0) = Got program →
  getitem program (py_str "id") = Got program_id →
  truthy id = false ∨ truthy program_id = false →
  ∃ acts,
    main file (start (Response (Json login) :: Response (Json info) :: rest))
    = Returns () {| jwt_token := token; LOCATION_ALIAS := Some alias;
                    replies := rest; done := acts |}
    ∧ exchanges acts = [(JwtLogin, Response (Json login));
                        (AddProject, Response (Json info))]
    ∧ last acts
      = Some (Send "POST" AddProject
                [("Authorization", "Bearer " +:+ format token);
                 ("Accept", "text/plain")]
                (Some (project_data PROCESS_DATE basename splitext_root
                         (Some alias) file))
                (Response (Json info))).
Proof.
  intros Hloc Htok Htrue Hid Hprogs Hprog Hgid Hfalsy.
  unfold Automation.main. rewrite Hloc.
  unfold get_jwt_token, Automation.create_project. unfold_script. cbn.
  rewrite Htok. cbn. rewrite Htrue. cbn.
  rewrite Hid. cbn. rewrite Hprogs. cbn. rewrite Hprog. cbn.
  rewrite Hgid. cbn.
  eexists.
  destruct Hfalsy as [-> | ->]; rewrite ?orb_true_r; cbn;
    (split; [reflexivity|split; reflexivity]).
Qed.

(** X17.  While the replies list no operation of the project,
    [check_speech_to_text_status] asks again at once: it sends one request
    per reply with no sleep between them, prints nothing and comes to no
    verdict. *)
Theorem polling_never_gives_up (project_id : obj) (s : state obj exc) :
  Forall (no_news project_id) (replies s) →
  check_speech_to_text_status project_id s
  = Waits {| jwt_token := jwt_token s; LOCATION_ALIAS := LOCATION_ALIAS s;
             replies := [];
             done := done s
                     ++ map (Send "GET" Operations
                               [("Authorization", bearer s);
                                ("Accept", "application/json")] None)
                            (replies s) |}.
Proof.
  intros Hnews. unfold check_speech_to_text_status.
  unfold mbind, script_bind, get_state.
  now rewrite poll_operations_no_news by (assumption || lia).
Qed.

(** X18.  [check_speech_to_text_status] returns [True] only when the
    last reply lists a speech-to-text operation of the project with
    progress 100, and [False] only when the last request failed with a
    [RequestException], which it prints. *)
Theorem polling_verdict (project_id : obj) (s s' : state obj exc) (b : bool) :
  check_speech_to_text_status project_id s = Returns b s' →
  ∃ acts rep,
    done s' = done s ++ acts
    ∧ last (exchanges acts) = Some (Operations, rep)
    ∧ if b then
        ∃ j operations,
          rep = Response (Json j) ∧ iterate j = Got operations
          ∧ Exists (completes project_id) operations
      else
        ∃ str_e,
          caught rep = Some str_e
          ∧ last acts = Some (PrintLine (ErrorCheckSpeechToText
                                       (format project_id) str_e)).
Proof.
  intros Hr.
  destruct (check_speech_to_text_status_polling project_id s)
    as (acts & Hd & _ & _ & _ & _ & _ & _ & Htrue & Hfalse & _).
  rewrite Hr in *. cbn in Hd. exists acts. destruct b.
  - destruct (Htrue s' eq_refl) as (_ & j & ops & Hl & Hit & Hc).
    exists (Response (Json j)). eauto 10.
  - destruct (Hfalse s' eq_refl) as (rep & e & Hl & Hc & Hlast).
    exists rep. eauto 10.
Qed.

Local Abbreviation run_as_script :=
  (run_as_script PROCESS_DATE basename splitext_root).

Import Handler.

(** X19.  When the last request of the script fails with a
    [RequestException], the script has not processed the file, yet it ends
    with exit code 0, and the handler that dispatched it logs the dispatch
    as completed. *)
Theorem refused_request_is_logged_as_completed (h : Handler) (i : nat)
    (w : worker) (rs : list (reply obj exc)) (to : endpoint)
    (str_e stdout stderr : string) :
  is_python h = true →
  workers h !! i = Some w → w_phase w = Dispatching →
  last (exchanges (done (final (run_as_script (Deployment.argv h (w_path w))
                                              (start rs)))))
  = Some (to, RequestException str_e) →
  (PrintLine (ProcessedSuccessfully (w_path w))
     ∉ done (final (run_as_script (Deployment.argv h (w_path w)) (start rs))))
  ∧ ∃ o h',
      Deployment.child (run_as_script (Deployment.argv h (w_path w))
                                      (start rs)) stdout stderr = Some o
      ∧ step h (ProcessEnds i o) = Some h'
      ∧ log h' = log h ++ CompletedProcessing (w_path w)
                          :: (if String.eqb stdout "" then []
                              else [ScriptOutput stdout])
      ∧ workers h' !! i
        = Some {| w_path := w_path w; w_phase := Unwinding None |}.
Proof.
  intros Hpy Hw Hph. unfold Deployment.argv, cmd. rewrite Hpy.
  cbn [tail Automation.run_as_script]. intros Hlast.
  destruct (main_outcome (w_path w) rs)
    as (pid & gid & loc & n & _ & _ & _ & _ & _ & Hexit & _ & Hs).
  split.
  - intros Hin. destruct (Hs Hin) as (_ & _ & H2 & _).
    exact (last_accepted _ _ _ H2 Hlast).
  - unfold Deployment.child. rewrite (Hexit _ _ Hlast). cbn.
    rewrite Hw, Hph. eexists _, _. split; [reflexivity|].
    split; [reflexivity|]. unfold leave_with. cbn. split; [reflexivity|].
    apply list_lookup_insert_eq. now apply lookup_lt_Some in Hw.
Qed.

End Run.

Ltac find_in :=
  apply list_elem_of_In; vm_compute;
  repeat first [left; reflexivity | right].

Lemma success_means_every_request_accepted_witness :
  ∃ project_id program_id key alias exportLocation_id polls,
    location_of Example.news = Some (key, (alias, exportLocation_id))
    ∧ map fst (exchanges (done (final
        (main Example.PROCESS_DATE Example.basename Example.splitext_root
              Example.news (start Example.good_replies)))))
      = pipeline project_id program_id exportLocation_id (S polls)
    ∧ Forall (λ x, is_response x.2 = true)
        (exchanges (done (final
           (main Example.PROCESS_DATE Example.basename Example.splitext_root
                 Example.news (start Example.good_replies)))))
    ∧ exit_code (main Example.PROCESS_DATE Example.basename
                      Example.splitext_root Example.news
                      (start Example.good_replies)) = Some 0.
Proof.
  apply success_means_every_request_accepted. find_in.
Defined.

Lemma requests_carry_the_login_token_witness :
  ∃ token,
    login_token Example.good_replies token
    ∧ ("Authorization", "Bearer " +:+ format token)
      ∈ [("Authorization", "Bearer eyJhbGciOi"); ("Accept", "text/plain")].
Proof.
  apply (requests_carry_the_login_token
           Example.PROCESS_DATE Example.basename Example.splitext_root
           Example.news Example.good_replies "POST"
           (ExportCaption "P1" "G1" "adec4715-c87c-4d4c-9e32-da86b4d4d7a9")
           _ None Example.accepted).
  - find_in.
  - discriminate.
Defined.

Lemma polling_never_gives_up_witness :
  check_speech_to_text_status (Json.JStr "P1")
    (Example.about_to_poll Example.idle_replies)
  = Waits {| jwt_token := jwt_token (Example.about_to_poll Example.idle_replies);
             LOCATION_ALIAS :=
               LOCATION_ALIAS (Example.about_to_poll Example.idle_replies);
             replies := [];
             done := done (Example.about_to_poll Example.idle_replies)
                     ++ map (Send "GET" Operations
                               [("Authorization",
                                 bearer (Example.about_to_poll
                                           Example.idle_replies));
                                ("Accept", "application/json")] None)
                            (replies (Example.about_to_poll
                                        Example.idle_replies)) |}.
Proof.
  apply (polling_never_gives_up (Json.JStr "P1")
           (Example.about_to_poll Example.idle_replies)).
  repeat constructor; eexists _, _; (split; [reflexivity|]);
    (split; [reflexivity|]); repeat constructor;
    eexists; split; reflexivity.
Defined.

Lemma polling_verdict_witness :
  ∃ s' acts rep,
    check_speech_to_text_status (Json.JStr "P1")
      (Example.about_to_poll (drop 5 Example.good_replies))
    = Returns true s'
    ∧ done s' = acts
    ∧ last (exchanges acts) = Some (Operations, rep)
    ∧ ∃ j operations,
        rep = Response (Json j) ∧ iterate j = Got operations
        ∧ Exists (completes (Json.JStr "P1")) operations.
Proof.
  assert (∃ s', check_speech_to_text_status (Json.JStr "P1")
                  (Example.about_to_poll (drop 5 Example.good_replies))
                = Returns true s') as [s' Hs]
    by (eexists; vm_compute; reflexivity).
  destruct (polling_verdict _ _ _ _ Hs) as (acts & rep & Hd & Hl & Hv).
  exists s', acts, rep. exact (conj Hs (conj Hd (conj Hl Hv))).
Defined.

Import Handler.

Lemma refused_request_is_logged_as_completed_witness :
  ∃ h o h',
    run (init "stanza-automation.py" true)
        [OnCreated Example.news false;
         StabilityChecked 0 0 (Ok 0%Q) Scenario.stable_polls;
         Acquire 0] = Some h
    ∧ (PrintLine (ProcessedSuccessfully Example.news)
         ∉ done (final (run_as_script Example.PROCESS_DATE Example.basename
                          Example.splitext_root
                          (Deployment.argv h Example.news)
                          (start Example.refused_replies))))
    ∧ Deployment.child
        (run_as_script Example.PROCESS_DATE Example.basename
           Example.splitext_root (Deployment.argv h Example.news)
           (start Example.refused_replies))
        "Error: Failed to create project" "" = Some o
    ∧ step h (ProcessEnds 0 o) = Some h'
    ∧ log h' = log h ++ [CompletedProcessing Example.news;
                         ScriptOutput "Error: Failed to create project"].
Proof.
  assert (∃ h,
    run (init "stanza-automation.py" true)
        [OnCreated Example.news false;
         StabilityChecked 0 0 (Ok 0%Q) Scenario.stable_polls;
         Acquire 0] = Some h
    ∧ is_python h = true
    ∧ workers h !! 0%nat
      = Some {| w_path := Example.news; w_phase := Dispatching |})
    as (h & Hh & Hpy & Hw)
    by (eexists; split; [vm_compute; reflexivity|split; reflexivity]).
  destruct (refused_request_is_logged_as_completed
              Example.PROCESS_DATE Example.basename Example.splitext_root
              h 0 _ Example.refused_replies AddProject "500 Server Error"
              "Error: Failed to create project" "" Hpy Hw eq_refl)
    as (Hno & o & h' & Ho & Hstep & Hlog & _).
  { cbn [w_path]. unfold Deployment.argv, cmd. rewrite Hpy.
    vm_compute. reflexivity. }
  exists h, o, h'. exact (conj Hh (conj Hno (conj Ho (conj Hstep Hlog)))).
Defined.

Lemma project_names_the_alias_and_the_base_name_witness :
  ∃ key alias exportLocation_id,
    location_of Example.news = Some (key, (alias, exportLocation_id))
    ∧ Some (project_data Example.PROCESS_DATE Example.basename
              Example.splitext_root (Some "STANZA_TRANSIT") Example.news
            : list (string * field Json.json))
      = Some (project_data Example.PROCESS_DATE Example.basename
                Example.splitext_root (Some alias) Example.news)
    ∧ (("videoFile",
        Plain (FStr ("::" +:+ alias +:+ "\AUTOMATION\SOURCE\"
                     +:+ Example.basename Example.news)))
       : string * field Json.json)
      ∈ project_data Example.PROCESS_DATE Example.basename
          Example.splitext_root (Some alias) Example.news.
Proof.
  apply (project_names_the_alias_and_the_base_name
           Example.PROCESS_DATE Example.basename Example.splitext_root
           Example.news Example.good_replies "POST"
           [("Authorization", "Bearer eyJhbGciOi"); ("Accept", "text/plain")]
           _ Example.project_reply).
  find_in.
Defined.

Lemma unusable_ids_end_the_run_silently_witness :
  ∃ acts,
    main Example.PROCESS_DATE Example.basename Example.splitext_root
      Example.news
      (start [Response (Json Example.login);
              Response (Json Example.project_zero)])
    = Returns () {| jwt_token := Json.JStr "eyJhbGciOi";
                    LOCATION_ALIAS := Some "STANZA_TRANSIT";
                    replies := []; done := acts |}
    ∧ exchanges acts = [(JwtLogin, Response (Json Example.login));
                        (AddProject, Response (Json Example.project_zero))]
    ∧ last acts
      = Some (Send "POST" AddProject
                [("Authorization",
                  "Bearer " +:+ format (Json.JStr "eyJhbGciOi"));
                 ("Accept", "text/plain")]
                (Some (project_data Example.PROCESS_DATE Example.basename
                         Example.splitext_root (Some "STANZA_TRANSIT")
                         Example.news))
                (Response (Json Example.project_zero))).
Proof.
  apply (unusable_ids_end_the_run_silently
           Example.PROCESS_DATE Example.basename Example.splitext_root
           Example.news "stanza_transit" "STANZA_TRANSIT"
           "adec4715-c87c-4d4c-9e32-da86b4d4d7a9"
           Example.login Example.project_zero []
           (Json.JStr "eyJhbGciOi") (Json.JInt 0)
           (Json.JList [Json.JDict [("id", Json.JStr "G1")]])
           (Json.JDict [("id", Json.JStr "G1")]) (Json.JStr "G1"));
    try reflexivity.
  now left.
Defined.
